(** * AssessmentAssist: the question document model and its two validators

    A shallow embedding of
    - [src/types/index.ts] (the document model),
    - [src/utils/assessmentUtils.ts] ([generateId], [createEmptyQuestion],
      [validateQuestion]),
    - [demoSchema.js] (the Mongoose schema and its [pre('save')] hook),
    - the editor handlers of [MainCanvas], [QuestionEditor],
      [OrderingQuestion] and [HotspotQuestion],
    followed by the properties the specification states about them. *)

From Stdlib Require Import String Ascii List ZArith Lia Bool Arith.
From Stdlib Require Import Permutation Sorted DecimalString DecimalNat.
Import ListNotations.

Local Open Scope string_scope.
Local Open Scope list_scope.

(** ** JavaScript strings

    A string is a sequence of code units; the model keeps the code units
    below 256, which is where every literal of the sources lives. *)

Module JsString.

(** The white space and line terminators [String.prototype.trim] strips:
    TAB, LF, VT, FF, CR, SPACE and NBSP. *)
Definition isWhiteSpace (c : ascii) : bool :=
  match nat_of_ascii c with
  | 9 | 10 | 11 | 12 | 13 | 32 | 160 => true
  | _ => false
  end.

(** The line terminators the regular-expression dot does not match. *)
Definition isLineTerminator (c : ascii) : bool :=
  match nat_of_ascii c with
  | 10 | 13 => true
  | _ => false
  end.

Fixpoint dropWhile {A} (p : A -> bool) (l : list A) : list A :=
  match l with
  | [] => []
  | a :: l' => if p a then dropWhile p l' else l
  end.

Definition trimStartL (l : list ascii) : list ascii := dropWhile isWhiteSpace l.
Definition trimEndL (l : list ascii) : list ascii := rev (dropWhile isWhiteSpace (rev l)).

(** [s.trim()] *)
Definition trim (s : string) : string :=
  string_of_list_ascii (trimEndL (trimStartL (list_ascii_of_string s))).

(** Truthiness of a string: only the empty string is falsy. *)
Definition truthy (s : string) : bool :=
  match s with
  | EmptyString => false
  | String _ _ => true
  end.

(** Truthiness of [string | undefined]. *)
Definition truthyOpt (s : option string) : bool :=
  match s with
  | None => false
  | Some s => truthy s
  end.

(** [s?.trim()] *)
Definition trimOpt (s : option string) : option string := option_map trim s.

(** Every code unit of [s] is white space ([s] may be empty). *)
Definition blank (s : string) : bool := forallb isWhiteSpace (list_ascii_of_string s).

Definition blankOpt (s : option string) : bool :=
  match s with
  | None => true
  | Some s => blank s
  end.

End JsString.
Import JsString.

(** ** The document model ([src/types/index.ts], and the fields only the
       schema of [demoSchema.js] knows: [createdBy], [tags]) *)

Inductive QuestionType := mcq | ordering | hotspot.
Inductive Purpose := formative | summative.

(** The values of the type [BloomsLevel], which are those of the [enum] of
    the schema and of the select of the editor. At run time the field
    [bloomsLevel] holds a string: the select yields the empty string for its
    empty choice, and a request body can carry any string. *)
Definition bloomsLevels : list string :=
  [ "Remember"; "Understand"; "Apply"; "Analyze"; "Evaluate"; "Create" ].

Definition QuestionType_eqb (a b : QuestionType) : bool :=
  match a, b with
  | mcq, mcq | ordering, ordering | hotspot, hotspot => true
  | _, _ => false
  end.

Definition Purpose_eqb (a b : Purpose) : bool :=
  match a, b with
  | formative, formative | summative, summative => true
  | _, _ => false
  end.

Record MCQOption := mkOption {
  o_id : string;
  o_text : string;
  o_isCorrect : bool;
  o_feedback : option string          (* required for formative *)
}.

Record OrderingItem := mkItem {
  i_id : string;
  i_text : string;
  i_order : Z
}.

Record Point := mkPoint { p_x : Z; p_y : Z }.

Record HotspotZone := mkZone {
  z_id : string;
  z_coordinates : list Point;
  z_label : option string
}.

(** One flat document, as the schema has it: the variant payloads
    [options], [items] and [zones] are all present, the ones that do not
    belong to the document's [type] being empty. A question of the editor
    has no [createdBy] and no [tags]; [imageFile] stands for the [File] of
    an uploaded image. *)
Record Question := mkQuestion {
  q_id : string;
  q_type : QuestionType;
  q_purpose : Purpose;
  q_stem : string;
  q_topic : option string;
  q_learningObjective : option string;
  q_bloomsLevel : option string;
  q_createdBy : option string;
  q_tags : list string;
  q_options : list MCQOption;
  q_items : list OrderingItem;
  q_zones : list HotspotZone;
  q_imageUrl : option string;
  q_imageFile : option string
}.

Definition set_id (v : string) (q : Question) : Question :=
  mkQuestion v (q_type q) (q_purpose q) (q_stem q) (q_topic q)
    (q_learningObjective q) (q_bloomsLevel q) (q_createdBy q) (q_tags q)
    (q_options q) (q_items q) (q_zones q) (q_imageUrl q) (q_imageFile q).

Definition set_stem (v : string) (q : Question) : Question :=
  mkQuestion (q_id q) (q_type q) (q_purpose q) v (q_topic q)
    (q_learningObjective q) (q_bloomsLevel q) (q_createdBy q) (q_tags q)
    (q_options q) (q_items q) (q_zones q) (q_imageUrl q) (q_imageFile q).

Definition set_purpose (v : Purpose) (q : Question) : Question :=
  mkQuestion (q_id q) (q_type q) v (q_stem q) (q_topic q)
    (q_learningObjective q) (q_bloomsLevel q) (q_createdBy q) (q_tags q)
    (q_options q) (q_items q) (q_zones q) (q_imageUrl q) (q_imageFile q).

Definition set_topic (v : option string) (q : Question) : Question :=
  mkQuestion (q_id q) (q_type q) (q_purpose q) (q_stem q) v
    (q_learningObjective q) (q_bloomsLevel q) (q_createdBy q) (q_tags q)
    (q_options q) (q_items q) (q_zones q) (q_imageUrl q) (q_imageFile q).

Definition set_learningObjective (v : option string) (q : Question) : Question :=
  mkQuestion (q_id q) (q_type q) (q_purpose q) (q_stem q) (q_topic q)
    v (q_bloomsLevel q) (q_createdBy q) (q_tags q)
    (q_options q) (q_items q) (q_zones q) (q_imageUrl q) (q_imageFile q).

Definition set_bloomsLevel (v : option string) (q : Question) : Question :=
  mkQuestion (q_id q) (q_type q) (q_purpose q) (q_stem q) (q_topic q)
    (q_learningObjective q) v (q_createdBy q) (q_tags q)
    (q_options q) (q_items q) (q_zones q) (q_imageUrl q) (q_imageFile q).

Definition set_options (v : list MCQOption) (q : Question) : Question :=
  mkQuestion (q_id q) (q_type q) (q_purpose q) (q_stem q) (q_topic q)
    (q_learningObjective q) (q_bloomsLevel q) (q_createdBy q) (q_tags q)
    v (q_items q) (q_zones q) (q_imageUrl q) (q_imageFile q).

Definition set_items (v : list OrderingItem) (q : Question) : Question :=
  mkQuestion (q_id q) (q_type q) (q_purpose q) (q_stem q) (q_topic q)
    (q_learningObjective q) (q_bloomsLevel q) (q_createdBy q) (q_tags q)
    (q_options q) v (q_zones q) (q_imageUrl q) (q_imageFile q).

Definition set_zones (v : list HotspotZone) (q : Question) : Question :=
  mkQuestion (q_id q) (q_type q) (q_purpose q) (q_stem q) (q_topic q)
    (q_learningObjective q) (q_bloomsLevel q) (q_createdBy q) (q_tags q)
    (q_options q) (q_items q) v (q_imageUrl q) (q_imageFile q).

Record AssessmentState := mkState {
  questions : list Question;
  currentQuestionId : option string
}.

(** ** Identifier generation

    [generateId] reads [Math.random()]. The model threads the source of
    randomness explicitly: [draws k] is the identifier the [k]-th call
    yields, [next] counts the calls made so far. *)

Record IdGen := mkGen { draws : nat -> string; next : nat }.

Definition Gen (A : Type) : Type := IdGen -> A * IdGen.

Definition ret {A} (a : A) : Gen A := fun g => (a, g).

Definition bind {A B} (m : Gen A) (k : A -> Gen B) : Gen B :=
  fun g => let (a, g') := m g in k a g'.

Notation "x <- m ;; k" := (bind m (fun x => k))
  (at level 61, m at next level, right associativity).

Definition generateId : Gen string :=
  fun g => (draws g (next g), mkGen (draws g) (S (next g))).

(** ** [createEmptyQuestion] *)

Definition createEmptyQuestion (type : QuestionType) : Gen Question :=
  baseId <- generateId ;;
  let baseQuestion :=
    mkQuestion baseId type formative "" None None None None [] [] [] [] None None in
  match type with
  | mcq =>
      a <- generateId ;; b <- generateId ;; c <- generateId ;; d <- generateId ;;
      ret (set_options
             [ mkOption a "" false None; mkOption b "" true None;
               mkOption c "" false None; mkOption d "" false None ]
             baseQuestion)
  | ordering =>
      a <- generateId ;; b <- generateId ;; c <- generateId ;;
      ret (set_items [ mkItem a "" 0; mkItem b "" 1; mkItem c "" 2 ] baseQuestion)
  | hotspot =>
      ret (mkQuestion baseId hotspot formative "" None None None None [] [] [] []
             (Some "") None)
  end.

(** ** [validateQuestion], the client-side validator

    The body runs in the frame of the call: the argument [question], which
    the caller still holds after the call, and the local array [errors]. A
    statement takes the frame to the frame after it. *)

Record ValidationResult := mkResult { isValid : bool; errors : list string }.

Record Frame := mkFrame { f_question : Question; f_errors : list string }.

Definition Stmt : Type := Frame -> Frame.

(** [errors.push(msg)] *)
Definition push (msg : string) : Stmt :=
  fun f => mkFrame (f_question f) (f_errors f ++ [msg]).

(** [if (c) { s }], the condition reading the question *)
Definition when (c : Question -> bool) (s : Stmt) : Stmt :=
  fun f => if c (f_question f) then s f else f.

Definition andThen (s1 s2 : Stmt) : Stmt := fun f => s2 (s1 f).

Notation "s1 >> s2" := (andThen s1 s2) (at level 62, left associativity).

(** [switch (question.type) { case 'mcq': m; break; case 'ordering': o; break;
    case 'hotspot': h; break; }] *)
Definition switchType (m o h : Stmt) : Stmt :=
  fun f => match q_type (f_question f) with
           | mcq => m f
           | ordering => o f
           | hotspot => h f
           end.

Definition E_STEM := "Question stem is required".
Definition E_OBJECTIVE := "Learning objective is required for summative questions".
Definition E_BLOOMS := "Bloom's level is required for summative questions".
Definition E_CORRECT := "At least one option must be marked as correct".
Definition E_OPTION_TEXT := "All options must have text".
Definition E_FEEDBACK := "All options must have feedback for formative questions".
Definition E_ITEM_TEXT := "All items must have text".
Definition E_ITEMS := "Ordering questions must have at least 2 items".
Definition E_ZONE := "At least one hotspot zone is required".

Definition hasCorrectOption (question : Question) : bool :=
  existsb o_isCorrect (q_options question).

Definition hasEmptyOption (question : Question) : bool :=
  existsb (fun opt => negb (truthy (trim (o_text opt)))) (q_options question).

Definition hasEmptyFeedback (question : Question) : bool :=
  existsb (fun opt => negb (truthyOpt (trimOpt (o_feedback opt)))) (q_options question).

Definition hasEmptyItem (question : Question) : bool :=
  existsb (fun item => negb (truthy (trim (i_text item)))) (q_items question).

Definition validateBody : Stmt :=
  (* Base validation *)
  when (fun question => negb (truthy (trim (q_stem question)))) (push E_STEM)
  (* Purpose-specific validation *)
  >> when (fun question => Purpose_eqb (q_purpose question) summative)
       (when (fun question => negb (truthyOpt (trimOpt (q_learningObjective question))))
             (push E_OBJECTIVE)
        >> when (fun question => negb (truthyOpt (q_bloomsLevel question)))
                (push E_BLOOMS))
  (* Type-specific validation *)
  >> switchType
       (when (fun question => negb (hasCorrectOption question)) (push E_CORRECT)
        >> when hasEmptyOption (push E_OPTION_TEXT)
        >> when (fun question => Purpose_eqb (q_purpose question) formative)
                (when hasEmptyFeedback (push E_FEEDBACK)))
       (when hasEmptyItem (push E_ITEM_TEXT)
        >> when (fun question => (length (q_items question) <? 2)%nat) (push E_ITEMS))
       (when (fun question => (length (q_zones question) =? 0)%nat) (push E_ZONE)).

(** The array [errors] when the body has run, from [const errors = []]. *)
Definition validateErrors (question : Question) : list string :=
  f_errors (validateBody (mkFrame question [])).

Definition validateQuestion (question : Question) : ValidationResult :=
  let errors := validateErrors question in
  mkResult (length errors =? 0)%nat errors.

(** ** Regular expressions, for the [imageUrl] pattern

    [RegExp.prototype.test] on a pattern that starts with [^] and has no
    [$] answers whether some prefix of the input is in the language of the
    pattern. The matcher below decides that with derivatives. *)

Module Regex.

Inductive re :=
| Void                    (* matches nothing *)
| Eps                     (* the empty string *)
| Chr (c : ascii)         (* one given code unit *)
| Dot                     (* [.]: any code unit but a line terminator *)
| Seq (a b : re)
| Alt (a b : re)
| Star (a : re).

Definition Opt (a : re) : re := Alt a Eps.       (* [a?] *)
Definition Plus (a : re) : re := Seq a (Star a). (* [a+] *)

Fixpoint nullable (r : re) : bool :=
  match r with
  | Void => false
  | Eps => true
  | Chr _ => false
  | Dot => false
  | Seq a b => nullable a && nullable b
  | Alt a b => nullable a || nullable b
  | Star _ => true
  end.

Fixpoint deriv (c : ascii) (r : re) : re :=
  match r with
  | Void => Void
  | Eps => Void
  | Chr c' => if Ascii.eqb c c' then Eps else Void
  | Dot => if isLineTerminator c then Void else Eps
  | Seq a b => Alt (Seq (deriv c a) b) (if nullable a then deriv c b else Void)
  | Alt a b => Alt (deriv c a) (deriv c b)
  | Star a => Seq (deriv c a) (Star a)
  end.

(** [/^r/.test(s)] *)
Fixpoint test (r : re) (s : string) : bool :=
  nullable r ||
  match s with
  | EmptyString => false
  | String c s' => test (deriv c r) s'
  end.

End Regex.
Import Regex.

(** ** The schema ([demoSchema.js])

    How Mongoose runs a schema, as far as this one uses it:
    - a string path with [trim: true] is trimmed when it is set;
    - the built-in [required] validator of a string path rejects a missing
      value and the empty string; [required] may be a function of the
      document ([this]), or of the owning document ([this.parent()]) for a
      path of a subdocument;
    - the [validate.validator] of a path runs on a value that is set, with
      the document as [this]; so does the validator of an [enum], after
      [required];
    - the [validate] of [options], [items] and [zones] is not the option of
      a path: each stands in the one element of the array literal that
      declares a document array, [[{ type: ..., validate: ... }]], next to
      the [type] of the elements, where Mongoose reads the [type] and
      registers no validator. The three validators are declared and never
      run;
    - a value set on a path of type [ObjectId] is cast: a string of 24
      hexadecimal digits is one, any other string leaves a cast error on
      the path, which the validation reports;
    - paths outside the document model ([options] on an ordering question,
      say) default to the empty array;
    - [save] validates all paths, collecting the errors, and only a document
      without validation errors reaches the [pre('save')] hook, which aborts
      the save with an error or lets it go on.
    [type], [purpose], [isCorrect], [order] and the coordinates are of their
    types in the document model, so their [enum], type and [required] rules
    hold of every document. An [order] is an integer. *)

(** [/^https?:\/\/.+/] *)
Definition imageUrl_pattern : re :=
  Seq (Chr "h") (Seq (Chr "t") (Seq (Chr "t") (Seq (Chr "p")
    (Seq (Opt (Chr "s"))
      (Seq (Chr ":") (Seq (Chr "/") (Seq (Chr "/") (Plus Dot)))))))).

(** The [validator] of the path [imageUrl]: [!url || /^https?:\/\/.+/.test(url)]. *)
Definition imageUrl_validator (url : string) : bool :=
  negb (truthy url) || test imageUrl_pattern url.

(** The messages declared with the validators of [options], [items] and
    [zones], which are never raised, and the message of the validator of
    [imageUrl]. *)
Definition M_OPTIONS := "MCQ questions must have at least 2 options".
Definition M_ITEMS := "Ordering questions must have at least 2 items".
Definition M_ZONES := "Hotspot questions must have at least 1 zone".
Definition M_IMAGE_URL := "Image URL must be a valid HTTP/HTTPS URL".

(** The validators declared with the three arrays; [this] is the document.
    They are written for the array (each reads its [length]). *)
Definition options_validator (this : Question) (options : list MCQOption) : bool :=
  if QuestionType_eqb (q_type this) mcq then (2 <=? length options)%nat else true.

Definition items_validator (this : Question) (items : list OrderingItem) : bool :=
  if QuestionType_eqb (q_type this) ordering then (2 <=? length items)%nat else true.

Definition zones_validator (this : Question) (zones : list HotspotZone) : bool :=
  if QuestionType_eqb (q_type this) hotspot then (1 <=? length zones)%nat else true.

(** The [required] functions of [learningObjective], [bloomsLevel] and of an
    option's [feedback] ([this.parent()] is the owning question). *)
Definition summative_required (this : Question) : bool :=
  Purpose_eqb (q_purpose this) summative.

Definition feedback_required (parent : Question) : bool :=
  Purpose_eqb (q_purpose parent) formative.

(** *** Setters: [trim: true]

    Mongoose trims a string path when the value is set, so the document
    that is validated and stored holds trimmed strings. *)

Definition cast_option (o : MCQOption) : MCQOption :=
  mkOption (o_id o) (trim (o_text o)) (o_isCorrect o) (trimOpt (o_feedback o)).

Definition cast_item (i : OrderingItem) : OrderingItem :=
  mkItem (i_id i) (trim (i_text i)) (i_order i).

Definition cast_zone (z : HotspotZone) : HotspotZone :=
  mkZone (z_id z) (z_coordinates z) (trimOpt (z_label z)).

Definition cast (q : Question) : Question :=
  mkQuestion (q_id q) (q_type q) (q_purpose q) (trim (q_stem q))
    (trimOpt (q_topic q)) (trimOpt (q_learningObjective q)) (q_bloomsLevel q)
    (q_createdBy q) (map trim (q_tags q))
    (map cast_option (q_options q)) (map cast_item (q_items q))
    (map cast_zone (q_zones q)) (trimOpt (q_imageUrl q)) (q_imageFile q).

(** *** Field-level validation

    A validation error names the path it is about and says what raised it:
    the built-in [required] validator, a validator of the schema (then with
    the schema's [message]), the validator of an [enum], or the cast of the
    value to the type of the path. *)

Inductive Path :=
| PField (name : string)                            (* [stem] *)
| PElem (array : string) (index : nat) (name : string). (* [options.1.text] *)

Inductive ErrorKind :=
| Required
| UserDefined (message : string)
| NotInEnum
| CastFailed.

Record FieldError := mkError { e_path : Path; e_kind : ErrorKind }.

(** The built-in [required] validator of a string path rejects a missing
    value and the empty string. *)
Definition checkRequired (path : Path) (required : bool) (v : option string)
  : list FieldError :=
  if required && negb (truthyOpt v) then [mkError path Required] else [].

Definition checkRequiredString (path : Path) (v : string) : list FieldError :=
  checkRequired path true (Some v).

(** A validator of the schema runs on a value that is set. *)
Definition checkValidator (path : Path) (ok : bool) (message : string)
  : list FieldError :=
  if ok then [] else [mkError path (UserDefined message)].

Fixpoint validate_options (parent : Question) (index : nat) (l : list MCQOption)
  : list FieldError :=
  match l with
  | [] => []
  | opt :: l' =>
      checkRequiredString (PElem "options" index "text") (o_text opt)
      ++ checkRequired (PElem "options" index "feedback")
           (feedback_required parent) (o_feedback opt)
      ++ validate_options parent (S index) l'
  end.

Fixpoint validate_items (index : nat) (l : list OrderingItem) : list FieldError :=
  match l with
  | [] => []
  | item :: l' =>
      checkRequiredString (PElem "items" index "text") (i_text item)
      ++ validate_items (S index) l'
  end.

(** A validator of the schema is not run on a path that is not set. *)
Definition validate_imageUrl (this : Question) : list FieldError :=
  match q_imageUrl this with
  | None => []
  | Some url => checkValidator (PField "imageUrl") (imageUrl_validator url) M_IMAGE_URL
  end.

(** [bloomsLevel]: [required] for a summative question, and of the [enum]
    when it is set. A path has one error, that of its first validator that
    fails, and [required] comes first. *)
Definition bloomsLevel_enum (level : string) : bool :=
  existsb (String.eqb level) bloomsLevels.

Definition validate_bloomsLevel (this : Question) : list FieldError :=
  if summative_required this && negb (truthyOpt (q_bloomsLevel this))
  then [mkError (PField "bloomsLevel") Required]
  else match q_bloomsLevel this with
       | None => []
       | Some level =>
           if bloomsLevel_enum level then []
           else [mkError (PField "bloomsLevel") NotInEnum]
       end.

(** A string casts to an [ObjectId] when it is made of 24 hexadecimal
    digits (so in Mongoose 7 and later; before, a string of 12 characters
    was cast as well). *)
Definition isHexDigit (c : ascii) : bool :=
  let n := nat_of_ascii c in
  ((48 <=? n) && (n <=? 57) || (65 <=? n) && (n <=? 70) || (97 <=? n) && (n <=? 102))%nat.

Definition isObjectId (v : string) : bool :=
  (String.length v =? 24)%nat && forallb isHexDigit (list_ascii_of_string v).

(** [createdBy]: [required], of type [ObjectId]. *)
Definition validate_createdBy (this : Question) : list FieldError :=
  match q_createdBy this with
  | None => [mkError (PField "createdBy") Required]
  | Some v => if isObjectId v then [] else [mkError (PField "createdBy") CastFailed]
  end.

Definition validate (this : Question) : list FieldError :=
  checkRequiredString (PField "stem") (q_stem this)
  ++ checkRequired (PField "learningObjective") (summative_required this)
       (q_learningObjective this)
  ++ validate_bloomsLevel this
  ++ validate_createdBy this
  ++ validate_options this 0 (q_options this)
  ++ validate_items 0 (q_items this)
  ++ validate_imageUrl this.

(** *** The [pre('save')] hook *)

Definition H_CORRECT := "MCQ questions must have exactly one correct option".
Definition H_FEEDBACK := "Formative MCQ questions must have feedback for all options".
Definition H_ORDER := "Ordering items must have sequential order numbers starting from 0".

(** [Array.prototype.sort] with the comparator [(a, b) => a - b]: an
    element goes before the first one it does not compare greater than. *)
Fixpoint insertBy (cmp : Z -> Z -> Z) (a : Z) (l : list Z) : list Z :=
  match l with
  | [] => [a]
  | b :: l' => if (cmp a b <=? 0)%Z then a :: l else b :: insertBy cmp a l'
  end.

Definition sortBy (cmp : Z -> Z -> Z) (l : list Z) : list Z :=
  fold_right (insertBy cmp) [] l.

(** The comparator of the hook, [(a, b) => a - b]. *)
Definition byDifference (a b : Z) : Z := (a - b)%Z.

(** [for (let i = 0; i < orders.length; i++) if (orders[i] !== i) return ...],
    from index [i] on. *)
Fixpoint checkSequential (i : Z) (orders : list Z) : option string :=
  match orders with
  | [] => None
  | o :: rest => if (o =? i)%Z then checkSequential (i + 1) rest else Some H_ORDER
  end.

(** [None] is [next()], [Some msg] is [next(new Error(msg))]. *)
Definition pre_save_mcq (this : Question) : option string :=
  if QuestionType_eqb (q_type this) mcq then
    let correctOptions := filter o_isCorrect (q_options this) in
    if negb (length correctOptions =? 1)%nat then Some H_CORRECT
    else if Purpose_eqb (q_purpose this) formative then
      let missingFeedback :=
        existsb (fun opt => negb (truthyOpt (o_feedback opt))) (q_options this) in
      if missingFeedback then Some H_FEEDBACK else None
    else None
  else None.

Definition pre_save_ordering (this : Question) : option string :=
  if QuestionType_eqb (q_type this) ordering then
    let orders := sortBy byDifference (map i_order (q_items this)) in
    checkSequential 0 orders
  else None.

Definition pre_save (this : Question) : option string :=
  match pre_save_mcq this with
  | Some e => Some e
  | None => pre_save_ordering this
  end.

(** *** Persisting a candidate document

    The values are set (and trimmed), the field-level validation runs, and
    only a document without validation errors reaches the hook. *)

Inductive SaveResult :=
| Saved
| ValidationFailed (errs : list FieldError)
| HookFailed (message : string).

Definition save (q : Question) : SaveResult :=
  let doc := cast q in
  match validate doc with
  | [] => match pre_save doc with
          | None => Saved
          | Some message => HookFailed message
          end
  | errs => ValidationFailed errs
  end.


(** ** The editor *)

(** *** [MainCanvas]: [duplicateQuestion] *)

(** The object literal [{ ...question, id: generateId(), stem: `${question.stem} (Copy)` }]. *)
Definition duplicated (question : Question) : Gen Question :=
  newId <- generateId ;;
  ret (set_stem (q_stem question ++ " (Copy)")%string (set_id newId question)).

Definition duplicateQuestion (question : Question) (st : AssessmentState)
  : Gen AssessmentState :=
  duplicatedQuestion <- duplicated question ;;
  ret (mkState (questions st ++ [duplicatedQuestion])
               (Some (q_id duplicatedQuestion))).

(** *** [OrderingQuestion]: the handlers

    A handler that calls [onChange] yields the question it passes; one that
    does not yields [None] and the question stays as it is. An element of an
    array that is [undefined] is [None]. *)

(** [l.map((item, index) => f(item, index))], counting from [index]. *)
Fixpoint mapIndexed {A B} (f : A -> nat -> B) (index : nat) (l : list A) : list B :=
  match l with
  | [] => []
  | a :: l' => f a index :: mapIndexed f (S index) l'
  end.

(** [.map((item, index) => ({ ...item, order: index }))] *)
Definition renumber (l : list OrderingItem) : list OrderingItem :=
  mapIndexed (fun item index => mkItem (i_id item) (i_text item) (Z.of_nat index)) 0 l.

(** The object [{ ...item, order: index }] made of an element of an array:
    of an item, the item with the order [index]; of [undefined], whose
    spread has no property, an object with an [order] and nothing else, which
    is no item of the document model. *)
Inductive Reordered :=
| AnItem (item : OrderingItem)
| OrderOnly (order : Z).

Definition orderOf (r : Reordered) : Z :=
  match r with
  | AnItem item => i_order item
  | OrderOnly order => order
  end.

(** [.map((item, index) => ({ ...item, order: index }))] on an array that
    may hold [undefined]. *)
Definition renumberMoved (l : list (option OrderingItem)) : list Reordered :=
  mapIndexed (fun element index =>
                match element with
                | Some item => AnItem (mkItem (i_id item) (i_text item) (Z.of_nat index))
                | None => OrderOnly (Z.of_nat index)
                end) 0 l.

(** The objects as items, when each of them is one. *)
Fixpoint asItems (l : list Reordered) : option (list OrderingItem) :=
  match l with
  | [] => Some []
  | AnItem item :: l' => option_map (cons item) (asItems l')
  | OrderOnly _ :: _ => None
  end.

(** [l.findIndex(p)]: the first index whose element satisfies [p], or -1. *)
Fixpoint findIndexFrom {A} (p : A -> bool) (index : Z) (l : list A) : Z :=
  match l with
  | [] => (-1)%Z
  | a :: l' => if p a then index else findIndexFrom p (index + 1)%Z l'
  end.

Definition findIndex {A} (p : A -> bool) (l : list A) : Z := findIndexFrom p 0 l.

(** The position [Array.prototype.splice] starts at in an array of [len]
    elements: a negative [start] counts from the end, and the result is
    clamped to [0 .. len]. *)
Definition spliceStart (len : nat) (start : Z) : nat :=
  if (start <? 0)%Z then Z.to_nat (Z.max (Z.of_nat len + start) 0)
  else Nat.min (Z.to_nat start) len.

(** [arrayMove] of [@dnd-kit/sortable]:
    [newArray.splice(to < 0 ? newArray.length + to : to, 0, newArray.splice(from, 1)[0])]
    on a copy [newArray] of the array. The arguments are evaluated from left
    to right, so the position is computed from the length before the
    element at [from] is taken out, and clamped by the outer [splice] to the
    length after. The inner [splice] takes out the element at [from], if
    there is one, and the outer one puts in what the inner one yields at
    index 0: that element, or [undefined] when nothing was taken out, and
    then the array is one element longer. *)
Definition arrayMove {A} (array : list A) (from to : Z) : list (option A) :=
  let position := (if (to <? 0)%Z then Z.of_nat (length array) + to else to)%Z in
  let f := spliceStart (length array) from in
  let removed := nth_error array f in
  let newArray := firstn f array ++ skipn (S f) array in
  let t := spliceStart (length newArray) position in
  map Some (firstn t newArray) ++ removed :: map Some (skipn t newArray).

Definition updateStem (question : Question) (stem : string) : option Question :=
  Some (set_stem stem question).

Definition updateItem (question : Question) (itemId text : string) : option Question :=
  let updatedItems :=
    map (fun item => if String.eqb (i_id item) itemId
                     then mkItem (i_id item) text (i_order item) else item)
        (q_items question) in
  Some (set_items updatedItems question).

Definition addItem (question : Question) : Gen (option Question) :=
  newId <- generateId ;;
  let newItem := mkItem newId "" (Z.of_nat (length (q_items question))) in
  ret (Some (set_items (q_items question ++ [newItem]) question)).

Definition removeItem (question : Question) (itemId : string) : option Question :=
  if (2 <? length (q_items question))%nat then
    let updatedItems :=
      renumber (filter (fun item => negb (String.eqb (i_id item) itemId))
                       (q_items question)) in
    Some (set_items updatedItems question)
  else None.

(** What [handleDragEnd] comes to: no call of [onChange], a call with a
    question, or a call with an object that is the question but for its
    [items], which are not all items of the document model. *)
Inductive Drop :=
| NotMoved
| Dropped (question : Question)
| DroppedUndefined (reorderedItems : list Reordered).

(** [event] is [{ active: { id: active }, over: { id: over } }]. *)
Definition handleDragEnd (question : Question) (active over : string) : Drop :=
  if negb (String.eqb active over) then
    let oldIndex := findIndex (fun item => String.eqb (i_id item) active)
                              (q_items question) in
    let newIndex := findIndex (fun item => String.eqb (i_id item) over)
                              (q_items question) in
    let reorderedItems :=
      renumberMoved (arrayMove (q_items question) oldIndex newIndex) in
    match asItems reorderedItems with
    | Some items => Dropped (set_items items question)
    | None => DroppedUndefined reorderedItems
    end
  else NotMoved.

(** *** [QuestionEditor]: purpose, metadata and the suggestions *)

Definition updatePurpose (question : Question) (purpose : Purpose) : option Question :=
  Some (set_purpose purpose question).

(** The three uses of [updateMetadata(field, value)]: [value] is the
    [e.target.value] of an input or of the select of the Bloom's level, a
    string, which is empty for the select's choice "Select level". *)
Inductive Metadata :=
| Topic (value : string)
| LearningObjective (value : string)
| BloomsLevelOf (value : string).

Definition updateMetadata (question : Question) (m : Metadata) : option Question :=
  Some match m with
       | Topic value => set_topic (Some value) question
       | LearningObjective value => set_learningObjective (Some value) question
       | BloomsLevelOf value => set_bloomsLevel (Some value) question
       end.

(** [existing?.id || generateId()] *)
Definition idOr (existing : option string) : Gen string :=
  match existing with
  | Some i => if truthy i then ret i else generateId
  | None => generateId
  end.

(** The payloads of [generateAISuggestions(topic, question)]. *)
Definition suggestedOptions (topic : string) (question : Question)
  : Gen (list MCQOption) :=
  let old k := option_map o_id (nth_error (q_options question) k) in
  a <- idOr (old 0) ;; b <- idOr (old 1) ;; c <- idOr (old 2) ;; d <- idOr (old 3) ;;
  ret [ mkOption a (topic ++ " is a fundamental concept") true
          (Some "Correct! This is the right answer.");
        mkOption b (topic ++ " is obsolete technology") false
          (Some "Incorrect. ${topic} is still widely used.");
        mkOption c (topic ++ " only works on Windows") false
          (Some "Incorrect. ${topic} is cross-platform.");
        mkOption d (topic ++ " requires no programming") false
          (Some "Incorrect. ${topic} requires programming knowledge.") ].

Definition suggestedItems (topic : string) (question : Question)
  : Gen (list OrderingItem) :=
  let old k := option_map i_id (nth_error (q_items question) k) in
  a <- idOr (old 0) ;; b <- idOr (old 1) ;; c <- idOr (old 2) ;; d <- idOr (old 3) ;;
  ret [ mkItem a ("Initialize " ++ topic ++ " environment") 0;
        mkItem b ("Configure " ++ topic ++ " settings") 1;
        mkItem c ("Implement " ++ topic ++ " functionality") 2;
        mkItem d ("Test " ++ topic ++ " implementation") 3 ].

Definition suggestedZones : Gen (list HotspotZone) :=
  a <- generateId ;; b <- generateId ;;
  ret [ mkZone a [mkPoint 100 100; mkPoint 200 100; mkPoint 200 200; mkPoint 100 200]
          (Some "Main component");
        mkZone b [mkPoint 300 150; mkPoint 400 150; mkPoint 400 250; mkPoint 300 250]
          (Some "Secondary component") ].

Definition handleAISuggest (question : Question) : Gen (option Question) :=
  let topic := match q_topic question with
               | Some t => if truthy t then t else "the topic"
               | None => "the topic"
               end in
  let stem := ("Explain the concept of " ++ topic
               ++ " and its importance in modern applications.")%string in
  let updatedQuestion := set_topic (Some topic) (set_stem stem question) in
  match q_type question with
  | mcq =>
      options <- suggestedOptions topic question ;;
      ret (Some (set_options options updatedQuestion))
  | ordering =>
      items <- suggestedItems topic question ;;
      ret (Some (set_items items updatedQuestion))
  | hotspot =>
      zones <- suggestedZones ;;
      ret (Some (set_zones zones updatedQuestion))
  end.

(** What the author can do to an ordering question in its editor, short of
    changing its type. *)
Inductive OrderingAction :=
| UpdateStem (stem : string)
| UpdateItem (itemId text : string)
| AddItem
| RemoveItem (itemId : string)
| DragEnd (active over : string)
| UpdatePurpose (purpose : Purpose)
| UpdateMetadata (m : Metadata)
| AISuggest.

(** The question the handler of the action passes to [onChange], if it
    calls it. A drag is the drag of an item on the screen: it ends on a
    question that has items, where [handleDragEnd] moves an item that is
    there; on a question without items there is no drag to end. *)
Definition handle (a : OrderingAction) (question : Question) : Gen (option Question) :=
  match a with
  | UpdateStem stem => ret (updateStem question stem)
  | UpdateItem itemId text => ret (updateItem question itemId text)
  | AddItem => addItem question
  | RemoveItem itemId => ret (removeItem question itemId)
  | DragEnd active over =>
      ret (match handleDragEnd question active over with
           | Dropped question' => Some question'
           | NotMoved | DroppedUndefined _ => None
           end)
  | UpdatePurpose purpose => ret (updatePurpose question purpose)
  | UpdateMetadata m => ret (updateMetadata question m)
  | AISuggest => handleAISuggest question
  end.

(** The question the editor holds after the action. *)
Definition perform (a : OrderingAction) (question : Question) : Gen Question :=
  changed <- handle a question ;;
  ret (match changed with Some question' => question' | None => question end).

Fixpoint performAll (l : list OrderingAction) (question : Question) : Gen Question :=
  match l with
  | [] => ret question
  | a :: l' => question' <- perform a question ;; performAll l' question'
  end.

(** *** [HotspotQuestion]: drawing a zone *)

Record Drawing := mkDrawing { isDrawing : bool; currentZone : list Point }.

(** A click on the image at [(x, y)]. *)
Definition handleImageClick (d : Drawing) (x y : Z) : Drawing :=
  if isDrawing d then mkDrawing (isDrawing d) (currentZone d ++ [mkPoint x y])
  else mkDrawing true [mkPoint x y].

Definition decimal (n : nat) : string := NilEmpty.string_of_uint (Nat.to_uint n).

Definition finishZone (question : Question) (d : Drawing)
  : Gen (option Question * Drawing) :=
  changed <-
    (if (3 <=? length (currentZone d))%nat then
       newId <- generateId ;;
       let newZone :=
         mkZone newId (currentZone d)
                (Some ("Zone " ++ decimal (length (q_zones question) + 1))%string) in
       ret (Some (set_zones (q_zones question ++ [newZone]) question))
     else ret None) ;;
  ret (changed, mkDrawing false []).

(** ** The rest of the editor *)

Definition set_createdBy (v : option string) (q : Question) : Question :=
  mkQuestion (q_id q) (q_type q) (q_purpose q) (q_stem q) (q_topic q)
    (q_learningObjective q) (q_bloomsLevel q) v (q_tags q)
    (q_options q) (q_items q) (q_zones q) (q_imageUrl q) (q_imageFile q).

Definition set_imageUrl (v : option string) (q : Question) : Question :=
  mkQuestion (q_id q) (q_type q) (q_purpose q) (q_stem q) (q_topic q)
    (q_learningObjective q) (q_bloomsLevel q) (q_createdBy q) (q_tags q)
    (q_options q) (q_items q) (q_zones q) v (q_imageFile q).

Definition set_imageFile (v : option string) (q : Question) : Question :=
  mkQuestion (q_id q) (q_type q) (q_purpose q) (q_stem q) (q_topic q)
    (q_learningObjective q) (q_bloomsLevel q) (q_createdBy q) (q_tags q)
    (q_options q) (q_items q) (q_zones q) (q_imageUrl q) v.

(** *** [MainCanvas]: the collection of questions

    [onQuestionsChange] and [onCurrentQuestionChange] of [App] replace the
    field [questions], resp. [currentQuestionId], of the state. *)

(** The state [App] starts with. *)
Definition initialState : AssessmentState := mkState [] None.

Definition addQuestion (type : QuestionType) (st : AssessmentState)
  : Gen AssessmentState :=
  newQuestion <- createEmptyQuestion type ;;
  ret (mkState (questions st ++ [newQuestion]) (Some (q_id newQuestion))).

Definition updateQuestion (updatedQuestion : Question) (st : AssessmentState)
  : AssessmentState :=
  let updatedQuestions :=
    map (fun q => if String.eqb (q_id q) (q_id updatedQuestion)
                  then updatedQuestion else q)
        (questions st) in
  mkState updatedQuestions (currentQuestionId st).

(** [currentQuestionId === questionId], where [currentQuestionId] may be
    [undefined]. *)
Definition isCurrent (current : option string) (questionId : string) : bool :=
  match current with
  | Some c => String.eqb c questionId
  | None => false
  end.

Definition deleteQuestion (questionId : string) (st : AssessmentState)
  : AssessmentState :=
  let updatedQuestions :=
    filter (fun q => negb (String.eqb (q_id q) questionId)) (questions st) in
  mkState updatedQuestions
    (if isCurrent (currentQuestionId st) questionId
     then match updatedQuestions with
          | q :: _ => Some (q_id q)
          | [] => None
          end
     else currentQuestionId st).

(** [questions.find(q => q.id === questionId)] *)
Definition findQuestion (questionId : option string) (l : list Question)
  : option Question :=
  find (fun q => isCurrent questionId (q_id q)) l.

Definition currentQuestion (st : AssessmentState) : option Question :=
  findQuestion (currentQuestionId st) (questions st).

(** [saveQuestion] shows an alert, logs the current question and adds an
    MCQ question; the result is the text of the alert and the state. *)
Definition saveQuestion (st : AssessmentState) : Gen (string * AssessmentState) :=
  st' <- addQuestion mcq st ;;
  ret ("Question saved successfully!", st').

(** What happens on the canvas. A card of the side bar is the card of the
    question at an index of the collection; the editor, with its buttons,
    is there when there is a current question, and its Save button is
    disabled when the validation fails. The editor hands every change, a
    question, to [updateQuestion].

    One change comes later than the action of the author that causes it:
    [handleFileUpload] of the hotspot editor hands the question with the
    image to [onChange] in the [onload] of a [FileReader]. That [onChange]
    is the [updateQuestion] of the render in which the upload began, which
    maps over the collection [questions] of that render, [captured] below,
    whatever the collection has become since, and leaves the selection as
    it is by then. *)
Inductive CanvasEvent :=
| ClickAdd (type : QuestionType)
| ClickCard (index : nat)
| ClickDuplicate (index : nat)
| ClickDelete (index : nat)
| EditorChange (updatedQuestion : Question)
| EditorDelete
| EditorSave
| FileLoaded (captured : list Question) (updatedQuestion : Question).

Definition onCanvas (e : CanvasEvent) (st : AssessmentState) : Gen AssessmentState :=
  match e with
  | ClickAdd type => addQuestion type st
  | ClickCard index =>
      match nth_error (questions st) index with
      | Some question => ret (mkState (questions st) (Some (q_id question)))
      | None => ret st
      end
  | ClickDuplicate index =>
      match nth_error (questions st) index with
      | Some question => duplicateQuestion question st
      | None => ret st
      end
  | ClickDelete index =>
      match nth_error (questions st) index with
      | Some question => ret (deleteQuestion (q_id question) st)
      | None => ret st
      end
  | EditorChange updatedQuestion =>
      match currentQuestion st with
      | Some _ => ret (updateQuestion updatedQuestion st)
      | None => ret st
      end
  | EditorDelete =>
      match currentQuestion st with
      | Some question => ret (deleteQuestion (q_id question) st)
      | None => ret st
      end
  | EditorSave =>
      match currentQuestion st with
      | Some question =>
          if isValid (validateQuestion question)
          then saved <- saveQuestion st ;; ret (snd saved)
          else ret st
      | None => ret st
      end
  | FileLoaded captured updatedQuestion =>
      ret (updateQuestion updatedQuestion (mkState captured (currentQuestionId st)))
  end.

Fixpoint onCanvasAll (l : list CanvasEvent) (st : AssessmentState)
  : Gen AssessmentState :=
  match l with
  | [] => ret st
  | e :: l' => st' <- onCanvas e st ;; onCanvasAll l' st'
  end.

(** *** [QuestionEditor]: changing the type *)

Definition updateQuestionType (question : Question) (type : QuestionType)
  : option Question :=
  let baseData :=
    mkQuestion (q_id question) type (q_purpose question) (q_stem question)
      (q_topic question) (q_learningObjective question) (q_bloomsLevel question)
      None [] [] [] [] None None in
  match type with
  | mcq =>
      Some (set_options
              [ mkOption "opt1" "" false None; mkOption "opt2" "" true None;
                mkOption "opt3" "" false None; mkOption "opt4" "" false None ]
              baseData)
  | ordering =>
      Some (set_items
              [ mkItem "item1" "" 0; mkItem "item2" "" 1; mkItem "item3" "" 2 ]
              baseData)
  | hotspot => Some (set_imageUrl (Some "") baseData)
  end.

(** *** [MCQQuestion]: the handlers *)

(** The field and the value of [updateOption(optionId, field, value)]. *)
Inductive OptionField :=
| TextField (value : string)
| IsCorrectField (value : bool)
| FeedbackField (value : string).

(** [{ ...opt, [field]: value }] *)
Definition withField (opt : MCQOption) (field : OptionField) : MCQOption :=
  match field with
  | TextField value => mkOption (o_id opt) value (o_isCorrect opt) (o_feedback opt)
  | IsCorrectField value => mkOption (o_id opt) (o_text opt) value (o_feedback opt)
  | FeedbackField value => mkOption (o_id opt) (o_text opt) (o_isCorrect opt) (Some value)
  end.

Definition updateOption (question : Question) (optionId : string) (field : OptionField)
  : option Question :=
  let updatedOptions :=
    map (fun opt => if String.eqb (o_id opt) optionId then withField opt field else opt)
        (q_options question) in
  Some (set_options updatedOptions question).

Definition addOption (question : Question) : Gen (option Question) :=
  newId <- generateId ;;
  let newOption := mkOption newId "" false (Some "") in
  ret (Some (set_options (q_options question ++ [newOption]) question)).

Definition removeOption (question : Question) (optionId : string) : option Question :=
  if (2 <? length (q_options question))%nat then
    let updatedOptions :=
      filter (fun opt => negb (String.eqb (o_id opt) optionId)) (q_options question) in
    Some (set_options updatedOptions question)
  else None.

Definition setCorrectOption (question : Question) (optionId : string) : option Question :=
  let updatedOptions :=
    map (fun opt => mkOption (o_id opt) (o_text opt) (String.eqb (o_id opt) optionId)
                             (o_feedback opt))
        (q_options question) in
  Some (set_options updatedOptions question).

(** What the author can do to an MCQ question in its editor, short of
    changing its type: the inputs of an option call [updateOption] with its
    text or its feedback, the radio button calls [setCorrectOption]. *)
Inductive McqAction :=
| McqStem (stem : string)
| McqText (optionId value : string)
| McqFeedback (optionId value : string)
| McqAdd
| McqRemove (optionId : string)
| McqCorrect (optionId : string)
| McqPurpose (purpose : Purpose)
| McqMetadata (m : Metadata)
| McqSuggest.

Definition handleMcq (a : McqAction) (question : Question) : Gen (option Question) :=
  match a with
  | McqStem stem => ret (updateStem question stem)
  | McqText optionId value => ret (updateOption question optionId (TextField value))
  | McqFeedback optionId value =>
      ret (updateOption question optionId (FeedbackField value))
  | McqAdd => addOption question
  | McqRemove optionId => ret (removeOption question optionId)
  | McqCorrect optionId => ret (setCorrectOption question optionId)
  | McqPurpose purpose => ret (updatePurpose question purpose)
  | McqMetadata m => ret (updateMetadata question m)
  | McqSuggest => handleAISuggest question
  end.

Definition performMcq (a : McqAction) (question : Question) : Gen Question :=
  changed <- handleMcq a question ;;
  ret (match changed with Some question' => question' | None => question end).

Fixpoint performAllMcq (l : list McqAction) (question : Question) : Gen Question :=
  match l with
  | [] => ret question
  | a :: l' => question' <- performMcq a question ;; performAllMcq l' question'
  end.

(** *** [HotspotQuestion]: the other handlers *)

Definition updateImageUrl (question : Question) (imageUrl : string) : option Question :=
  Some (set_imageFile None (set_imageUrl (Some imageUrl) question)).

Definition clearImage (question : Question) : option Question :=
  Some (set_imageFile None (set_imageUrl None question)).

(** A [File]: its name, its MIME type and its size in bytes. *)
Record File := mkFile { file_name : string; file_type : string; file_size : N }.

(** What [handleFileUpload] comes to: nothing without a file, an alert, or
    [onChange] with the question that has the image. *)
Inductive Upload :=
| NoFile
| Alert (message : string)
| Loaded (question : Question).

(** [files] is [e.target.files], [dataUrl] the result the [FileReader]
    hands to [onload] for the file. *)
Definition handleFileUpload (question : Question) (files : list File) (dataUrl : string)
  : Upload :=
  match files with
  | [] => NoFile
  | file :: _ =>
      if negb (String.prefix "image/" (file_type file))
      then Alert "Please select an image file"
      else if (5 * 1024 * 1024 <? file_size file)%N
      then Alert "Image file must be less than 5MB"
      else Loaded (set_imageFile (Some (file_name file))
                     (set_imageUrl (Some dataUrl) question))
  end.

Definition cancelDrawing (d : Drawing) : Drawing := mkDrawing false [].

Definition removeZone (question : Question) (zoneId : string) : option Question :=
  let updatedZones :=
    filter (fun zone => negb (String.eqb (z_id zone) zoneId)) (q_zones question) in
  Some (set_zones updatedZones question).

Definition updateZoneLabel (question : Question) (zoneId label : string)
  : option Question :=
  let updatedZones :=
    map (fun zone => if String.eqb (z_id zone) zoneId
                     then mkZone (z_id zone) (z_coordinates zone) (Some label)
                     else zone)
        (q_zones question) in
  Some (set_zones updatedZones question).

(** What the author can do to a hotspot question in its editor, short of
    changing its type. The editor holds the question and the drawing. *)
Inductive HotspotAction :=
| HsStem (stem : string)
| HsImageUrl (imageUrl : string)
| HsUpload (files : list File) (dataUrl : string)
| HsClearImage
| HsClick (x y : Z)
| HsFinish
| HsCancel
| HsRemoveZone (zoneId : string)
| HsLabel (zoneId label : string)
| HsPurpose (purpose : Purpose)
| HsMetadata (m : Metadata)
| HsSuggest.

Definition orSame (changed : option Question) (question : Question) : Question :=
  match changed with Some question' => question' | None => question end.

Definition performHotspot (a : HotspotAction) (s : Question * Drawing)
  : Gen (Question * Drawing) :=
  let (question, d) := s in
  match a with
  | HsStem stem => ret (orSame (updateStem question stem) question, d)
  | HsImageUrl imageUrl => ret (orSame (updateImageUrl question imageUrl) question, d)
  | HsUpload files dataUrl =>
      ret (match handleFileUpload question files dataUrl with
           | Loaded question' => question'
           | _ => question
           end, d)
  | HsClearImage => ret (orSame (clearImage question) question, d)
  | HsClick x y => ret (question, handleImageClick d x y)
  | HsFinish =>
      r <- finishZone question d ;;
      ret (orSame (fst r) question, snd r)
  | HsCancel => ret (question, cancelDrawing d)
  | HsRemoveZone zoneId => ret (orSame (removeZone question zoneId) question, d)
  | HsLabel zoneId label =>
      ret (orSame (updateZoneLabel question zoneId label) question, d)
  | HsPurpose purpose => ret (orSame (updatePurpose question purpose) question, d)
  | HsMetadata m => ret (orSame (updateMetadata question m) question, d)
  | HsSuggest =>
      changed <- handleAISuggest question ;;
      ret (orSame changed question, d)
  end.

Fixpoint performAllHotspot (l : list HotspotAction) (s : Question * Drawing)
  : Gen (Question * Drawing) :=
  match l with
  | [] => ret s
  | a :: l' => s' <- performHotspot a s ;; performAllHotspot l' s'
  end.

(** * What the properties are stated with *)

(** ** Notions *)

Definition cond (b : bool) (msg : string) : list string := if b then [msg] else [].

Definition isSummative (q : Question) : bool := Purpose_eqb (q_purpose q) summative.
Definition isFormative (q : Question) : bool := Purpose_eqb (q_purpose q) formative.

(** The errors of the type-specific part. *)
Definition typeErrors (q : Question) : list string :=
  match q_type q with
  | mcq =>
      cond (negb (existsb o_isCorrect (q_options q))) E_CORRECT
      ++ cond (existsb (fun opt => blank (o_text opt)) (q_options q)) E_OPTION_TEXT
      ++ cond (isFormative q
               && existsb (fun opt => blankOpt (o_feedback opt)) (q_options q))
              E_FEEDBACK
  | ordering =>
      cond (existsb (fun item => blank (i_text item)) (q_items q)) E_ITEM_TEXT
      ++ cond (length (q_items q) <? 2)%nat E_ITEMS
  | hotspot => cond (length (q_zones q) =? 0)%nat E_ZONE
  end.

(** What a statement appends on the question [question]. *)
Definition emitted (s : Stmt) (question : Question) : list string :=
  f_errors (s (mkFrame question [])).

(** The statement leaves the question as it is and what is in [errors]
    already in place, and appends what it emits. *)
Definition Appends (s : Stmt) : Prop :=
  forall f, s f = mkFrame (f_question f) (f_errors f ++ emitted s (f_question f)).

(** What the schema asks of one option and of one item. *)
Definition optionOk (parent : Question) (opt : MCQOption) : bool :=
  truthy (o_text opt) && (negb (feedback_required parent) || truthyOpt (o_feedback opt)).

Definition itemOk (item : OrderingItem) : bool := truthy (i_text item).

Definition imageUrlOk (this : Question) : bool :=
  match q_imageUrl this with
  | None => true
  | Some url => imageUrl_validator url
  end.

(** The Bloom's level, when there is one, is a value of the [enum]. *)
Definition bloomsOk (this : Question) : bool :=
  match q_bloomsLevel this with
  | None => true
  | Some level => bloomsLevel_enum level
  end.

(** The author is there and casts to an [ObjectId]. *)
Definition createdByOk (this : Question) : bool :=
  match q_createdBy this with
  | None => false
  | Some v => isObjectId v
  end.

(** The field-level rules that are run, as one condition on the document. *)
Record FieldsOk (this : Question) : Prop := mkFieldsOk {
  ok_stem : truthy (q_stem this) = true;
  ok_objective : negb (summative_required this) || truthyOpt (q_learningObjective this) = true;
  ok_blooms : negb (summative_required this) || truthyOpt (q_bloomsLevel this) = true;
  ok_blooms_enum : bloomsOk this = true;
  ok_createdBy : createdByOk this = true;
  ok_options : forallb (optionOk this) (q_options this) = true;
  ok_items : forallb itemOk (q_items this) = true;
  ok_imageUrl : imageUrlOk this = true
}.

(** [i, i+1, ..., i+n-1] *)
Fixpoint upFrom (i : Z) (n : nat) : list Z :=
  match n with
  | O => []
  | S n' => i :: upFrom (i + 1) n'
  end.

(** [0, 1, ..., n-1] *)
Definition indices (n : nat) : list Z := upFrom 0 n.

(** The same question with the feedback of its options left out. *)
Definition withoutFeedback (opt : MCQOption) : MCQOption :=
  mkOption (o_id opt) (o_text opt) (o_isCorrect opt) None.

Definition correctCount (q : Question) : nat := length (filter o_isCorrect (q_options q)).

Definition orderValues (q : Question) : list Z := map i_order (q_items q).

(** The sorted array [orders] of the hook. *)
Definition sortedOrders (q : Question) : list Z := sortBy byDifference (orderValues q).

(** Two option lists that differ at most in the feedback of their options. *)
Definition sameButFeedback (l l' : list MCQOption) : Prop :=
  map withoutFeedback l = map withoutFeedback l'.

(** The question with the feedback of every option left out. *)
Definition eraseFeedback (q : Question) : Question :=
  set_options (map withoutFeedback (q_options q)) q.

(** The errors after the stem check. *)
Definition restErrors (q : Question) : list string :=
  cond (isSummative q && blankOpt (q_learningObjective q)) E_OBJECTIVE
  ++ cond (isSummative q && negb (truthyOpt (q_bloomsLevel q))) E_BLOOMS
  ++ typeErrors q.

Definition notStemError (e : string) : bool := negb (String.eqb e E_STEM).

(** The number of sub-items in the variant payload. *)
Definition stubCount (q : Question) : nat :=
  match q_type q with
  | mcq => length (q_options q)
  | ordering => length (q_items q)
  | hotspot => length (q_zones q)
  end.

(** A string of the form [http://...] or [https://...] with, after the two
    slashes, at least one code unit, the first of which is not a line
    terminator. *)
Definition UrlShape (url : string) : Prop :=
  exists scheme c rest,
    (scheme = "http://" \/ scheme = "https://")
    /\ url = (scheme ++ String c rest)%string
    /\ isLineTerminator c = false.

(** The value of [imageUrl] is absent, empty or of the form of the pattern. *)
Definition AcceptableUrl (d : Question) : Prop :=
  q_imageUrl d = None
  \/ q_imageUrl d = Some ""
  \/ exists url, q_imageUrl d = Some url /\ UrlShape url.

(** A call [validateQuestion(question)], as the caller sees it: the result,
    and the question it holds when the call has returned. *)
Definition callValidateQuestion (question : Question) : ValidationResult * Question :=
  let frame := validateBody (mkFrame question []) in
  (mkResult (length (f_errors frame) =? 0)%nat (f_errors frame), f_question frame).

(** The messages, in the order of the checks. *)
Definition checkOrder : list string :=
  [ E_STEM; E_OBJECTIVE; E_BLOOMS; E_CORRECT; E_OPTION_TEXT; E_FEEDBACK;
    E_ITEM_TEXT; E_ITEMS; E_ZONE ].

(** [l] is [m] with some elements left out. *)
Fixpoint subsequence (l m : list string) : bool :=
  match l, m with
  | [], _ => true
  | _ :: _, [] => false
  | a :: l', b :: m' => if String.eqb a b then subsequence l' m' else subsequence l m'
  end.

(** The items carry the order values 0 .. n-1, in storage order. *)
Definition Sequential (q : Question) : Prop :=
  orderValues q = indices (length (q_items q)).

(** ** Sample documents and sessions *)

(** The example request body of [demoSchema.js]. *)
Definition demoMcq : Question :=
  mkQuestion "q-demo" mcq formative
    "Which of the following is a primary color in the additive (RGB) color model?"
    (Some "Color Theory") None None (Some "65ab4f2e9c1234567890abcd")
    ["design"; "basics"]
    [ mkOption "o1" "Red" true
        (Some "Correct! Red, Green, and Blue are the primary colors of light.");
      mkOption "o2" "Yellow" false
        (Some "Incorrect. Yellow is a primary color in subtractive (RYB) models, but not RGB.");
      mkOption "o3" "Black" false
        (Some "Incorrect. Black is the absence of light.") ]
    [] [] None None.

Definition demoMcqNoFeedback : Question :=
  set_options (map withoutFeedback (q_options demoMcq)) demoMcq.

(** The same question with a second option marked correct. *)
Definition demoMcqTwoCorrect : Question :=
  set_options
    [ mkOption "o1" "Red" true (Some "Correct!");
      mkOption "o2" "Green" true (Some "Correct as well.");
      mkOption "o3" "Black" false (Some "Incorrect.") ]
    demoMcq.

(** An ordering question whose items carry the orders [orders], in storage
    order. *)
Definition itemsOf (orders : list Z) : list OrderingItem :=
  map (fun o => mkItem "item" "step" o) orders.

Definition demoOrdering (stem : string) (orders : list Z) : Question :=
  mkQuestion "q-order" ordering formative stem None None None
    (Some "65ab4f2e9c1234567890abcd") [] [] (itemsOf orders) [] None None.

(** A generator for the examples: the [k]-th identifier is [id<k>]. *)
Definition demoGen : IdGen := mkGen (fun k => ("id" ++ decimal k)%string) 0.

(** [demoMcq] with its first option only. *)
Definition demoOneOption : Question :=
  set_options (firstn 1 (q_options demoMcq)) demoMcq.

(** [demoMcq] made summative, without learning objective or Bloom's level. *)
Definition demoSummative : Question := set_purpose summative demoMcq.

(** A hotspot question as [createEmptyQuestion] makes it, and a drawing of
    two points. *)
Definition demoHotspot : Question := fst (createEmptyQuestion hotspot demoGen).

Definition twoPoints : Drawing :=
  handleImageClick (handleImageClick (mkDrawing false []) 10 10) 50 10.

Definition threePoints : Drawing := handleImageClick twoPoints 50 40.

(** A question with a blank stem and one zone, whose identifier is the one
    [generateId] yields when [Math.random()] returns 0.5, and a generator
    that yields that identifier again. *)
Definition demoUntitled : Question :=
  mkQuestion "i" hotspot formative "" None None None None [] [] []
    [ mkZone "z1" [mkPoint 0 0; mkPoint 10 0; mkPoint 10 10] (Some "Zone 1") ]
    (Some "") None.

Definition repeatingGen : IdGen := mkGen (fun _ => "i") 0.

(** A hotspot question with one zone and the image URL [url]. *)
Definition demoImage (url : option string) : Question :=
  mkQuestion "q-image" hotspot formative "Where is the valve?" None None None
    (Some "65ab4f2e9c1234567890abcd") [] [] []
    [ mkZone "z1" [mkPoint 0 0; mkPoint 10 0; mkPoint 10 10] None ] url None.

(** A hotspot question with a stem, an author and an image URL, and no
    zone. *)
Definition demoZoneless : Question :=
  set_zones [] (demoImage (Some "https://example.org/valve.png")).

(** An ordering question without items. *)
Definition demoNoItems : Question := demoOrdering "Sort the steps" [].

(** An editing session: two items added, the first item dragged onto the
    last, a text typed, the question made summative, and the item with the
    second identifier removed. *)
Definition demoSession : list OrderingAction :=
  [ AddItem; AddItem; DragEnd "id1" "id5"; UpdateItem "id2" "boil the water";
    UpdatePurpose summative; RemoveItem "id2" ].

Definition demoEdited : Question :=
  fst (performAll demoSession (fst (createEmptyQuestion ordering demoGen))
         (snd (createEmptyQuestion ordering demoGen))).

(** ** Notions for the rest of the editor *)

(** The identifiers of the questions of a collection, in order. *)
Definition questionIds (l : list Question) : list string := map q_id l.

(** The selection, when there is one, is the identifier of a question of
    the collection. *)
Definition SelectionOk (st : AssessmentState) : Prop :=
  match currentQuestionId st with
  | None => True
  | Some c => In c (questionIds (questions st))
  end.

(** A collection of two questions, the first one selected. *)
Definition demoCanvas : AssessmentState :=
  mkState [demoMcq; demoOrdering "Sort the steps" [0; 1; 2]%Z] (Some "q-demo").

(** A question whose identifier no question of [demoCanvas] has. *)
Definition demoImage_absent : Question := demoImage None.

(** The document has the payload of its type only, as a question of the
    document model has. *)
Definition Conforms (q : Question) : Prop :=
  match q_type q with
  | mcq => q_items q = [] /\ q_zones q = []
  | ordering => q_options q = [] /\ q_zones q = []
  | hotspot => q_options q = [] /\ q_items q = []
  end.

(** What the schema side asks and the client side does not: an author
    that casts to an [ObjectId], a Bloom's level of the [enum] when there is
    one, an acceptable image URL, and what the hook checks. *)
Definition SchemaOnly (q : Question) : Prop :=
  createdByOk q = true
  /\ bloomsOk q = true
  /\ imageUrlOk (cast q) = true
  /\ match q_type q with
     | mcq => correctCount q = 1
     | ordering => sortedOrders q = indices (length (q_items q))
     | hotspot => True
     end.

(** What the client side asks and the schema side does not: the rules on
    the number of items and of zones, which the schema declares and does
    not run. *)
Definition ClientOnly (q : Question) : Prop :=
  match q_type q with
  | mcq => True
  | ordering => 2 <= length (q_items q)
  | hotspot => 1 <= length (q_zones q)
  end.

(** The collection a [FileLoaded] of the run carries is the collection of
    the state it comes in: the file was read before anything else happened
    to the collection. *)
Fixpoint Prompt (l : list CanvasEvent) (st : AssessmentState) (g : IdGen) : Prop :=
  match l with
  | [] => True
  | e :: l' =>
      match e with
      | FileLoaded captured _ => captured = questions st
      | _ => True
      end
      /\ Prompt l' (fst (onCanvas e st g)) (snd (onCanvas e st g))
  end.

(** The generator never yields the same identifier twice. *)
Definition CollisionFree (g : IdGen) : Prop :=
  forall i j, draws g i = draws g j -> i = j.

(** Every identifier of [l] is one the generator has yielded already. *)
Definition Drawn (g : IdGen) (l : list string) : Prop :=
  forall i, In i l -> exists k, k < next g /\ i = draws g k.

(** [g'] is [g] after some calls of [generateId]. *)
Definition Extends (g g' : IdGen) : Prop :=
  draws g' = draws g /\ next g <= next g'.

(** The identifiers that are there. *)
Fixpoint somes (l : list (option string)) : list string :=
  match l with
  | [] => []
  | Some i :: l' => i :: somes l'
  | None :: l' => somes l'
  end.

(** [idOr], one identifier after the other. *)
Fixpoint fillIds (olds : list (option string)) : Gen (list string) :=
  match olds with
  | [] => ret []
  | o :: rest => i <- idOr o ;; l <- fillIds rest ;; ret (i :: l)
  end.

(** The identifiers the suggestions keep, when they are there: those of the
    first four sub-items. *)
Definition firstFour (ids : list string) : list (option string) :=
  [nth_error ids 0; nth_error ids 1; nth_error ids 2; nth_error ids 3].

(** An MCQ question as its editor keeps it. *)
Record McqOk (q : Question) (g : IdGen) : Prop := mkMcqOk {
  mcq_type : q_type q = mcq;
  mcq_ids : NoDup (map o_id (q_options q));
  mcq_drawn : Drawn g (map o_id (q_options q));
  mcq_two : 2 <= length (q_options q);
  mcq_one : correctCount q <= 1;
  mcq_only : q_items q = [] /\ q_zones q = [] /\ q_imageUrl q = None
}.

(** An ordering question as its editor keeps it. *)
Record OrderingOk (q : Question) (g : IdGen) : Prop := mkOrderingOk {
  ord_type : q_type q = ordering;
  ord_ids : NoDup (map i_id (q_items q));
  ord_drawn : Drawn g (map i_id (q_items q));
  ord_two : 2 <= length (q_items q);
  ord_sequential : orderValues q = indices (length (q_items q));
  ord_only : q_options q = [] /\ q_zones q = [] /\ q_imageUrl q = None
}.

(** An option without its correct mark. *)
Definition withoutCorrect (opt : MCQOption) : string * string * option string :=
  (o_id opt, o_text opt, o_feedback opt).

(** A session on an MCQ question: an option added, the second option taken
    out, the added option chosen as the correct one, a text typed. *)
Definition demoMcqSession : list McqAction :=
  [ McqAdd; McqRemove "id2"; McqCorrect "id5"; McqText "id1" "Lyon" ].

(** An item without its order. *)
Definition itemContent (item : OrderingItem) : string * string :=
  (i_id item, i_text item).

(** Every zone is a polygon: it has at least 3 points. *)
Definition ZonesOk (q : Question) : Prop :=
  Forall (fun zone => 3 <= length (z_coordinates zone)) (q_zones q).

(** A drawing is going on exactly when points have been put. *)
Definition DrawingOk (d : Drawing) : Prop :=
  isDrawing d = match currentZone d with [] => false | _ :: _ => true end.

(** A hotspot question and the drawing, as the editor keeps them. *)
Record HotspotOk (s : Question * Drawing) : Prop := mkHotspotOk {
  hs_type : q_type (fst s) = hotspot;
  hs_zones : ZonesOk (fst s);
  hs_only : q_options (fst s) = [] /\ q_items (fst s) = [];
  hs_drawing : DrawingOk (snd s)
}.

(** The fields [updateQuestionType] takes over into [baseData], but the
    type. *)
Definition baseFields (q : Question)
  : string * Purpose * string * option string * option string * option string :=
  (q_id q, q_purpose q, q_stem q, q_topic q, q_learningObjective q, q_bloomsLevel q).

(** The errors about the metadata a summative question must have. *)
Definition summativeErrors (q : Question) : list string :=
  cond (isSummative q && blankOpt (q_learningObjective q)) E_OBJECTIVE
  ++ cond (isSummative q && negb (truthyOpt (q_bloomsLevel q))) E_BLOOMS.

(** The zones of a hotspot question as its editor keeps them: with
    identifiers that differ, all drawn from the generator. *)
Record ZoneIdsOk (q : Question) (g : IdGen) : Prop := mkZoneIdsOk {
  zi_type : q_type q = hotspot;
  zi_ids : NoDup (map z_id (q_zones q));
  zi_drawn : Drawn g (map z_id (q_zones q))
}.

(** * Properties *)

(** ** Strings: what [trim] leaves *)

Section TrimFacts.

Lemma dropWhile_nil_iff {A} (p : A -> bool) (l : list A) :
  dropWhile p l = [] <-> forallb p l = true.
Proof.
  induction l as [|a l IH]; simpl.
  - tauto.
  - destruct (p a); simpl.
    + exact IH.
    + split; discriminate.
Qed.

Lemma dropWhile_forallb {A} (p : A -> bool) (l : list A) :
  dropWhile p l <> [] -> forallb p (dropWhile p l) = false.
Proof.
  induction l as [|a l IH]; simpl; intros H.
  - congruence.
  - destruct (p a) eqn:Ha.
    + auto.
    + simpl. now rewrite Ha.
Qed.

Lemma forallb_rev {A} (p : A -> bool) (l : list A) :
  forallb p (rev l) = forallb p l.
Proof.
  induction l as [|a l IH]; simpl; auto.
  rewrite forallb_app, IH. simpl. rewrite andb_true_r. apply andb_comm.
Qed.

Lemma trimEndL_nil_iff (l : list ascii) :
  trimEndL l = [] <-> forallb isWhiteSpace l = true.
Proof.
  unfold trimEndL. rewrite <- (forallb_rev isWhiteSpace l), <- dropWhile_nil_iff.
  split; intros H.
  - apply (f_equal (@rev ascii)) in H. now rewrite rev_involutive in H.
  - now rewrite H.
Qed.

Lemma trimL_nil_iff (l : list ascii) :
  trimEndL (trimStartL l) = [] <-> forallb isWhiteSpace l = true.
Proof.
  rewrite trimEndL_nil_iff. unfold trimStartL. split; intros H.
  - destruct (dropWhile isWhiteSpace l) eqn:E.
    + now apply dropWhile_nil_iff.
    + rewrite <- E, dropWhile_forallb in H; [discriminate | rewrite E; discriminate].
  - apply dropWhile_nil_iff in H. now rewrite H.
Qed.

Lemma truthy_of_list (l : list ascii) :
  truthy (string_of_list_ascii l) = match l with [] => false | _ => true end.
Proof. destruct l; reflexivity. Qed.

(** [s.trim()] is the empty string exactly when [s] is blank. *)
Lemma truthy_trim (s : string) : truthy (trim s) = negb (blank s).
Proof.
  unfold trim, blank. rewrite truthy_of_list.
  destruct (trimEndL (trimStartL (list_ascii_of_string s))) eqn:E.
  - apply trimL_nil_iff in E. now rewrite E.
  - destruct (forallb isWhiteSpace (list_ascii_of_string s)) eqn:F; auto.
    apply trimL_nil_iff in F. congruence.
Qed.

Lemma truthyOpt_trimOpt (s : option string) :
  truthyOpt (trimOpt s) = negb (blankOpt s).
Proof. destruct s; simpl; [apply truthy_trim | reflexivity]. Qed.

Lemma list_ascii_of_append (s t : string) :
  list_ascii_of_string (s ++ t) = list_ascii_of_string s ++ list_ascii_of_string t.
Proof. induction s as [|c s IH]; simpl; [reflexivity | now rewrite IH]. Qed.

Lemma blank_append (s t : string) : blank (s ++ t) = blank s && blank t.
Proof. unfold blank. now rewrite list_ascii_of_append, forallb_app. Qed.

End TrimFacts.

(** ** The client-side validator, check by check *)

Lemma existsb_ext {A} (f g : A -> bool) (l : list A) :
  (forall a, f a = g a) -> existsb f l = existsb g l.
Proof. intros H. induction l as [|a l IH]; simpl; [reflexivity | now rewrite H, IH]. Qed.

Lemma existsb_map {A B} (f : A -> B) (g : B -> bool) (l : list A) :
  existsb g (map f l) = existsb (fun a => g (f a)) l.
Proof. induction l as [|a l IH]; simpl; [reflexivity | now rewrite IH]. Qed.

(** *** Statements that only append to [errors] *)

Section AppendOnly.

Lemma Appends_push (msg : string) : Appends (push msg).
Proof. intros f. reflexivity. Qed.

Lemma Appends_when (c : Question -> bool) (s : Stmt) :
  Appends s -> Appends (when c s).
Proof.
  intros H f. unfold emitted, when. cbn [f_question].
  destruct (c (f_question f)).
  - apply H.
  - destruct f; cbn. now rewrite app_nil_r.
Qed.

Lemma Appends_andThen (s1 s2 : Stmt) :
  Appends s1 -> Appends s2 -> Appends (s1 >> s2).
Proof.
  intros H1 H2 f. unfold emitted, andThen.
  rewrite (H1 f), (H2 (mkFrame _ _)), (H1 (mkFrame _ _)), (H2 (mkFrame _ _)).
  cbn. now rewrite app_assoc.
Qed.

Lemma Appends_switchType (m o h : Stmt) :
  Appends m -> Appends o -> Appends h -> Appends (switchType m o h).
Proof.
  intros Hm Ho Hh f. unfold emitted, switchType. cbn [f_question].
  destruct (q_type (f_question f)); [apply Hm | apply Ho | apply Hh].
Qed.

Lemma emitted_push (msg : string) (q : Question) : emitted (push msg) q = [msg].
Proof. reflexivity. Qed.

Lemma emitted_when (c : Question -> bool) (s : Stmt) (q : Question) :
  emitted (when c s) q = if c q then emitted s q else [].
Proof. unfold emitted, when. cbn. now destruct (c q). Qed.

Lemma emitted_andThen (s1 s2 : Stmt) (q : Question) :
  Appends s1 -> Appends s2 ->
  emitted (s1 >> s2) q = emitted s1 q ++ emitted s2 q.
Proof.
  intros H1 H2. unfold emitted, andThen.
  rewrite (H1 (mkFrame _ _)), (H2 (mkFrame _ _)). reflexivity.
Qed.

Lemma emitted_switchType (m o h : Stmt) (q : Question) :
  emitted (switchType m o h) q =
    match q_type q with
    | mcq => emitted m q
    | ordering => emitted o q
    | hotspot => emitted h q
    end.
Proof. unfold emitted, switchType. cbn. now destruct (q_type q). Qed.

End AppendOnly.

Create HintDb appends.
#[local] Hint Resolve Appends_push Appends_when Appends_andThen Appends_switchType
  : appends.

Lemma Appends_validateBody : Appends validateBody.
Proof. unfold validateBody. auto 10 with appends. Qed.

(** The call leaves the question as it is. *)
Lemma validateBody_question (f : Frame) : f_question (validateBody f) = f_question f.
Proof. now rewrite (Appends_validateBody f). Qed.

(** The error list is the concatenation, in the order of the checks, of the
    message of every check that fails. *)
Lemma validateErrors_checks (q : Question) :
  validateErrors q =
    cond (blank (q_stem q)) E_STEM
    ++ cond (isSummative q && blankOpt (q_learningObjective q)) E_OBJECTIVE
    ++ cond (isSummative q && negb (truthyOpt (q_bloomsLevel q))) E_BLOOMS
    ++ typeErrors q.
Proof.
  unfold validateErrors. fold (emitted validateBody q). unfold validateBody.
  rewrite !emitted_andThen by auto 10 with appends.
  rewrite emitted_switchType, !emitted_when.
  rewrite !emitted_andThen by auto 10 with appends.
  rewrite !emitted_when, !emitted_push.
  unfold typeErrors, isSummative, isFormative,
    hasCorrectOption, hasEmptyOption, hasEmptyFeedback, hasEmptyItem.
  rewrite truthy_trim, truthyOpt_trimOpt, !negb_involutive.
  rewrite (existsb_ext (fun opt => negb (truthy (trim (o_text opt))))
                       (fun opt => blank (o_text opt)))
    by (intros; now rewrite truthy_trim, negb_involutive).
  rewrite (existsb_ext (fun opt => negb (truthyOpt (trimOpt (o_feedback opt))))
                       (fun opt => blankOpt (o_feedback opt)))
    by (intros; now rewrite truthyOpt_trimOpt, negb_involutive).
  rewrite (existsb_ext (fun item => negb (truthy (trim (i_text item))))
                       (fun item => blank (i_text item)))
    by (intros; now rewrite truthy_trim, negb_involutive).
  destruct (blank (q_stem q)), (q_purpose q), (blankOpt (q_learningObjective q)),
    (q_bloomsLevel q), (q_type q); cbn;
    repeat match goal with
           | |- context [if ?b then _ else _] => destruct b; cbn
           end; reflexivity.
Qed.

Lemma isValid_iff (q : Question) :
  isValid (validateQuestion q) = true <-> validateErrors q = [].
Proof.
  unfold validateQuestion; simpl.
  destruct (validateErrors q); simpl; split; congruence.
Qed.

Lemma In_cond (b : bool) (msg e : string) : In e (cond b msg) <-> b = true /\ e = msg.
Proof.
  destruct b; simpl; split; intros H.
  - destruct H as [H|[]]; auto.
  - left; symmetry; apply H.
  - destruct H.
  - destruct H; discriminate.
Qed.

Lemma invalid_of_error (q : Question) (e : string) :
  In e (errors (validateQuestion q)) -> isValid (validateQuestion q) = false.
Proof.
  unfold validateQuestion; simpl. destruct (validateErrors q); simpl; [tauto | reflexivity].
Qed.

(** ** The schema-side validator, rule by rule *)

Lemma app_nil_iff {A} (l l' : list A) : l ++ l' = [] <-> l = [] /\ l' = [].
Proof.
  split.
  - apply app_eq_nil.
  - intros [-> ->]; reflexivity.
Qed.

Lemma checkRequired_nil (path : Path) (required : bool) (v : option string) :
  checkRequired path required v = [] <-> negb required || truthyOpt v = true.
Proof.
  unfold checkRequired. destruct required, (truthyOpt v); simpl; split; congruence.
Qed.

Lemma checkValidator_nil (path : Path) (ok : bool) (message : string) :
  checkValidator path ok message = [] <-> ok = true.
Proof. unfold checkValidator. destruct ok; split; congruence. Qed.

Lemma validate_options_nil (parent : Question) (index : nat) (l : list MCQOption) :
  validate_options parent index l = [] <-> forallb (optionOk parent) l = true.
Proof.
  revert index. induction l as [|opt l IH]; intros index; simpl.
  - tauto.
  - rewrite !app_nil_iff, IH, andb_true_iff. unfold optionOk, checkRequiredString.
    rewrite !checkRequired_nil, andb_true_iff. simpl. tauto.
Qed.

Lemma validate_items_nil (index : nat) (l : list OrderingItem) :
  validate_items index l = [] <-> forallb itemOk l = true.
Proof.
  revert index. induction l as [|item l IH]; intros index; simpl.
  - tauto.
  - rewrite !app_nil_iff, IH, andb_true_iff. unfold itemOk, checkRequiredString.
    rewrite checkRequired_nil. simpl. tauto.
Qed.

Lemma validate_imageUrl_nil (this : Question) :
  validate_imageUrl this = [] <-> imageUrlOk this = true.
Proof.
  unfold validate_imageUrl, imageUrlOk. destruct (q_imageUrl this).
  - apply checkValidator_nil.
  - tauto.
Qed.

Lemma validate_bloomsLevel_nil (this : Question) :
  validate_bloomsLevel this = []
  <-> negb (summative_required this) || truthyOpt (q_bloomsLevel this) = true
      /\ bloomsOk this = true.
Proof.
  unfold validate_bloomsLevel, bloomsOk.
  destruct (summative_required this); destruct (q_bloomsLevel this) as [level|];
    cbn [truthyOpt]; try destruct (truthy level); try destruct (bloomsLevel_enum level);
    cbn [negb andb orb];
    (split; [ intros H; first [discriminate H | split; reflexivity]
            | intros (H1 & H2); first [discriminate | reflexivity] ]).
Qed.

Lemma validate_createdBy_nil (this : Question) :
  validate_createdBy this = [] <-> createdByOk this = true.
Proof.
  unfold validate_createdBy, createdByOk.
  destruct (q_createdBy this) as [v|]; [|split; discriminate].
  destruct (isObjectId v); split; (discriminate || tauto).
Qed.

Lemma validate_nil (this : Question) : validate this = [] <-> FieldsOk this.
Proof.
  unfold validate. rewrite !app_nil_iff.
  unfold checkRequiredString.
  rewrite !checkRequired_nil, validate_bloomsLevel_nil, validate_createdBy_nil,
    validate_options_nil, validate_items_nil, validate_imageUrl_nil.
  simpl (negb true || _).
  split.
  - intros (H1 & H2 & (H3 & H4) & H5 & H6 & H7 & H8). constructor; auto.
  - intros [H1 H2 H3 H4 H5 H6 H7 H8]. repeat split; auto.
Qed.

Lemma save_Saved_iff (q : Question) :
  save q = Saved <-> FieldsOk (cast q) /\ pre_save (cast q) = None.
Proof.
  unfold save. rewrite <- validate_nil.
  destruct (validate (cast q)) eqn:V.
  - destruct (pre_save (cast q)); split.
    + discriminate.
    + intros [_ H]; discriminate.
    + auto.
    + auto.
  - split; [discriminate | intros [H _]; discriminate].
Qed.

(** When the field-level validation passes, the hook decides. *)
Lemma save_of_FieldsOk (q : Question) :
  FieldsOk (cast q) ->
  save q = match pre_save (cast q) with
           | None => Saved
           | Some message => HookFailed message
           end.
Proof.
  intros H. apply validate_nil in H. unfold save. now rewrite H.
Qed.

Lemma save_ValidationFailed (q : Question) :
  validate (cast q) <> [] -> save q = ValidationFailed (validate (cast q)).
Proof.
  intros H. unfold save. destruct (validate (cast q)); [congruence | reflexivity].
Qed.

(** ** The hook's sort and its sequential check *)

Section SortFacts.

Lemma insertBy_perm (cmp : Z -> Z -> Z) (a : Z) (l : list Z) :
  Permutation (a :: l) (insertBy cmp a l).
Proof.
  induction l as [|b l IH]; simpl.
  - apply Permutation_refl.
  - destruct (cmp a b <=? 0)%Z.
    + apply Permutation_refl.
    + eapply perm_trans; [apply perm_swap | apply perm_skip, IH].
Qed.

Lemma sortBy_perm (cmp : Z -> Z -> Z) (l : list Z) : Permutation l (sortBy cmp l).
Proof.
  induction l as [|a l IH]; simpl.
  - apply perm_nil.
  - eapply perm_trans; [apply perm_skip, IH | apply insertBy_perm].
Qed.

Lemma sortBy_length (cmp : Z -> Z -> Z) (l : list Z) :
  length (sortBy cmp l) = length l.
Proof. symmetry. apply Permutation_length, sortBy_perm. Qed.

Lemma insertBy_HdRel (a b : Z) (l : list Z) :
  (b <= a)%Z -> HdRel Z.le b l -> HdRel Z.le b (insertBy byDifference a l).
Proof.
  intros Hba H. destruct l as [|c l]; simpl.
  - now constructor.
  - inversion H; subst. destruct (byDifference a c <=? 0)%Z; now constructor.
Qed.

Lemma insertBy_sorted (a : Z) (l : list Z) :
  Sorted Z.le l -> Sorted Z.le (insertBy byDifference a l).
Proof.
  induction 1 as [|b l Hs IH Hd]; simpl.
  - repeat constructor.
  - destruct (Z.leb_spec (byDifference a b) 0) as [E|E]; unfold byDifference in E.
    + constructor; [now constructor | constructor; lia].
    + constructor; [exact IH | apply insertBy_HdRel; [lia | exact Hd]].
Qed.

(** The sort puts the values in ascending order. *)
Lemma sortBy_sorted (l : list Z) : Sorted Z.le (sortBy byDifference l).
Proof.
  induction l as [|a l IH]; simpl; [constructor | now apply insertBy_sorted].
Qed.

Lemma sortBy_StronglySorted (l : list Z) : StronglySorted Z.le (sortBy byDifference l).
Proof.
  apply Sorted_StronglySorted; [intros x y z; apply Z.le_trans | apply sortBy_sorted].
Qed.

(** An ascending list is determined by its elements. *)
Lemma ascending_unique (l1 l2 : list Z) :
  StronglySorted Z.le l1 -> StronglySorted Z.le l2 -> Permutation l1 l2 -> l1 = l2.
Proof.
  revert l2. induction l1 as [|a l1 IH]; intros l2 H1 H2 P.
  - apply Permutation_nil in P. now subst.
  - destruct l2 as [|b l2].
    + apply Permutation_sym, Permutation_nil in P. discriminate.
    + apply StronglySorted_inv in H1 as [S1 F1].
      apply StronglySorted_inv in H2 as [S2 F2].
      assert (a = b) as ->.
      { assert (In a (b :: l2)) as Ia
          by (eapply Permutation_in; [exact P | now left]).
        assert (In b (a :: l1)) as Ib
          by (eapply Permutation_in; [apply Permutation_sym; exact P | now left]).
        rewrite Forall_forall in F1, F2.
        destruct Ia as [->|Ia]; [reflexivity|].
        destruct Ib as [->|Ib]; [reflexivity|].
        apply F2 in Ia. apply F1 in Ib. lia. }
      f_equal. apply IH; auto. eapply Permutation_cons_inv; exact P.
Qed.

Lemma upFrom_lower (i : Z) (n : nat) : Forall (fun v => (i <= v)%Z) (upFrom i n).
Proof.
  revert i. induction n as [|n IH]; intros i; simpl; constructor.
  - lia.
  - eapply Forall_impl; [|apply (IH (i + 1)%Z)]. simpl. intros; lia.
Qed.

Lemma upFrom_sorted (i : Z) (n : nat) : StronglySorted Z.le (upFrom i n).
Proof.
  revert i. induction n as [|n IH]; intros i; simpl; constructor.
  - apply IH.
  - eapply Forall_impl; [|apply (upFrom_lower (i + 1)%Z)]. simpl. intros; lia.
Qed.

(** The loop of the hook passes exactly on [i, i+1, ...]. *)
Lemma checkSequential_None (i : Z) (orders : list Z) :
  checkSequential i orders = None <-> orders = upFrom i (length orders).
Proof.
  revert i. induction orders as [|o rest IH]; intros i; simpl.
  - tauto.
  - destruct (Z.eqb_spec o i) as [->|Hne].
    + rewrite IH. split; intros H.
      * f_equal. exact H.
      * injection H as H. exact H.
    + split; [discriminate | intros H; inversion H; contradiction].
Qed.

Lemma checkSequential_result (i : Z) (orders : list Z) :
  checkSequential i orders = None \/ checkSequential i orders = Some H_ORDER.
Proof.
  revert i. induction orders as [|o rest IH]; intros i; simpl; auto.
  destruct (o =? i)%Z; auto.
Qed.

(** The check on the sorted values passes exactly when the values are a
    rearrangement of [0 .. n-1]. *)
Lemma sorted_check_iff (l : list Z) :
  checkSequential 0 (sortBy byDifference l) = None
  <-> Permutation l (indices (length l)).
Proof.
  rewrite checkSequential_None, sortBy_length. unfold indices. split.
  - intros H. rewrite <- H. apply sortBy_perm.
  - intros P. apply ascending_unique.
    + apply sortBy_StronglySorted.
    + apply upFrom_sorted.
    + eapply perm_trans; [apply Permutation_sym, sortBy_perm | exact P].
Qed.

End SortFacts.

(** ** The hook, type by type *)

Lemma correctCount_cast (q : Question) : correctCount (cast q) = correctCount q.
Proof.
  unfold correctCount; simpl. induction (q_options q) as [|opt l IH]; simpl.
  - reflexivity.
  - destruct (o_isCorrect opt); simpl; now rewrite IH.
Qed.

Lemma pre_save_of_mcq (this : Question) :
  q_type this = mcq -> pre_save this = pre_save_mcq this.
Proof.
  intros T. unfold pre_save, pre_save_ordering. rewrite T; simpl.
  now destruct (pre_save_mcq this).
Qed.

Lemma pre_save_of_ordering (this : Question) :
  q_type this = ordering -> pre_save this = pre_save_ordering this.
Proof. intros T. unfold pre_save, pre_save_mcq. now rewrite T. Qed.

(** The hook raises [H_CORRECT] on an MCQ document exactly when the number
    of correct options is not 1. *)
Lemma pre_save_H_CORRECT (this : Question) :
  q_type this = mcq -> (pre_save this = Some H_CORRECT <-> correctCount this <> 1).
Proof.
  intros T. rewrite (pre_save_of_mcq _ T). unfold pre_save_mcq, correctCount.
  rewrite T; simpl.
  destruct (Nat.eqb_spec (length (filter o_isCorrect (q_options this))) 1) as [E|E]; simpl.
  - split; [|tauto].
    destruct (Purpose_eqb (q_purpose this) formative); [|discriminate].
    destruct (existsb _ _); discriminate.
  - tauto.
Qed.

(** Field-level validation leaves nothing for the hook's feedback check. *)
Lemma feedback_check_passes (this : Question) :
  forallb (optionOk this) (q_options this) = true ->
  Purpose_eqb (q_purpose this) formative = true ->
  existsb (fun opt => negb (truthyOpt (o_feedback opt))) (q_options this) = false.
Proof.
  intros H F. unfold optionOk, feedback_required in H. rewrite F in H. simpl in H.
  induction (q_options this) as [|opt l IH]; simpl in *.
  - reflexivity.
  - apply andb_true_iff in H as [H1 H2]. apply andb_true_iff in H1 as [_ H1].
    rewrite H1. simpl. auto.
Qed.

Lemma pre_save_mcq_FieldsOk (this : Question) :
  q_type this = mcq -> FieldsOk this ->
  pre_save this = if (correctCount this =? 1)%nat then None else Some H_CORRECT.
Proof.
  intros T F. rewrite (pre_save_of_mcq _ T). unfold pre_save_mcq, correctCount.
  rewrite T; simpl.
  destruct (length (filter o_isCorrect (q_options this)) =? 1)%nat; simpl; [|reflexivity].
  destruct (Purpose_eqb (q_purpose this) formative) eqn:P; [|reflexivity].
  now rewrite (feedback_check_passes this (ok_options _ F) P).
Qed.

(** ** C2: exactly one correct option *)

(** C2, the claim as stated, fails: the MCQ document [demoMcqNoFeedback] has
    exactly one correct option, and it is not persisted; its options lack
    the feedback a formative question must have, which the field-level
    validation reports (and which the hook, run on it, reports as well). *)
Lemma C2_one_correct_not_persisted :
  q_type demoMcqNoFeedback = mcq
  /\ ~ (save demoMcqNoFeedback = Saved <-> correctCount demoMcqNoFeedback = 1)
  /\ save demoMcqNoFeedback =
       ValidationFailed [ mkError (PElem "options" 0 "feedback") Required;
                          mkError (PElem "options" 1 "feedback") Required;
                          mkError (PElem "options" 2 "feedback") Required ]
  /\ pre_save (cast demoMcqNoFeedback) = Some H_FEEDBACK.
Proof.
  split; [reflexivity|]. split; [|split; vm_compute; reflexivity].
  intros [_ H]. specialize (H eq_refl). vm_compute in H. discriminate.
Qed.

(** C2, amended: on an MCQ document the hook aborts with
    'MCQ questions must have exactly one correct option' exactly when the
    number of correct options is not 1; a persisted MCQ document has exactly
    one correct option; and an MCQ document that passes the field-level
    rules that are run (a stem, an author that casts to an [ObjectId], text
    on every option, feedback on every option of a formative question,
    learning objective and Bloom's level of a summative one, a Bloom's level
    of the [enum] and an acceptable image URL if any; no rule on the number
    of options) is persisted if and only if it has exactly one correct
    option, any other count giving the hook's error as the result of the
    save. *)
Theorem C2_exactly_one_correct (q : Question) :
  q_type q = mcq ->
  (pre_save (cast q) = Some H_CORRECT <-> correctCount q <> 1)
  /\ (save q = Saved -> correctCount q = 1)
  /\ (FieldsOk (cast q) ->
      (save q = Saved <-> correctCount q = 1)
      /\ (correctCount q <> 1 -> save q = HookFailed H_CORRECT)).
Proof.
  intros T.
  assert (q_type (cast q) = mcq) as Tc by exact T.
  assert (forall F : FieldsOk (cast q),
             save q = if (correctCount q =? 1)%nat then Saved else HookFailed H_CORRECT)
    as S.
  { intros F. rewrite (save_of_FieldsOk _ F), (pre_save_mcq_FieldsOk _ Tc F),
      correctCount_cast.
    now destruct (correctCount q =? 1)%nat. }
  split; [|split].
  - rewrite (pre_save_H_CORRECT _ Tc), correctCount_cast. tauto.
  - intros H. pose proof H as H'. apply save_Saved_iff in H' as [F _].
    specialize (S F).
    destruct (Nat.eqb_spec (correctCount q) 1) as [E|E]; [exact E|].
    rewrite S in H. discriminate.
  - intros F. specialize (S F).
    destruct (Nat.eqb_spec (correctCount q) 1) as [E|E]; rewrite S.
    + split; [tauto | contradiction].
    + split; [split; [discriminate | contradiction] | reflexivity].
Qed.

Lemma C2_exactly_one_correct_witness :
  q_type demoMcq = mcq
  /\ FieldsOk (cast demoMcq)
  /\ (save demoMcq = Saved <-> correctCount demoMcq = 1).
Proof.
  assert (T : q_type demoMcq = mcq) by reflexivity.
  assert (F : FieldsOk (cast demoMcq)) by (constructor; vm_compute; reflexivity).
  split; [exact T|]. split; [exact F|].
  exact (proj1 (proj2 (proj2 (C2_exactly_one_correct demoMcq T)) F)).
Defined.

(** The examples of the specification: one correct option is persisted, two
    correct options are refused by the hook. *)
Example one_correct_saved : save demoMcq = Saved.
Proof. vm_compute. reflexivity. Qed.

(** An MCQ document with one option, the correct one, is persisted: the
    validator 'MCQ questions must have at least 2 options', which is false
    of it, is not run. An author that is no [ObjectId] is refused. *)
Example one_option_saved :
  options_validator (cast demoOneOption) (q_options (cast demoOneOption)) = false
  /\ save demoOneOption = Saved
  /\ save (set_createdBy (Some "the author") demoOneOption)
     = ValidationFailed [mkError (PField "createdBy") CastFailed].
Proof. repeat split; vm_compute; reflexivity. Qed.

Example two_correct_refused : save demoMcqTwoCorrect = HookFailed H_CORRECT.
Proof. vm_compute. reflexivity. Qed.

(** ** C3: sequential order values *)

Lemma orderValues_cast (q : Question) : orderValues (cast q) = orderValues q.
Proof.
  unfold orderValues; simpl. rewrite map_map. reflexivity.
Qed.

Lemma pre_save_ordering_None (this : Question) :
  q_type this = ordering ->
  (pre_save this = None <-> sortedOrders this = indices (length (q_items this))).
Proof.
  intros T. rewrite (pre_save_of_ordering _ T). unfold pre_save_ordering.
  rewrite T; simpl. fold (orderValues this). fold (sortedOrders this).
  rewrite checkSequential_None. unfold sortedOrders, orderValues, indices.
  now rewrite sortBy_length, length_map.
Qed.

Lemma pre_save_ordering_result (this : Question) :
  q_type this = ordering -> pre_save this = None \/ pre_save this = Some H_ORDER.
Proof.
  intros T. rewrite (pre_save_of_ordering _ T). unfold pre_save_ordering.
  rewrite T; simpl. apply checkSequential_result.
Qed.

Lemma sortedOrders_iff (q : Question) :
  sortedOrders q = indices (length (q_items q))
  <-> Permutation (orderValues q) (indices (length (q_items q))).
Proof.
  pose proof (sorted_check_iff (orderValues q)) as H.
  rewrite checkSequential_None, sortBy_length in H.
  assert (length (orderValues q) = length (q_items q)) as L by apply length_map.
  rewrite L in H. exact H.
Qed.

(** C3, the claim as stated, fails: the ordering document
    [demoOrdering "" [0; 2; 1]] has the order values 0, 2, 1, which sorted
    are 0, 1, 2, and it is not persisted, because its stem is empty. *)
Lemma C3_sequential_not_persisted :
  q_type (demoOrdering "" [0; 2; 1]%Z) = ordering
  /\ sortedOrders (demoOrdering "" [0; 2; 1]%Z) = [0; 1; 2]%Z
  /\ ~ (save (demoOrdering "" [0; 2; 1]%Z) = Saved
        <-> sortedOrders (demoOrdering "" [0; 2; 1]%Z)
            = indices (length (q_items (demoOrdering "" [0; 2; 1]%Z))))
  /\ save (demoOrdering "" [0; 2; 1]%Z)
     = ValidationFailed [mkError (PField "stem") Required].
Proof.
  split; [reflexivity|]. split; [reflexivity|]. split; [|vm_compute; reflexivity].
  intros [_ H]. specialize (H eq_refl). vm_compute in H. discriminate.
Qed.

(** C3, amended: on an ordering document with n items the hook passes
    exactly when the order values, sorted ascending, are [0, 1, ..., n-1],
    that is when they are a rearrangement of 0 .. n-1, and otherwise aborts
    with 'Ordering items must have sequential order numbers starting from
    0'; a persisted ordering document has such order values; and an ordering
    document that passes the field-level rules that are run (a stem, an
    author that casts to an [ObjectId], text on every item, learning
    objective and Bloom's level of a summative question, a Bloom's level of
    the [enum] if any; no rule on the number of items) is persisted if and
    only if its order values are such. *)
Theorem C3_sequential_orders (q : Question) :
  q_type q = ordering ->
  let n := length (q_items q) in
  (pre_save (cast q) = None <-> sortedOrders q = indices n)
  /\ (sortedOrders q = indices n <-> Permutation (orderValues q) (indices n))
  /\ (sortedOrders q <> indices n -> pre_save (cast q) = Some H_ORDER)
  /\ (save q = Saved -> sortedOrders q = indices n)
  /\ (FieldsOk (cast q) ->
      (save q = Saved <-> sortedOrders q = indices n)
      /\ (sortedOrders q <> indices n -> save q = HookFailed H_ORDER)).
Proof.
  intros T n.
  assert (q_type (cast q) = ordering) as Tc by exact T.
  assert (pre_save (cast q) = None <-> sortedOrders q = indices n) as P.
  { rewrite (pre_save_ordering_None _ Tc). unfold sortedOrders.
    rewrite orderValues_cast. simpl. rewrite length_map. reflexivity. }
  assert (sortedOrders q <> indices n -> pre_save (cast q) = Some H_ORDER) as N.
  { intros H. destruct (pre_save_ordering_result _ Tc) as [R|R]; [|exact R].
    apply P in R. contradiction. }
  split; [exact P|]. split; [apply sortedOrders_iff|]. split; [exact N|]. split.
  - intros H. apply save_Saved_iff in H as [_ H]. now apply P.
  - intros F. pose proof (save_of_FieldsOk _ F) as S. split; [split|].
    + intros H. apply save_Saved_iff in H as [_ H]. now apply P.
    + intros H. apply P in H. now rewrite S, H.
    + intros H. apply N in H. now rewrite S, H.
Qed.

Lemma C3_sequential_orders_witness :
  q_type (demoOrdering "Sort the steps" [0; 2; 1]%Z) = ordering
  /\ FieldsOk (cast (demoOrdering "Sort the steps" [0; 2; 1]%Z))
  /\ (save (demoOrdering "Sort the steps" [0; 2; 1]%Z) = Saved
      <-> sortedOrders (demoOrdering "Sort the steps" [0; 2; 1]%Z) = indices 3).
Proof.
  assert (T : q_type (demoOrdering "Sort the steps" [0; 2; 1]%Z) = ordering)
    by reflexivity.
  assert (F : FieldsOk (cast (demoOrdering "Sort the steps" [0; 2; 1]%Z)))
    by (constructor; vm_compute; reflexivity).
  split; [exact T|]. split; [exact F|].
  exact (proj1 (proj2 (proj2 (proj2 (proj2
           (C3_sequential_orders (demoOrdering "Sort the steps" [0; 2; 1]%Z) T))))
           F)).
Defined.

(** The examples of the specification. *)
Example orders_0_2_1_saved : save (demoOrdering "Sort the steps" [0; 2; 1]%Z) = Saved.
Proof. vm_compute. reflexivity. Qed.

Example orders_1_2_3_refused :
  save (demoOrdering "Sort the steps" [1; 2; 3]%Z) = HookFailed H_ORDER.
Proof. vm_compute. reflexivity. Qed.

Example orders_0_0_1_refused :
  save (demoOrdering "Sort the steps" [0; 0; 1]%Z) = HookFailed H_ORDER.
Proof. vm_compute. reflexivity. Qed.

(** An ordering document with one item, of order 0, is persisted: the
    validator 'Ordering questions must have at least 2 items', which is
    false of it, is not run. The client side refuses the document. *)
Example one_item_saved :
  let q := demoOrdering "Sort the steps" [0%Z] in
  items_validator (cast q) (q_items (cast q)) = false
  /\ save q = Saved
  /\ validateQuestion q = mkResult false [E_ITEMS].
Proof. repeat split; vm_compute; reflexivity. Qed.

(** ** C1: the two validators on the same document *)

Lemma existsb_of_filter {A} (f : A -> bool) (l : list A) :
  length (filter f l) = 1 -> existsb f l = true.
Proof.
  induction l as [|a l IH]; simpl; [discriminate|].
  destruct (f a); simpl; auto.
Qed.

Lemma options_not_blank (parent : Question) (l : list MCQOption) :
  forallb (optionOk parent) (map cast_option l) = true ->
  existsb (fun opt => blank (o_text opt)) l = false
  /\ (feedback_required parent = true ->
      existsb (fun opt => blankOpt (o_feedback opt)) l = false).
Proof.
  induction l as [|opt l IH]; simpl; [auto|].
  rewrite andb_true_iff. unfold optionOk at 1. simpl.
  rewrite andb_true_iff, truthy_trim, truthyOpt_trimOpt.
  intros [[H1 H2] H3]. destruct (IH H3) as [IH1 IH2].
  apply negb_true_iff in H1. rewrite H1, IH1. split; [reflexivity|].
  intros R. rewrite R in H2. simpl in H2. apply negb_true_iff in H2.
  now rewrite H2, IH2.
Qed.

Lemma items_not_blank (l : list OrderingItem) :
  forallb itemOk (map cast_item l) = true ->
  existsb (fun item => blank (i_text item)) l = false.
Proof.
  induction l as [|item l IH]; simpl; [auto|].
  rewrite andb_true_iff. unfold itemOk at 1. simpl. rewrite truthy_trim.
  intros [H1 H2]. apply negb_true_iff in H1. now rewrite H1, IH.
Qed.

(** What the schema side persists, the client side finds valid when it has
    the items or zones the client side asks for. *)
Lemma saved_is_valid (q : Question) :
  save q = Saved -> ClientOnly q -> isValid (validateQuestion q) = true.
Proof.
  intros S CO. apply save_Saved_iff in S as [F P].
  apply isValid_iff. rewrite validateErrors_checks.
  pose proof (ok_stem _ F) as Hstem. simpl in Hstem.
  rewrite truthy_trim in Hstem. apply negb_true_iff in Hstem.
  pose proof (ok_objective _ F) as Hobj.
  unfold summative_required in Hobj. simpl in Hobj.
  rewrite truthyOpt_trimOpt in Hobj.
  pose proof (ok_blooms _ F) as Hbl. unfold summative_required in Hbl. simpl in Hbl.
  rewrite Hstem. unfold isSummative.
  assert (Purpose_eqb (q_purpose q) summative && blankOpt (q_learningObjective q) = false)
    as -> by (destruct (Purpose_eqb _ _), (blankOpt _); simpl in *; congruence).
  assert (Purpose_eqb (q_purpose q) summative && negb (truthyOpt (q_bloomsLevel q)) = false)
    as -> by (destruct (Purpose_eqb _ _), (truthyOpt (q_bloomsLevel q));
              simpl in *; congruence).
  simpl. unfold typeErrors. destruct (q_type q) eqn:T.
  - assert (correctCount q = 1) as C.
    { destruct (Nat.eq_dec (correctCount q) 1) as [E|E]; [exact E|].
      rewrite <- correctCount_cast in E.
      apply (pre_save_H_CORRECT (cast q) T) in E. congruence. }
    rewrite (existsb_of_filter _ _ C).
    destruct (options_not_blank _ _ (ok_options _ F)) as [H1 H2].
    rewrite H1. unfold isFormative.
    destruct (Purpose_eqb (q_purpose q) formative) eqn:Pf; [|reflexivity].
    rewrite (H2 Pf). reflexivity.
  - rewrite (items_not_blank _ (ok_items _ F)).
    unfold ClientOnly in CO. rewrite T in CO.
    destruct (Nat.ltb_spec (length (q_items q)) 2); [lia | reflexivity].
  - unfold ClientOnly in CO. rewrite T in CO.
    destruct (Nat.eqb_spec (length (q_zones q)) 0); [lia | reflexivity].
Qed.

(** C1: the two validators disagree. The client-side validator reports
    [isValid = true] on the MCQ question [demoMcqTwoCorrect], which has two
    correct options, and on the ordering question with the order values
    1, 2, 3; the schema side refuses both in its hook. *)
Theorem C1_client_valid_schema_refuses :
  (isValid (validateQuestion demoMcqTwoCorrect) = true
   /\ save demoMcqTwoCorrect = HookFailed H_CORRECT)
  /\ (isValid (validateQuestion (demoOrdering "Sort the steps" [1; 2; 3]%Z)) = true
      /\ save (demoOrdering "Sort the steps" [1; 2; 3]%Z) = HookFailed H_ORDER).
Proof. repeat split; vm_compute; reflexivity. Qed.

(** ** C4: conditionally required fields *)

Lemma In_validateErrors (q : Question) (e : string) :
  In e (validateErrors q) <->
  (blank (q_stem q) = true /\ e = E_STEM)
  \/ (isSummative q && blankOpt (q_learningObjective q) = true /\ e = E_OBJECTIVE)
  \/ (isSummative q && negb (truthyOpt (q_bloomsLevel q)) = true /\ e = E_BLOOMS)
  \/ In e (typeErrors q).
Proof. rewrite validateErrors_checks, !in_app_iff, !In_cond. tauto. Qed.

Lemma isSummative_true (q : Question) : q_purpose q = summative -> isSummative q = true.
Proof. unfold isSummative. now intros ->. Qed.

Lemma isFormative_true (q : Question) : q_purpose q = formative -> isFormative q = true.
Proof. unfold isFormative. now intros ->. Qed.

Lemma failed_of_error (q : Question) (e : FieldError) :
  In e (validate (cast q)) -> save q = ValidationFailed (validate (cast q)).
Proof.
  intros H. apply save_ValidationFailed. intros E. rewrite E in H. destruct H.
Qed.

(** *** A summative question without a learning objective *)

Lemma objective_required (q : Question) :
  q_purpose q = summative -> blankOpt (q_learningObjective q) = true ->
  In E_OBJECTIVE (errors (validateQuestion q))
  /\ isValid (validateQuestion q) = false
  /\ In (mkError (PField "learningObjective") Required) (validate (cast q))
  /\ save q = ValidationFailed (validate (cast q)).
Proof.
  intros P B.
  assert (In E_OBJECTIVE (errors (validateQuestion q))) as C.
  { simpl. apply In_validateErrors. right; left.
    now rewrite (isSummative_true _ P), B. }
  assert (In (mkError (PField "learningObjective") Required) (validate (cast q))) as S.
  { unfold validate. rewrite !in_app_iff. right; left.
    unfold checkRequired, summative_required. simpl.
    rewrite P, truthyOpt_trimOpt, B. simpl. now left. }
  split; [exact C|]. split; [exact (invalid_of_error _ _ C)|].
  split; [exact S | exact (failed_of_error _ _ S)].
Qed.

(** *** A formative MCQ question with an option without feedback *)

Lemma feedback_error_of_blank (parent : Question) (index : nat) (l : list MCQOption) :
  feedback_required parent = true ->
  existsb (fun opt => blankOpt (o_feedback opt)) l = true ->
  exists k, In (mkError (PElem "options" k "feedback") Required)
               (validate_options parent index (map cast_option l)).
Proof.
  intros R. revert index. induction l as [|opt l IH]; intros index; simpl.
  - discriminate.
  - intros H. apply orb_true_iff in H as [H|H].
    + exists index. rewrite !in_app_iff. right; left.
      unfold checkRequired. rewrite R, truthyOpt_trimOpt, H. simpl. now left.
    + destruct (IH (S index) H) as [k Hk]. exists k.
      rewrite !in_app_iff. right; right. exact Hk.
Qed.

Lemma hook_feedback_check (this : Question) :
  q_type this = mcq -> q_purpose this = formative -> correctCount this = 1 ->
  existsb (fun opt => negb (truthyOpt (o_feedback opt))) (q_options this) = true ->
  pre_save this = Some H_FEEDBACK.
Proof.
  intros T P C H. rewrite (pre_save_of_mcq _ T). unfold pre_save_mcq.
  fold (correctCount this). now rewrite T, P, C, H.
Qed.

Lemma feedback_required_formative (q : Question) :
  q_type q = mcq -> q_purpose q = formative ->
  existsb (fun opt => blankOpt (o_feedback opt)) (q_options q) = true ->
  In E_FEEDBACK (errors (validateQuestion q))
  /\ isValid (validateQuestion q) = false
  /\ (exists k, In (mkError (PElem "options" k "feedback") Required)
                   (validate (cast q)))
  /\ save q = ValidationFailed (validate (cast q))
  /\ (correctCount q = 1 -> pre_save (cast q) = Some H_FEEDBACK).
Proof.
  intros T P B.
  assert (In E_FEEDBACK (errors (validateQuestion q))) as C.
  { simpl. apply In_validateErrors. right; right; right.
    unfold typeErrors. rewrite T, !in_app_iff, !In_cond.
    right; right. now rewrite (isFormative_true _ P), B. }
  assert (feedback_required (cast q) = true) as R
    by (unfold feedback_required; simpl; now rewrite P).
  destruct (feedback_error_of_blank (cast q) 0 (q_options q) R B) as [k Hk].
  assert (In (mkError (PElem "options" k "feedback") Required) (validate (cast q))) as S.
  { unfold validate. rewrite !in_app_iff. do 4 right. left. exact Hk. }
  split; [exact C|]. split; [exact (invalid_of_error _ _ C)|].
  split; [exists k; exact S|]. split; [exact (failed_of_error _ _ S)|].
  intros N. apply hook_feedback_check; auto.
  - now rewrite correctCount_cast.
  - simpl. rewrite existsb_map, <- B. apply existsb_ext.
    intros opt. simpl. now rewrite truthyOpt_trimOpt, negb_involutive.
Qed.

(** *** A summative question: no feedback requirement *)

Lemma no_client_feedback_error (q : Question) :
  q_purpose q = summative -> ~ In E_FEEDBACK (errors (validateQuestion q)).
Proof.
  intros P H. simpl in H. apply In_validateErrors in H.
  destruct H as [[_ H]|[[_ H]|[[_ H]|H]]]; try discriminate.
  unfold typeErrors, isFormative in H. rewrite P in H.
  destruct (q_type q); rewrite ?in_app_iff, !In_cond in H;
    repeat match goal with
           | H : _ \/ _ |- _ => destruct H as [H|H]
           | H : _ /\ _ |- _ => destruct H as [? H]
           end; discriminate.
Qed.

Lemma no_option_feedback_error (parent : Question) (k index : nat) (l : list MCQOption) :
  feedback_required parent = false ->
  ~ In (mkError (PElem "options" k "feedback") Required)
       (validate_options parent index l).
Proof.
  intros R. revert index. induction l as [|opt l IH]; intros index; simpl.
  - tauto.
  - rewrite !in_app_iff. unfold checkRequiredString, checkRequired. rewrite R. simpl.
    intros [H|[[]|H]].
    + destruct (truthy (o_text opt)); simpl in H; [destruct H|].
      destruct H as [H|[]]. discriminate.
    + exact (IH _ H).
Qed.

Lemma no_item_feedback_error (k index : nat) (l : list OrderingItem) :
  ~ In (mkError (PElem "options" k "feedback") Required) (validate_items index l).
Proof.
  revert index. induction l as [|item l IH]; intros index; simpl.
  - tauto.
  - rewrite in_app_iff. unfold checkRequiredString, checkRequired. simpl.
    intros [H|H].
    + destruct (truthy (i_text item)); simpl in H; [destruct H|].
      destruct H as [H|[]]. discriminate.
    + exact (IH _ H).
Qed.

Lemma no_schema_feedback_error (d : Question) (k : nat) :
  q_purpose d = summative ->
  ~ In (mkError (PElem "options" k "feedback") Required) (validate d).
Proof.
  intros P. unfold validate. rewrite !in_app_iff.
  assert (feedback_required d = false) as R by (unfold feedback_required; now rewrite P).
  intros [H|[H|[H|[H|[H|[H|H]]]]]].
  - unfold checkRequiredString, checkRequired in H.
    destruct (true && _); simpl in H; [destruct H as [H|[]]; discriminate | destruct H].
  - unfold checkRequired in H.
    destruct (_ && _); simpl in H; [destruct H as [H|[]]; discriminate | destruct H].
  - unfold validate_bloomsLevel in H.
    destruct (_ && _); simpl in H; [destruct H as [H|[]]; discriminate|].
    destruct (q_bloomsLevel d); [|destruct H].
    destruct (bloomsLevel_enum _); simpl in H;
      [destruct H | destruct H as [H|[]]; discriminate].
  - unfold validate_createdBy in H.
    destruct (q_createdBy d); [|destruct H as [H|[]]; discriminate].
    destruct (isObjectId _); simpl in H;
      [destruct H | destruct H as [H|[]]; discriminate].
  - exact (no_option_feedback_error _ _ _ _ R H).
  - exact (no_item_feedback_error _ _ _ H).
  - unfold validate_imageUrl, checkValidator in H.
    destruct (q_imageUrl d); [|destruct H].
    destruct (imageUrl_validator _); simpl in H; [destruct H | destruct H as [H|[]]; discriminate].
Qed.

Lemma no_hook_feedback_error (d : Question) :
  q_purpose d = summative -> pre_save d <> Some H_FEEDBACK.
Proof.
  intros P. unfold pre_save, pre_save_mcq, pre_save_ordering. rewrite P.
  destruct (q_type d); simpl.
  - destruct (negb _); discriminate.
  - destruct (checkSequential_result 0
                (sortBy byDifference (map i_order (q_items d)))) as [-> | ->];
      discriminate.
  - discriminate.
Qed.

Lemma eraseFeedback_same (q : Question) (options' : list MCQOption) :
  sameButFeedback (q_options q) options' ->
  eraseFeedback (set_options options' q) = eraseFeedback q.
Proof. unfold eraseFeedback, sameButFeedback, set_options. simpl. now intros ->. Qed.

Lemma validate_options_erase (parent parent' : Question) (index : nat)
      (l : list MCQOption) :
  feedback_required parent = false -> feedback_required parent' = false ->
  validate_options parent index (map cast_option (map withoutFeedback l))
  = validate_options parent' index (map cast_option l).
Proof.
  intros R R'. revert index. induction l as [|opt l IH]; intros index; simpl.
  - reflexivity.
  - unfold checkRequiredString, checkRequired. rewrite R, R'. simpl. now rewrite IH.
Qed.

Lemma filter_correct_erase (l : list MCQOption) :
  length (filter o_isCorrect (map withoutFeedback l)) = length (filter o_isCorrect l).
Proof.
  induction l as [|opt l IH]; simpl; [reflexivity|].
  destruct (o_isCorrect opt); simpl; now rewrite IH.
Qed.

(** On a summative question the client-side validator does not look at the
    feedback of the options. *)
Lemma validateQuestion_erase (q : Question) :
  q_purpose q = summative -> validateQuestion (eraseFeedback q) = validateQuestion q.
Proof.
  intros P. unfold validateQuestion.
  assert (validateErrors (eraseFeedback q) = validateErrors q) as ->; [|reflexivity].
  rewrite !validateErrors_checks. unfold typeErrors, isFormative, isSummative.
  cbn [eraseFeedback set_options q_stem q_purpose q_learningObjective q_bloomsLevel
       q_type q_options q_items q_zones].
  rewrite P, !existsb_map. reflexivity.
Qed.

(** Nor does the schema side. *)
Lemma save_erase (q : Question) :
  q_purpose q = summative -> save (eraseFeedback q) = save q.
Proof.
  intros P. unfold save.
  assert (feedback_required (cast q) = false) as R
    by (unfold feedback_required; simpl; now rewrite P).
  assert (feedback_required (cast (eraseFeedback q)) = false) as R'
    by (unfold feedback_required; simpl; now rewrite P).
  assert (validate (cast (eraseFeedback q)) = validate (cast q)) as ->.
  { unfold validate, validate_bloomsLevel, validate_createdBy,
      validate_imageUrl, summative_required.
    cbn [eraseFeedback set_options cast q_stem q_purpose q_learningObjective
         q_bloomsLevel q_createdBy q_type q_options q_items q_zones q_imageUrl].
    rewrite (validate_options_erase _ (cast q) 0 (q_options q) R' R).
    reflexivity. }
  assert (pre_save (cast (eraseFeedback q)) = pre_save (cast q)) as ->; [|reflexivity].
  unfold pre_save, pre_save_mcq, pre_save_ordering.
  cbn [eraseFeedback set_options cast q_purpose q_type q_options q_items].
  rewrite P. cbn [Purpose_eqb].
  assert (length (filter o_isCorrect (map cast_option (map withoutFeedback (q_options q))))
          = length (filter o_isCorrect (map cast_option (q_options q)))) as ->;
    [|reflexivity].
  pose proof (correctCount_cast q) as C.
  pose proof (correctCount_cast (eraseFeedback q)) as C'.
  unfold correctCount in C, C'.
  cbn [eraseFeedback set_options cast q_options] in C, C'.
  now rewrite C, C', filter_correct_erase.
Qed.

Lemma no_feedback_requirement (q : Question) :
  q_purpose q = summative ->
  ~ In E_FEEDBACK (errors (validateQuestion q))
  /\ (forall k, ~ In (mkError (PElem "options" k "feedback") Required)
                     (validate (cast q)))
  /\ pre_save (cast q) <> Some H_FEEDBACK
  /\ (forall options', sameButFeedback (q_options q) options' ->
        validateQuestion (set_options options' q) = validateQuestion q
        /\ save (set_options options' q) = save q).
Proof.
  intros P. split; [exact (no_client_feedback_error _ P)|].
  split; [intros k; exact (no_schema_feedback_error (cast q) k P)|].
  split; [exact (no_hook_feedback_error (cast q) P)|].
  intros options' S.
  assert (q_purpose (set_options options' q) = summative) as P' by exact P.
  split.
  - now rewrite <- (validateQuestion_erase _ P'), (eraseFeedback_same _ _ S),
      validateQuestion_erase.
  - now rewrite <- (save_erase _ P'), (eraseFeedback_same _ _ S), save_erase.
Qed.

(** C4: a summative question whose learning objective is missing or blank
    fails both validators, each with its error about the learning objective;
    a formative MCQ question with an option whose feedback is missing or
    blank fails both validators, each with its error about feedback (the
    field-level validation on the schema side, and the hook too when it is
    run on such a document with one correct option); and the same MCQ
    question made summative meets no feedback requirement: neither validator
    reports a feedback error, and neither result depends on the feedback of
    the options. *)
Theorem C4_conditionally_required (q : Question) :
  (q_purpose q = summative -> blankOpt (q_learningObjective q) = true ->
   In E_OBJECTIVE (errors (validateQuestion q))
   /\ isValid (validateQuestion q) = false
   /\ In (mkError (PField "learningObjective") Required) (validate (cast q))
   /\ save q = ValidationFailed (validate (cast q)))
  /\ (q_type q = mcq -> q_purpose q = formative ->
      existsb (fun opt => blankOpt (o_feedback opt)) (q_options q) = true ->
      In E_FEEDBACK (errors (validateQuestion q))
      /\ isValid (validateQuestion q) = false
      /\ (exists k, In (mkError (PElem "options" k "feedback") Required)
                       (validate (cast q)))
      /\ save q = ValidationFailed (validate (cast q))
      /\ (correctCount q = 1 -> pre_save (cast q) = Some H_FEEDBACK))
  /\ (q_type q = mcq ->
      let q' := set_purpose summative q in
      ~ In E_FEEDBACK (errors (validateQuestion q'))
      /\ (forall k, ~ In (mkError (PElem "options" k "feedback") Required)
                         (validate (cast q')))
      /\ pre_save (cast q') <> Some H_FEEDBACK
      /\ (forall options', sameButFeedback (q_options q') options' ->
            validateQuestion (set_options options' q') = validateQuestion q'
            /\ save (set_options options' q') = save q')).
Proof.
  split; [exact (objective_required q)|].
  split; [exact (feedback_required_formative q)|].
  intros _ q'. apply no_feedback_requirement. reflexivity.
Qed.

Lemma C4_conditionally_required_witness :
  (q_purpose demoSummative = summative
   /\ blankOpt (q_learningObjective demoSummative) = true
   /\ In E_OBJECTIVE (errors (validateQuestion demoSummative))
   /\ In (mkError (PField "learningObjective") Required) (validate (cast demoSummative)))
  /\ (q_type demoMcqNoFeedback = mcq
      /\ q_purpose demoMcqNoFeedback = formative
      /\ existsb (fun opt => blankOpt (o_feedback opt)) (q_options demoMcqNoFeedback) = true
      /\ In E_FEEDBACK (errors (validateQuestion demoMcqNoFeedback))
      /\ ~ In E_FEEDBACK (errors (validateQuestion (set_purpose summative demoMcqNoFeedback)))).
Proof.
  split.
  - destruct (proj1 (C4_conditionally_required demoSummative) eq_refl eq_refl)
      as (H1 & _ & H3 & _).
    repeat split; [exact H1 | exact H3].
  - destruct (proj1 (proj2 (C4_conditionally_required demoMcqNoFeedback))
                eq_refl eq_refl eq_refl) as (H1 & _).
    destruct (proj2 (proj2 (C4_conditionally_required demoMcqNoFeedback)) eq_refl)
      as (H2 & _).
    repeat split; [exact H1 | exact H2].
Defined.

(** ** C5: the least a hotspot question needs *)

Lemma validate_options_paths (parent : Question) (index : nat) (l : list MCQOption)
      (e : FieldError) :
  In e (validate_options parent index l) -> exists k name, e_path e = PElem "options" k name.
Proof.
  revert index. induction l as [|opt l IH]; intros index; simpl; [tauto|].
  rewrite !in_app_iff. unfold checkRequiredString, checkRequired.
  intros [H|[H|H]].
  - destruct (true && _); simpl in H; [|destruct H].
    destruct H as [<-|[]]. simpl. eauto.
  - destruct (_ && _); simpl in H; [|destruct H].
    destruct H as [<-|[]]. simpl. eauto.
  - exact (IH _ H).
Qed.

Lemma validate_items_paths (index : nat) (l : list OrderingItem) (e : FieldError) :
  In e (validate_items index l) -> exists k name, e_path e = PElem "items" k name.
Proof.
  revert index. induction l as [|item l IH]; intros index; simpl; [tauto|].
  rewrite !in_app_iff. unfold checkRequiredString, checkRequired.
  intros [H|H].
  - destruct (true && _); simpl in H; [|destruct H].
    destruct H as [<-|[]]. simpl. eauto.
  - exact (IH _ H).
Qed.

(** The paths the validation can report on. *)
Lemma validate_paths (d : Question) (e : FieldError) :
  In e (validate d) ->
  In (e_path e) [ PField "stem"; PField "learningObjective"; PField "bloomsLevel";
                  PField "createdBy"; PField "imageUrl" ]
  \/ exists array k name, e_path e = PElem array k name.
Proof.
  unfold validate. rewrite !in_app_iff.
  intros [H|[H|[H|[H|[H|[H|H]]]]]].
  - left. unfold checkRequiredString, checkRequired in H.
    destruct (true && _); simpl in H; [|destruct H]. destruct H as [<-|[]].
    simpl. auto.
  - left. unfold checkRequired in H.
    destruct (_ && _); simpl in H; [|destruct H]. destruct H as [<-|[]].
    simpl. auto.
  - left. unfold validate_bloomsLevel in H.
    destruct (_ && _); simpl in H; [destruct H as [<-|[]]; simpl; auto|].
    destruct (q_bloomsLevel d); [|destruct H].
    destruct (bloomsLevel_enum _); simpl in H; [destruct H|].
    destruct H as [<-|[]]. simpl. auto.
  - left. unfold validate_createdBy in H.
    destruct (q_createdBy d); [|destruct H as [<-|[]]; simpl; auto].
    destruct (isObjectId _); simpl in H; [destruct H|].
    destruct H as [<-|[]]. simpl. auto.
  - right. destruct (validate_options_paths _ _ _ _ H) as (k & name & E). eauto.
  - right. destruct (validate_items_paths _ _ _ H) as (k & name & E). eauto.
  - left. unfold validate_imageUrl, checkValidator in H.
    destruct (q_imageUrl d); [|destruct H].
    destruct (imageUrl_validator _); simpl in H; [destruct H|].
    destruct H as [<-|[]]. simpl. auto 6.
Qed.

(** No rule that is run is about the arrays [options], [items] and [zones]
    themselves: the validation reports nothing on these paths. *)
Lemma no_array_error (d : Question) (e : FieldError) :
  In e (validate d) ->
  e_path e <> PField "options" /\ e_path e <> PField "items"
  /\ e_path e <> PField "zones".
Proof.
  intros H. destruct (validate_paths d e H) as [I|(array & k & name & ->)].
  - simpl in I. destruct I as [<-|[<-|[<-|[<-|[<-|[]]]]]];
      repeat split; discriminate.
  - repeat split; discriminate.
Qed.

(** A hotspot document without zones: the client side refuses it, the
    validator the schema declares for [zones] is false of it, and the schema
    side, which does not run that validator, persists it when its other
    fields are in order. *)
Lemma hotspot_without_zones (q : Question) :
  q_type q = hotspot -> q_zones q = [] ->
  In E_ZONE (errors (validateQuestion q))
  /\ isValid (validateQuestion q) = false
  /\ zones_validator (cast q) (q_zones (cast q)) = false
  /\ (forall e, In e (validate (cast q)) -> e_path e <> PField "zones")
  /\ (save q = Saved <-> FieldsOk (cast q)).
Proof.
  intros T Z.
  assert (In E_ZONE (errors (validateQuestion q))) as C.
  { simpl. apply In_validateErrors. do 3 right.
    unfold typeErrors. rewrite T, Z. now left. }
  split; [exact C|]. split; [exact (invalid_of_error _ _ C)|]. split.
  { unfold zones_validator. cbn [cast q_type q_zones]. now rewrite T, Z. }
  split.
  { intros e H. now apply (no_array_error (cast q) e). }
  rewrite save_Saved_iff.
  assert (pre_save (cast q) = None) as P
    by (unfold pre_save, pre_save_mcq, pre_save_ordering; cbn [cast q_type];
        now rewrite T).
  tauto.
Qed.

Lemma finishZone_too_few (question : Question) (d : Drawing) (g : IdGen) :
  length (currentZone d) < 3 ->
  finishZone question d g = ((None, mkDrawing false []), g).
Proof.
  intros H. unfold finishZone, bind, ret.
  destruct (Nat.leb_spec 3 (length (currentZone d))); [lia | reflexivity].
Qed.

Lemma finishZone_added (question question' : Question) (d : Drawing) (g : IdGen) :
  fst (fst (finishZone question d g)) = Some question' ->
  exists zone,
    question' = set_zones (q_zones question ++ [zone]) question
    /\ z_coordinates zone = currentZone d
    /\ 3 <= length (z_coordinates zone).
Proof.
  unfold finishZone, bind, ret.
  destruct (Nat.leb_spec 3 (length (currentZone d))) as [L|L]; simpl; [|discriminate].
  intros H. injection H as <-. eexists. split; [reflexivity|]. simpl. auto.
Qed.

(** C5: a hotspot question without zones fails the client-side validator,
    with its error about the missing zone, and not the schema side: the
    validator the schema declares for [zones], which is false of such a
    document, is not run, the validation reports nothing on [zones], and
    the document is persisted when its other fields are in order, as
    [demoZoneless] is. [finishZone] does not call [onChange] when fewer than
    3 points were drawn, so that a zone it adds to the question has the drawn
    points as its coordinates, at least 3 of them; in both cases the drawing
    is reset. *)
Theorem C5_zero_zones_persisted (q question : Question) (d : Drawing) (g : IdGen) :
  (q_type q = hotspot -> q_zones q = [] ->
   In E_ZONE (errors (validateQuestion q))
   /\ isValid (validateQuestion q) = false
   /\ zones_validator (cast q) (q_zones (cast q)) = false
   /\ (forall e, In e (validate (cast q)) -> e_path e <> PField "zones")
   /\ (save q = Saved <-> FieldsOk (cast q)))
  /\ (q_type demoZoneless = hotspot /\ q_zones demoZoneless = []
      /\ validateQuestion demoZoneless = mkResult false [E_ZONE]
      /\ save demoZoneless = Saved)
  /\ (length (currentZone d) < 3 ->
      finishZone question d g = ((None, mkDrawing false []), g))
  /\ (forall question', fst (fst (finishZone question d g)) = Some question' ->
      exists zone,
        question' = set_zones (q_zones question ++ [zone]) question
        /\ z_coordinates zone = currentZone d
        /\ 3 <= length (z_coordinates zone))
  /\ snd (fst (finishZone question d g)) = mkDrawing false [].
Proof.
  split; [exact (hotspot_without_zones q)|].
  split; [repeat split; vm_compute; reflexivity|].
  split; [exact (finishZone_too_few question d g)|].
  split; [intros question'; exact (finishZone_added question question' d g)|].
  unfold finishZone, bind, ret.
  destruct (3 <=? length (currentZone d))%nat; reflexivity.
Qed.

Lemma C5_zero_zones_persisted_witness :
  (q_type demoZoneless = hotspot /\ q_zones demoZoneless = []
   /\ isValid (validateQuestion demoZoneless) = false
   /\ zones_validator (cast demoZoneless) (q_zones (cast demoZoneless)) = false
   /\ save demoZoneless = Saved)
  /\ (length (currentZone twoPoints) < 3
      /\ finishZone demoHotspot twoPoints demoGen = ((None, mkDrawing false []), demoGen))
  /\ (exists zone,
        fst (fst (finishZone demoHotspot threePoints demoGen))
        = Some (set_zones (q_zones demoHotspot ++ [zone]) demoHotspot)
        /\ 3 <= length (z_coordinates zone)).
Proof.
  pose proof (C5_zero_zones_persisted demoZoneless demoHotspot twoPoints demoGen)
    as (H1 & (_ & _ & _ & S) & H2 & _).
  pose proof (C5_zero_zones_persisted demoZoneless demoHotspot threePoints demoGen)
    as (_ & _ & _ & H3 & _).
  split; [|split].
  - destruct (H1 eq_refl eq_refl) as (_ & V & Z & _). repeat split; assumption.
  - assert (length (currentZone twoPoints) < 3) as L by (vm_compute; lia).
    split; [exact L | exact (H2 L)].
  - destruct (H3 _ eq_refl) as (zone & E & _ & L).
    exists zone. split; [|exact L]. simpl. f_equal. exact E.
Defined.

(** ** C6: duplicating a question *)

Lemma filter_cond (b : bool) (e : string) :
  notStemError e = true -> filter notStemError (cond b e) = cond b e.
Proof. intros H. destruct b; simpl; [now rewrite H | reflexivity]. Qed.

Lemma filter_restErrors (q : Question) :
  filter notStemError (restErrors q) = restErrors q.
Proof.
  unfold restErrors, typeErrors.
  destruct (q_type q); rewrite !filter_app, !filter_cond by reflexivity; reflexivity.
Qed.

Lemma copy_not_blank (s : string) : blank (s ++ " (Copy)") = false.
Proof. rewrite blank_append. apply andb_false_r. Qed.

(** The validator reads neither the identifier nor, the stem check apart,
    the stem. *)
Lemma restErrors_set_id_stem (q : Question) (i s : string) :
  restErrors (set_stem s (set_id i q)) = restErrors q.
Proof. reflexivity. Qed.

Lemma validateQuestion_set_id (q : Question) (i : string) :
  validateQuestion (set_id i q) = validateQuestion q.
Proof. unfold validateQuestion. now rewrite !validateErrors_checks. Qed.

Lemma validateErrors_duplicated (q : Question) (g : IdGen) :
  validateErrors (fst (duplicated q g)) = filter notStemError (validateErrors q).
Proof.
  unfold duplicated, bind, ret, generateId. cbn [fst].
  rewrite !validateErrors_checks. fold (restErrors q).
  fold (restErrors (set_stem (q_stem q ++ " (Copy)")
                      (set_id (draws g (next g)) q))).
  rewrite restErrors_set_id_stem. cbn [set_stem q_stem].
  rewrite copy_not_blank, filter_app, filter_restErrors.
  destruct (blank (q_stem q)); reflexivity.
Qed.

(** C6, the claim as stated, fails: the duplicate of [demoUntitled] made
    with [repeatingGen] has the identifier of the original, and it is valid
    where the original is not (its stem " (Copy)" is not blank). *)
Lemma C6_duplicate_differs :
  let dup := fst (duplicated demoUntitled repeatingGen) in
  q_id dup = q_id demoUntitled
  /\ validateQuestion demoUntitled = mkResult false [E_STEM]
  /\ validateQuestion dup = mkResult true []
  /\ validateQuestion dup <> validateQuestion demoUntitled
  /\ ~ (q_id dup <> q_id demoUntitled).
Proof.
  cbv zeta. split; [reflexivity|]. split; [reflexivity|]. split; [reflexivity|].
  split; [discriminate|]. intros H. apply H. reflexivity.
Qed.

(** C6, amended: [duplicateQuestion q] appends to the collection, and makes
    current, a question whose identifier is the one [generateId] yields (so
    it differs from q's whenever that one does), whose stem is q's stem
    followed by " (Copy)", and whose other fields are those of q; the
    validator, which does not read the identifier, reports on the duplicate
    the errors it reports on q except 'Question stem is required', so the
    same result as on q whenever the stem of q is not blank. *)
Theorem C6_duplicate (q : Question) (st : AssessmentState) (g : IdGen) :
  let dup := fst (duplicated q g) in
  fst (duplicateQuestion q st g) = mkState (questions st ++ [dup]) (Some (q_id dup))
  /\ q_id dup = fst (generateId g)
  /\ (fst (generateId g) <> q_id q -> q_id dup <> q_id q)
  /\ q_stem dup = (q_stem q ++ " (Copy)")%string
  /\ set_stem (q_stem q) (set_id (q_id q) dup) = q
  /\ (forall i, validateQuestion (set_id i dup) = validateQuestion dup)
  /\ errors (validateQuestion dup) = filter notStemError (errors (validateQuestion q))
  /\ (blank (q_stem q) = false -> validateQuestion dup = validateQuestion q).
Proof.
  intros dup.
  assert (errors (validateQuestion dup) = filter notStemError (errors (validateQuestion q)))
    as E by apply validateErrors_duplicated.
  split; [reflexivity|]. split; [reflexivity|]. split; [intros H; exact H|].
  split; [reflexivity|]. split; [destruct q; reflexivity|].
  split; [intros i; apply validateQuestion_set_id|]. split; [exact E|].
  intros B. unfold validateQuestion in *. cbn [errors] in E. rewrite E.
  rewrite (validateErrors_checks q), B. cbn [cond app]. fold (restErrors q).
  now rewrite filter_restErrors.
Qed.

Lemma C6_duplicate_witness :
  let dup := fst (duplicated demoMcq demoGen) in
  fst (generateId demoGen) <> q_id demoMcq
  /\ blank (q_stem demoMcq) = false
  /\ q_id dup <> q_id demoMcq
  /\ validateQuestion dup = validateQuestion demoMcq.
Proof.
  pose proof (C6_duplicate demoMcq (mkState [demoMcq] None) demoGen)
    as (_ & _ & H1 & _ & _ & _ & _ & H2).
  assert (fst (generateId demoGen) <> q_id demoMcq) as N by (vm_compute; discriminate).
  assert (blank (q_stem demoMcq) = false) as B by (vm_compute; reflexivity).
  cbv zeta. split; [exact N|]. split; [exact B|].
  split; [exact (H1 N) | exact (H2 B)].
Defined.

(** ** C7: the empty question of each type *)

(** C7, the claim as stated, fails: the empty hotspot question has no zone. *)
Lemma C7_empty_hotspot_has_no_zone :
  q_type (fst (createEmptyQuestion hotspot demoGen)) = hotspot
  /\ stubCount (fst (createEmptyQuestion hotspot demoGen)) = 0
  /\ ~ (2 <= stubCount (fst (createEmptyQuestion hotspot demoGen)) <= 4).
Proof.
  split; [reflexivity|]. split; [reflexivity|]. vm_compute. lia.
Qed.

(** C7, amended: [createEmptyQuestion type] returns a formative question of
    that type with an empty stem and with 4 options for mcq, 3 items for
    ordering and no zone (and an empty image URL) for hotspot, the payloads
    of the other types being empty; its sub-items have empty texts, the
    second option is the correct one and the items have the orders 0, 1, 2. *)
Theorem C7_createEmptyQuestion (type : QuestionType) (g : IdGen) :
  let q := fst (createEmptyQuestion type g) in
  q_type q = type
  /\ q_stem q = ""
  /\ q_purpose q = formative
  /\ stubCount q = match type with mcq => 4 | ordering => 3 | hotspot => 0 end
  /\ length (q_options q) + length (q_items q) + length (q_zones q) = stubCount q
  /\ map o_text (q_options q) = repeat "" (length (q_options q))
  /\ map i_text (q_items q) = repeat "" (length (q_items q))
  /\ map o_isCorrect (q_options q)
     = match type with mcq => [false; true; false; false] | _ => [] end
  /\ orderValues q = match type with ordering => [0; 1; 2]%Z | _ => [] end
  /\ q_imageUrl q = match type with hotspot => Some "" | _ => None end.
Proof. destruct type; repeat split. Qed.

(** ** C8: the format of [imageUrl] *)

Section RegexFacts.

Lemma test_Void (s : string) : test Void s = false.
Proof. induction s as [|c s IH]; simpl; auto. Qed.

Lemma test_Alt (a b : re) (s : string) : test (Alt a b) s = test a s || test b s.
Proof.
  revert a b. induction s as [|c s IH]; intros a b; simpl.
  - now rewrite !orb_false_r.
  - rewrite IH. destruct (nullable a), (nullable b), (test (deriv c a) s); reflexivity.
Qed.

Lemma test_Seq_Void (r : re) (s : string) : test (Seq Void r) s = false.
Proof.
  induction s as [|c s IH]; simpl; [reflexivity|].
  now rewrite test_Alt, IH, test_Void.
Qed.

Lemma test_Seq_Eps (r : re) (s : string) : test (Seq Eps r) s = test r s.
Proof.
  destruct s as [|c s]; simpl; [reflexivity|].
  now rewrite test_Alt, test_Seq_Void.
Qed.

Lemma test_Seq_Chr (c : ascii) (r : re) (s : string) :
  test (Seq (Chr c) r) s =
    match s with
    | EmptyString => false
    | String c' s' => Ascii.eqb c' c && test r s'
    end.
Proof.
  destruct s as [|c' s]; simpl; [reflexivity|].
  rewrite test_Alt, test_Void, orb_false_r.
  destruct (Ascii.eqb c' c); [apply test_Seq_Eps | apply test_Seq_Void].
Qed.

Lemma test_Seq_Chr_same (c : ascii) (r : re) (s : string) :
  test (Seq (Chr c) r) (String c s) = test r s.
Proof. now rewrite test_Seq_Chr, Ascii.eqb_refl. Qed.

Lemma test_Seq_Alt (a b r : re) (s : string) :
  test (Seq (Alt a b) r) s = test (Seq a r) s || test (Seq b r) s.
Proof.
  revert a b. induction s as [|c s IH]; intros a b; simpl.
  - rewrite !orb_false_r. destruct (nullable a), (nullable b), (nullable r); reflexivity.
  - rewrite !test_Alt, IH.
    destruct (nullable a), (nullable b), (nullable r); simpl;
      rewrite ?test_Void, ?orb_false_r;
      destruct (test (Seq (deriv c a) r) s), (test (Seq (deriv c b) r) s),
        (test (deriv c r) s); reflexivity.
Qed.

Lemma test_Seq_Opt (a r : re) (s : string) :
  test (Seq (Opt a) r) s = test (Seq a r) s || test r s.
Proof. unfold Opt. now rewrite test_Seq_Alt, test_Seq_Eps. Qed.

Lemma test_Plus_Dot (s : string) :
  test (Plus Dot) s =
    match s with
    | EmptyString => false
    | String c _ => negb (isLineTerminator c)
    end.
Proof.
  destruct s as [|c s]; simpl; [reflexivity|].
  rewrite test_Alt, test_Void, orb_false_r.
  destruct (isLineTerminator c); simpl.
  - apply test_Seq_Void.
  - rewrite test_Seq_Eps. now destruct s.
Qed.

End RegexFacts.

Ltac next_char H s :=
  rewrite test_Seq_Chr in H;
  destruct s as [|? s]; [discriminate H|];
  let E := fresh "E" in
  apply andb_true_iff in H as [E H]; apply Ascii.eqb_eq in E; subst.

Lemma test_tail (s : string) :
  test (Seq (Chr ":") (Seq (Chr "/") (Seq (Chr "/") (Plus Dot)))) s = true
  <-> exists c rest, s = ("://" ++ String c rest)%string /\ isLineTerminator c = false.
Proof.
  split.
  - intros H. next_char H s. next_char H s. next_char H s.
    rewrite test_Plus_Dot in H. destruct s as [|c s]; [discriminate|].
    exists c, s. split; [reflexivity | now apply negb_true_iff].
  - intros (c & rest & -> & L). simpl append.
    rewrite !test_Seq_Chr_same, test_Plus_Dot, L. reflexivity.
Qed.

(** The pattern [/^https?:\/\/.+/] matches exactly the strings of that form. *)
Lemma test_imageUrl_pattern (url : string) :
  test imageUrl_pattern url = true <-> UrlShape url.
Proof.
  unfold imageUrl_pattern, UrlShape. split.
  - intros H. next_char H url. next_char H url. next_char H url. next_char H url.
    rewrite test_Seq_Opt in H. apply orb_true_iff in H as [H|H].
    + next_char H url. apply test_tail in H as (c & rest & -> & L).
      exists "https://", c, rest. auto.
    + apply test_tail in H as (c & rest & -> & L).
      exists "http://", c, rest. auto.
  - intros (scheme & c & rest & [-> | ->] & -> & L); simpl append;
      rewrite !test_Seq_Chr_same, test_Seq_Opt.
    + apply orb_true_iff. right. apply test_tail.
      exists c, rest. split; [reflexivity | exact L].
    + apply orb_true_iff. left. rewrite test_Seq_Chr_same. apply test_tail.
      exists c, rest. split; [reflexivity | exact L].
Qed.

Lemma imageUrl_validator_iff (url : string) :
  imageUrl_validator url = true <-> url = "" \/ UrlShape url.
Proof.
  unfold imageUrl_validator. rewrite orb_true_iff, test_imageUrl_pattern.
  destruct url; simpl; split; intros [H|H]; auto; discriminate.
Qed.

Lemma imageUrlOk_iff (d : Question) : imageUrlOk d = true <-> AcceptableUrl d.
Proof.
  unfold imageUrlOk, AcceptableUrl. destruct (q_imageUrl d) as [url|].
  - rewrite imageUrl_validator_iff. split.
    + intros [-> | H]; [now right; left | right; right; now exists url].
    + intros [H|[H|(u & H & S)]]; [discriminate | | ];
        injection H as ->; auto.
  - split; auto.
Qed.

(** C8: the validator of [imageUrl] accepts the stored value of a document
    (of any type, a hotspot question in particular) exactly when the value
    is absent, or empty, or matches [^https?://.+], that is starts with
    [http://] or [https://] followed by a code unit that is not a line
    terminator; an absent or empty value is always accepted; any other
    value gives the validation error 'Image URL must be a valid HTTP/HTTPS
    URL' on the path [imageUrl], and the document is not saved. *)
Theorem C8_imageUrl_format (d : Question) :
  let e := mkError (PField "imageUrl") (UserDefined M_IMAGE_URL) in
  (validate_imageUrl d = [] <-> AcceptableUrl d)
  /\ (forall url, imageUrl_validator url = true
                  <-> url = "" \/ test imageUrl_pattern url = true)
  /\ (forall url, test imageUrl_pattern url = true <-> UrlShape url)
  /\ (q_imageUrl d = None \/ q_imageUrl d = Some "" -> validate_imageUrl d = [])
  /\ (~ AcceptableUrl d -> validate_imageUrl d = [e] /\ In e (validate d))
  /\ (forall q, cast q = d -> ~ AcceptableUrl d ->
        save q = ValidationFailed (validate d) /\ In e (validate d)).
Proof.
  intros e.
  assert (validate_imageUrl d = [] <-> AcceptableUrl d) as A
    by (rewrite validate_imageUrl_nil; apply imageUrlOk_iff).
  assert (~ AcceptableUrl d -> validate_imageUrl d = [e] /\ In e (validate d)) as R.
  { intros N.
    assert (validate_imageUrl d = [e]) as V.
    { unfold validate_imageUrl, checkValidator in *.
      destruct (q_imageUrl d) as [url|]; [|tauto].
      destruct (imageUrl_validator url); tauto. }
    split; [exact V|]. unfold validate. rewrite !in_app_iff, V.
    do 6 right. now left. }
  split; [exact A|]. split.
  { intros url. unfold imageUrl_validator. rewrite orb_true_iff.
    destruct url; simpl; split; intros [H|H]; auto; discriminate. }
  split; [exact test_imageUrl_pattern|]. split.
  { intros H. apply A. unfold AcceptableUrl. tauto. }
  split; [exact R|].
  intros q <- N. destruct (R N) as [_ I]. split; [|exact I].
  exact (failed_of_error _ _ I).
Qed.

Lemma C8_imageUrl_format_witness :
  (q_imageUrl (demoImage (Some "")) = Some ""
   /\ validate_imageUrl (demoImage (Some "")) = [])
  /\ (~ AcceptableUrl (demoImage (Some "ftp://example.org/valve.png"))
      /\ save (demoImage (Some "ftp://example.org/valve.png"))
         = ValidationFailed
             [mkError (PField "imageUrl") (UserDefined M_IMAGE_URL)]).
Proof.
  split.
  - split; [reflexivity|].
    apply (proj1 (proj2 (proj2 (proj2 (C8_imageUrl_format (demoImage (Some ""))))))).
    right. reflexivity.
  - assert (~ AcceptableUrl (demoImage (Some "ftp://example.org/valve.png"))) as N.
    { intros [H|[H|(url & H & scheme & c & rest & [-> | ->] & -> & _)]];
        discriminate H. }
    split; [exact N|].
    exact (proj1 (proj2 (proj2 (proj2 (proj2 (proj2
             (C8_imageUrl_format (demoImage (Some "ftp://example.org/valve.png")))))))
             (demoImage (Some "ftp://example.org/valve.png")) eq_refl N)).
Defined.

Example https_url_accepted :
  save (demoImage (Some "https://example.org/valve.png")) = Saved.
Proof. vm_compute. reflexivity. Qed.

Example padded_url_is_trimmed :
  save (demoImage (Some "  http://example.org/valve.png ")) = Saved.
Proof. vm_compute. reflexivity. Qed.

Example scheme_alone_refused :
  save (demoImage (Some "http://"))
  = ValidationFailed [mkError (PField "imageUrl") (UserDefined M_IMAGE_URL)].
Proof. vm_compute. reflexivity. Qed.

(** ** C9: the client-side validator is a function of the question *)

Lemma callValidateQuestion_spec (q : Question) :
  callValidateQuestion q = (validateQuestion q, q).
Proof.
  unfold callValidateQuestion. rewrite validateBody_question. reflexivity.
Qed.

Lemma errors_in_check_order (q : Question) :
  subsequence (errors (validateQuestion q)) checkOrder = true.
Proof.
  cbn [validateQuestion errors]. rewrite validateErrors_checks. unfold typeErrors.
  destruct (q_type q);
    repeat match goal with
           | |- context [cond ?b _] =>
               let B := fresh "B" in
               remember b as B eqn:HB; clear HB; destruct B; cbn [cond]
           end; vm_compute; reflexivity.
Qed.

(** C9: a call of [validateQuestion] leaves the question as it was, and a
    second call on it returns the result of the first: the same [isValid]
    and the same errors in the same order. Nothing of an earlier call is
    left in the array [errors]; the errors come in the order of the checks;
    and [isValid] says whether there is none. *)
Theorem C9_validateQuestion_pure (q : Question) :
  let (first, q1) := callValidateQuestion q in
  let (second, q2) := callValidateQuestion q1 in
  q1 = q /\ q2 = q
  /\ first = second
  /\ first = validateQuestion q
  /\ (forall earlier,
        validateBody (mkFrame q earlier) = mkFrame q (earlier ++ errors first))
  /\ subsequence (errors first) checkOrder = true
  /\ (isValid first = true <-> errors first = []).
Proof.
  rewrite callValidateQuestion_spec, callValidateQuestion_spec.
  split; [reflexivity|]. split; [reflexivity|]. split; [reflexivity|].
  split; [reflexivity|]. split.
  - intros earlier. now rewrite (Appends_validateBody (mkFrame q earlier)).
  - split; [apply errors_in_check_order | apply isValid_iff].
Qed.

(** ** C10: the order values under the editor's actions *)

Section OrderingEditor.

Lemma mapIndexed_length {A B} (f : A -> nat -> B) (index : nat) (l : list A) :
  length (mapIndexed f index l) = length l.
Proof.
  revert index. induction l as [|a l IH]; intros index; simpl; [reflexivity|].
  now rewrite IH.
Qed.

Lemma renumber_from (index : nat) (l : list OrderingItem) :
  map i_order
    (mapIndexed (fun item k => mkItem (i_id item) (i_text item) (Z.of_nat k)) index l)
  = upFrom (Z.of_nat index) (length l).
Proof.
  revert index. induction l as [|a l IH]; intros index; simpl; [reflexivity|].
  rewrite IH. do 2 f_equal. lia.
Qed.

(** Renumbered items are sequential, whatever they were. *)
Lemma renumber_Sequential (l : list OrderingItem) (q : Question) :
  Sequential (set_items (renumber l) q).
Proof.
  unfold Sequential, orderValues, renumber. cbn [set_items q_items].
  now rewrite renumber_from, mapIndexed_length.
Qed.

Lemma upFrom_snoc (i : Z) (n : nat) :
  upFrom i (n + 1) = upFrom i n ++ [(i + Z.of_nat n)%Z].
Proof.
  revert i. induction n as [|n IH]; intros i.
  - simpl. do 2 f_equal. lia.
  - cbn [Nat.add upFrom app]. rewrite IH. do 3 f_equal. lia.
Qed.

Lemma updateStem_Sequential (q q' : Question) (stem : string) :
  Sequential q -> updateStem q stem = Some q' -> Sequential q'.
Proof. intros S H. injection H as <-. exact S. Qed.

Lemma updateItem_Sequential (q q' : Question) (itemId text : string) :
  Sequential q -> updateItem q itemId text = Some q' -> Sequential q'.
Proof.
  intros S H. injection H as <-. unfold Sequential, orderValues in *.
  cbn [set_items q_items]. rewrite length_map, map_map, <- S.
  apply map_ext. intros item. now destruct (String.eqb (i_id item) itemId).
Qed.

(** [addItem] gives the new item the number of items as its order. *)
Lemma addItem_Sequential (q q' : Question) (g : IdGen) :
  Sequential q -> fst (addItem q g) = Some q' -> Sequential q'.
Proof.
  intros S H. unfold addItem, bind, ret, generateId in H. cbn in H.
  injection H as <-. unfold Sequential, orderValues in *.
  cbn [set_items q_items]. rewrite map_app, length_app, S. cbn [map length i_order].
  unfold indices. now rewrite upFrom_snoc.
Qed.

Lemma removeItem_Sequential (q q' : Question) (itemId : string) :
  removeItem q itemId = Some q' -> Sequential q'.
Proof.
  unfold removeItem. destruct (2 <? length (q_items q))%nat; [|discriminate].
  intros H. injection H as <-. apply renumber_Sequential.
Qed.

Lemma renumberMoved_orders_from (index : nat) (l : list (option OrderingItem)) :
  map orderOf
    (mapIndexed (fun element k =>
                   match element with
                   | Some item => AnItem (mkItem (i_id item) (i_text item) (Z.of_nat k))
                   | None => OrderOnly (Z.of_nat k)
                   end) index l)
  = upFrom (Z.of_nat index) (length l).
Proof.
  revert index. induction l as [|a l IH]; intros index; simpl; [reflexivity|].
  rewrite IH. f_equal; [now destruct a | f_equal; lia].
Qed.

(** The objects of the renumbering carry the orders 0 .. n-1, whatever the
    elements were. *)
Lemma renumberMoved_orders (l : list (option OrderingItem)) :
  map orderOf (renumberMoved l) = indices (length l).
Proof. apply renumberMoved_orders_from. Qed.

Lemma renumberMoved_length (l : list (option OrderingItem)) :
  length (renumberMoved l) = length l.
Proof. apply mapIndexed_length. Qed.

Lemma asItems_orders (l : list Reordered) (items : list OrderingItem) :
  asItems l = Some items -> map i_order items = map orderOf l.
Proof.
  revert items. induction l as [|r l IH]; intros items; simpl.
  - intros H. injection H as <-. reflexivity.
  - destruct r as [item|order]; [|discriminate].
    destruct (asItems l) as [items'|]; [|discriminate].
    intros H. injection H as <-. simpl. now rewrite (IH _ eq_refl).
Qed.

Lemma handleDragEnd_Sequential (q q' : Question) (active over : string) :
  handleDragEnd q active over = Dropped q' -> Sequential q'.
Proof.
  unfold handleDragEnd. destruct (negb (String.eqb active over)); [|discriminate].
  destruct (asItems _) as [items|] eqn:E; [|discriminate].
  intros H. injection H as <-. unfold Sequential, orderValues.
  cbn [set_items q_items].
  rewrite (asItems_orders _ _ E), renumberMoved_orders.
  rewrite <- (length_map i_order items), (asItems_orders _ _ E), length_map.
  now rewrite renumberMoved_length.
Qed.

Lemma handleDragEnd_orders (q : Question) (active over : string)
      (reorderedItems : list Reordered) :
  handleDragEnd q active over = DroppedUndefined reorderedItems ->
  map orderOf reorderedItems = indices (length reorderedItems).
Proof.
  unfold handleDragEnd. destruct (negb (String.eqb active over)); [|discriminate].
  destruct (asItems _) as [items|] eqn:E; [discriminate|].
  intros H. injection H as <-.
  now rewrite renumberMoved_orders, renumberMoved_length.
Qed.

Lemma handleAISuggest_Sequential (q q' : Question) (g : IdGen) :
  Sequential q -> fst (handleAISuggest q g) = Some q' -> Sequential q'.
Proof.
  intros S. unfold handleAISuggest.
  destruct (q_type q); unfold bind.
  - destruct (suggestedOptions _ q g) as [options g']. cbn.
    intros H. injection H as <-. exact S.
  - destruct (suggestedItems _ q g) as [items g'] eqn:E. cbn.
    intros H. injection H as <-.
    unfold suggestedItems, bind in E.
    repeat match type of E with
           | context [idOr ?o ?g] => destruct (idOr o g)
           end.
    unfold ret in E. injection E as <- _. reflexivity.
  - destruct (suggestedZones g) as [zones g']. cbn.
    intros H. injection H as <-. exact S.
Qed.

Lemma perform_Sequential (a : OrderingAction) (q : Question) (g : IdGen) :
  Sequential q -> Sequential (fst (perform a q g)).
Proof.
  intros S. unfold perform, bind, ret.
  destruct (handle a q g) as [changed g'] eqn:H. cbn [fst].
  destruct changed as [q'|]; [|exact S].
  apply (f_equal fst) in H. cbn [fst] in H.
  destruct a; cbn [handle] in H; unfold ret in H; cbn [fst] in H.
  - exact (updateStem_Sequential _ _ _ S H).
  - exact (updateItem_Sequential _ _ _ _ S H).
  - exact (addItem_Sequential q q' g S H).
  - exact (removeItem_Sequential _ _ _ H).
  - destruct (handleDragEnd q active over) as [|dropped|] eqn:D; try discriminate H.
    injection H as <-. exact (handleDragEnd_Sequential _ _ _ _ D).
  - injection H as <-. exact S.
  - injection H as <-. destruct m; exact S.
  - exact (handleAISuggest_Sequential q q' g S H).
Qed.

Lemma performAll_Sequential (l : list OrderingAction) (q : Question) (g : IdGen) :
  Sequential q -> Sequential (fst (performAll l q g)).
Proof.
  revert q g. induction l as [|a l IH]; intros q g S; cbn [performAll].
  - exact S.
  - unfold bind. pose proof (perform_Sequential a q g S) as S'.
    destruct (perform a q g) as [q' g']. apply IH. exact S'.
Qed.

Lemma createEmptyQuestion_Sequential (g : IdGen) :
  Sequential (fst (createEmptyQuestion ordering g)).
Proof. reflexivity. Qed.

(** Sequential items pass the hook's check. *)
Lemma Sequential_passes (q : Question) :
  q_type q = ordering -> Sequential q -> pre_save (cast q) = None.
Proof.
  intros T S.
  assert (q_type (cast q) = ordering) as Tc by exact T.
  rewrite (pre_save_ordering_None _ Tc). unfold sortedOrders.
  rewrite orderValues_cast. cbn [cast q_items]. rewrite length_map.
  apply sortedOrders_iff. rewrite S. apply Permutation_refl.
Qed.

Lemma perform_type (a : OrderingAction) (q : Question) (g : IdGen) :
  q_type (fst (perform a q g)) = q_type q.
Proof.
  unfold perform, bind, ret. destruct a; cbn; try reflexivity.
  - unfold removeItem. now destruct (2 <? length (q_items q))%nat.
  - unfold handleDragEnd. destruct (negb (String.eqb active over)); [|reflexivity].
    now destruct (asItems _).
  - now destruct m.
  - unfold handleAISuggest, bind, ret. destruct (q_type q) eqn:T.
    + now destruct (suggestedOptions _ q g).
    + now destruct (suggestedItems _ q g).
    + now destruct (suggestedZones g).
Qed.

Lemma performAll_type (l : list OrderingAction) (q : Question) (g : IdGen) :
  q_type (fst (performAll l q g)) = q_type q.
Proof.
  revert q g. induction l as [|a l IH]; intros q g; cbn [performAll].
  - reflexivity.
  - unfold bind. pose proof (perform_type a q g) as T.
    destruct (perform a q g) as [q' g']. now rewrite IH.
Qed.

End OrderingEditor.

(** C10: the ordering question [createEmptyQuestion] makes has the order
    values 0, 1, 2, and every action of its editor keeps the order values
    0 .. n-1 in storage order: [addItem] gives the new item the number of
    items as its order, [removeItem] and [handleDragEnd] renumber the items
    they keep by index, [handleAISuggest] puts four items with the orders
    0, 1, 2, 3, and [updateItem], [updateStem], [updatePurpose] and
    [updateMetadata] leave the orders as they are. So after any sequence of
    actions the order values are 0 .. n-1 in storage order, and the hook of
    the schema passes. *)
Theorem C10_editor_keeps_orders
        (actions : list OrderingAction) (a : OrderingAction)
        (q : Question) (g : IdGen) :
  let created := fst (createEmptyQuestion ordering g) in
  let edited := fst (performAll actions created (snd (createEmptyQuestion ordering g))) in
  orderValues created = [0; 1; 2]%Z
  /\ Sequential edited
  /\ pre_save (cast edited) = None
  /\ (Sequential q -> Sequential (fst (perform a q g)))
  /\ (exists item,
        fst (addItem q g) = Some (set_items (q_items q ++ [item]) q)
        /\ i_order item = Z.of_nat (length (q_items q)))
  /\ (forall itemId q', removeItem q itemId = Some q' -> Sequential q')
  /\ (forall active over q', handleDragEnd q active over = Dropped q' -> Sequential q')
  /\ (forall active over reorderedItems,
        handleDragEnd q active over = DroppedUndefined reorderedItems ->
        map orderOf reorderedItems = indices (length reorderedItems)).
Proof.
  intros created edited.
  assert (Sequential edited) as S
    by (apply performAll_Sequential, createEmptyQuestion_Sequential).
  split; [reflexivity|]. split; [exact S|]. split.
  { apply Sequential_passes; [|exact S]. unfold edited. now rewrite performAll_type. }
  split; [apply perform_Sequential|]. split.
  { eexists. split; [reflexivity | reflexivity]. }
  split; [intros itemId q'; apply removeItem_Sequential|]. split.
  - intros active over q'. apply handleDragEnd_Sequential.
  - intros active over reorderedItems. apply handleDragEnd_orders.
Qed.

Lemma C10_editor_keeps_orders_witness :
  Sequential demoEdited
  /\ map i_id (q_items demoEdited) = ["id3"; "id4"; "id5"; "id1"]
  /\ orderValues demoEdited = [0; 1; 2; 3]%Z
  /\ Sequential (fst (perform (RemoveItem "id4") demoEdited demoGen))
  /\ (exists q', removeItem demoEdited "id3" = Some q' /\ Sequential q').
Proof.
  pose proof (C10_editor_keeps_orders demoSession (RemoveItem "id4") demoEdited demoGen)
    as (_ & S & _ & P & _ & R & _).
  split; [exact S|]. split; [reflexivity|]. split; [reflexivity|].
  split; [exact (P S)|].
  eexists. split; [reflexivity|]. eapply R. reflexivity.
Defined.

(** The suggestions replace the items of [demoEdited] by four, numbered
    from 0, that keep the identifiers of the first four items. *)
Example suggestions_are_sequential :
  let suggested := fst (perform AISuggest demoEdited demoGen) in
  map i_id (q_items suggested) = ["id3"; "id4"; "id5"; "id1"]
  /\ orderValues suggested = [0; 1; 2; 3]%Z
  /\ map i_text (q_items suggested)
     = [ "Initialize the topic environment"; "Configure the topic settings";
         "Implement the topic functionality"; "Test the topic implementation" ].
Proof. cbv zeta. repeat split. Qed.

Example arrayMove_forward :
  arrayMove [1; 2; 3; 4; 5] 0 3 = map Some [2; 3; 4; 1; 5].
Proof. reflexivity. Qed.

Example arrayMove_backward :
  arrayMove [1; 2; 3; 4; 5] 4 1 = map Some [1; 5; 2; 3; 4].
Proof. reflexivity. Qed.

(** [findIndex] yields -1 for an identifier that no item has: the last
    element is the one taken out, and the one put back at the end. On the
    empty array nothing is taken out, and [undefined] is put in. *)
Example arrayMove_unknown :
  arrayMove [1; 2; 3] (-1) 0 = map Some [3; 1; 2]
  /\ arrayMove [1; 2; 3] 0 (-1) = map Some [2; 3; 1]
  /\ arrayMove (@nil nat) (-1) (-1) = [None].
Proof. repeat split; reflexivity. Qed.

(** * More of the editor *)

(** ** [MainCanvas]: the collection and the selection *)

Section Canvas.

Lemma findQuestion_Some (c : string) (l : list Question) (q : Question) :
  findQuestion (Some c) l = Some q -> q_id q = c /\ In q l.
Proof.
  unfold findQuestion. intros H. apply find_some in H as [I E].
  simpl in E. apply String.eqb_eq in E. auto.
Qed.

Lemma findQuestion_In (c : string) (l : list Question) :
  In c (questionIds l) -> exists q, findQuestion (Some c) l = Some q.
Proof.
  unfold findQuestion, questionIds. induction l as [|a l IH]; simpl; [tauto|].
  intros [H|H].
  - subst. rewrite String.eqb_refl. eauto.
  - destruct (String.eqb c (q_id a)); eauto.
Qed.

Lemma findQuestion_not_In (c : string) (l : list Question) :
  ~ In c (questionIds l) -> findQuestion (Some c) l = None.
Proof.
  intros N. destruct (findQuestion (Some c) l) as [q|] eqn:F; [|reflexivity].
  apply findQuestion_Some in F as [E I]. exfalso. apply N.
  subst. unfold questionIds. now apply in_map.
Qed.

Lemma findQuestion_app (c : option string) (l l' : list Question) :
  findQuestion c (l ++ l') =
    match findQuestion c l with
    | Some q => Some q
    | None => findQuestion c l'
    end.
Proof.
  unfold findQuestion. induction l as [|a l IH]; simpl; [reflexivity|].
  destruct (isCurrent c (q_id a)); auto.
Qed.

Lemma selected_resolves (st : AssessmentState) (c : string) :
  SelectionOk st -> currentQuestionId st = Some c ->
  exists q, currentQuestion st = Some q /\ q_id q = c /\ In q (questions st).
Proof.
  unfold SelectionOk, currentQuestion. intros S E. rewrite E in *.
  destruct (findQuestion_In _ _ S) as [q F]. exists q.
  destruct (findQuestion_Some _ _ _ F). auto.
Qed.

Lemma updateQuestion_ids (u : Question) (st : AssessmentState) :
  questionIds (questions (updateQuestion u st)) = questionIds (questions st).
Proof.
  unfold updateQuestion, questionIds. cbn [questions]. rewrite map_map.
  apply map_ext_in. intros q _.
  destruct (String.eqb_spec (q_id q) (q_id u)); congruence.
Qed.

Lemma updateQuestion_find_same (u : Question) (l : list Question) :
  findQuestion (Some (q_id u))
    (map (fun q => if String.eqb (q_id q) (q_id u) then u else q) l)
  = if existsb (fun q => String.eqb (q_id q) (q_id u)) l then Some u else None.
Proof.
  unfold findQuestion. induction l as [|a l IH]; [reflexivity|].
  cbn [map find existsb].
  destruct (String.eqb_spec (q_id a) (q_id u)) as [E|E]; cbn [find orb].
  - unfold isCurrent at 1. now rewrite String.eqb_refl.
  - unfold isCurrent at 1.
    destruct (String.eqb_spec (q_id u) (q_id a)); [congruence | exact IH].
Qed.

Lemma updateQuestion_find_other (u : Question) (c : string) (l : list Question) :
  c <> q_id u ->
  findQuestion (Some c)
    (map (fun q => if String.eqb (q_id q) (q_id u) then u else q) l)
  = findQuestion (Some c) l.
Proof.
  intros N. unfold findQuestion. induction l as [|a l IH]; [reflexivity|].
  assert (isCurrent (Some c) (q_id u) = false) as F
    by (cbn; now apply String.eqb_neq).
  cbn [map find].
  destruct (String.eqb_spec (q_id a) (q_id u)) as [E|E]; cbn [find].
  - rewrite E, F. exact IH.
  - now rewrite IH.
Qed.

Lemma updateQuestion_absent (u : Question) (l : list Question) :
  ~ In (q_id u) (questionIds l) ->
  map (fun q => if String.eqb (q_id q) (q_id u) then u else q) l = l.
Proof.
  unfold questionIds. induction l as [|a l IH]; simpl; [reflexivity|].
  intros N. destruct (String.eqb_spec (q_id a) (q_id u)) as [E|E]; [tauto|].
  f_equal. apply IH. tauto.
Qed.

Lemma deleteQuestion_find_same (c : string) (l : list Question) :
  findQuestion (Some c) (filter (fun q => negb (String.eqb (q_id q) c)) l) = None.
Proof.
  apply findQuestion_not_In. unfold questionIds. intros I.
  apply in_map_iff in I as (q & E & I). apply filter_In in I as [_ I].
  subst. now rewrite String.eqb_refl in I.
Qed.

Lemma deleteQuestion_find_other (c d : string) (l : list Question) :
  c <> d ->
  findQuestion (Some c) (filter (fun q => negb (String.eqb (q_id q) d)) l)
  = findQuestion (Some c) l.
Proof.
  intros N. unfold findQuestion. induction l as [|a l IH]; [reflexivity|].
  assert (isCurrent (Some c) d = false) as F by (cbn; now apply String.eqb_neq).
  cbn [filter find].
  destruct (String.eqb_spec (q_id a) d) as [E|E]; cbn [negb find].
  - rewrite E, F. exact IH.
  - now rewrite IH.
Qed.

Lemma deleteQuestion_absent (d : string) (l : list Question) :
  ~ In d (questionIds l) ->
  filter (fun q => negb (String.eqb (q_id q) d)) l = l.
Proof.
  unfold questionIds. induction l as [|a l IH]; simpl; [reflexivity|].
  intros N. destruct (String.eqb_spec (q_id a) d) as [E|E]; [tauto|].
  simpl. f_equal. apply IH. tauto.
Qed.

Lemma In_ids_app (l : list Question) (q : Question) :
  In (q_id q) (questionIds (l ++ [q])).
Proof. unfold questionIds. rewrite map_app, in_app_iff. right. now left. Qed.

Lemma addQuestion_SelectionOk (type : QuestionType) (st : AssessmentState) (g : IdGen) :
  SelectionOk (fst (addQuestion type st g)).
Proof.
  unfold addQuestion, bind, ret. destruct (createEmptyQuestion type g) as [q g'].
  cbn. unfold SelectionOk. cbn. apply In_ids_app.
Qed.

Lemma duplicateQuestion_SelectionOk (q : Question) (st : AssessmentState) (g : IdGen) :
  SelectionOk (fst (duplicateQuestion q st g)).
Proof.
  unfold duplicateQuestion, bind, ret. destruct (duplicated q g) as [d g'].
  cbn. unfold SelectionOk. cbn. apply In_ids_app.
Qed.

Lemma deleteQuestion_SelectionOk (d : string) (st : AssessmentState) :
  SelectionOk st -> SelectionOk (deleteQuestion d st).
Proof.
  unfold SelectionOk, deleteQuestion. cbn [currentQuestionId questions].
  destruct (currentQuestionId st) as [c|]; simpl; [|tauto].
  intros I. destruct (String.eqb_spec c d) as [E|E].
  - destruct (filter _ (questions st)) as [|q l]; [exact Logic.I | now left].
  - unfold questionIds in *. apply in_map_iff in I as (q & Eq & I).
    apply in_map_iff. exists q. split; [exact Eq|]. apply filter_In. split; [exact I|].
    subst c. now destruct (String.eqb_spec (q_id q) d).
Qed.

Lemma updateQuestion_SelectionOk (u : Question) (st : AssessmentState) :
  SelectionOk st -> SelectionOk (updateQuestion u st).
Proof.
  unfold SelectionOk. rewrite updateQuestion_ids. exact (fun H => H).
Qed.

Lemma onCanvas_SelectionOk (e : CanvasEvent) (st : AssessmentState) (g : IdGen) :
  match e with
  | FileLoaded captured _ => captured = questions st
  | _ => True
  end ->
  SelectionOk st -> SelectionOk (fst (onCanvas e st g)).
Proof.
  intros P S. destruct e; cbn [onCanvas].
  - apply addQuestion_SelectionOk.
  - destruct (nth_error (questions st) index) as [q|] eqn:N; [|exact S].
    cbn. unfold SelectionOk. cbn. unfold questionIds.
    apply in_map. eapply nth_error_In. exact N.
  - destruct (nth_error (questions st) index); [|exact S].
    apply duplicateQuestion_SelectionOk.
  - destruct (nth_error (questions st) index); [|exact S].
    now apply deleteQuestion_SelectionOk.
  - destruct (currentQuestion st); [|exact S]. now apply updateQuestion_SelectionOk.
  - destruct (currentQuestion st); [|exact S]. now apply deleteQuestion_SelectionOk.
  - destruct (currentQuestion st) as [q|]; [|exact S].
    destruct (isValid (validateQuestion q)); [|exact S].
    unfold saveQuestion, bind, ret.
    pose proof (addQuestion_SelectionOk mcq st g) as A.
    destruct (addQuestion mcq st g). exact A.
  - subst captured. cbn [ret fst]. apply updateQuestion_SelectionOk.
    now destruct st.
Qed.

Lemma onCanvasAll_SelectionOk (l : list CanvasEvent) (st : AssessmentState) (g : IdGen) :
  Prompt l st g -> SelectionOk st -> SelectionOk (fst (onCanvasAll l st g)).
Proof.
  revert st g. induction l as [|e l IH]; intros st g P S; cbn [onCanvasAll].
  - exact S.
  - destruct P as [Pe P]. unfold bind.
    pose proof (onCanvas_SelectionOk e st g Pe S) as S'.
    destruct (onCanvas e st g) as [st' g']. apply IH; assumption.
Qed.

(** A file that is loaded late: the collection goes back to the captured
    one, and the selection stays. *)
Lemma late_load_ids (captured : list Question) (u : Question) (st : AssessmentState)
      (g : IdGen) :
  let st' := fst (onCanvas (FileLoaded captured u) st g) in
  questionIds (questions st') = questionIds captured
  /\ currentQuestionId st' = currentQuestionId st.
Proof.
  cbn [onCanvas ret fst]. split; [|reflexivity].
  exact (updateQuestion_ids u (mkState captured (currentQuestionId st))).
Qed.

End Canvas.

(** X1: as long as every file of an upload is loaded before anything else
    happens to the collection, whatever happens on the canvas, from the
    empty collection on, a selected identifier is the identifier of a
    question of the collection, and it is that question (the first with the
    identifier) the editor shows. A file that is loaded late breaks this:
    when a question has been added since the upload began, the [onload]
    writes the collection of before back, the new question is lost, and its
    identifier stays selected, so that there is no current question. *)
Theorem X1_selection_resolves (events : list CanvasEvent) (g : IdGen) :
  let run := onCanvasAll events initialState g in
  Prompt events initialState g ->
  (forall c, currentQuestionId (fst run) = Some c ->
     exists q, currentQuestion (fst run) = Some q /\ q_id q = c
               /\ In q (questions (fst run)))
  /\ (forall type u,
       let added := fst (createEmptyQuestion type (snd run)) in
       let late :=
         fst (onCanvasAll [ClickAdd type; FileLoaded (questions (fst run)) u]
                (fst run) (snd run)) in
       ~ In (q_id added) (questionIds (questions (fst run))) ->
       questionIds (questions late) = questionIds (questions (fst run))
       /\ currentQuestionId late = Some (q_id added)
       /\ currentQuestion late = None).
Proof.
  intros run P. split.
  - intros c. apply selected_resolves.
    apply onCanvasAll_SelectionOk; [exact P | exact Logic.I].
  - intros type u added late F. unfold late, added in *. clear late added.
    destruct run as [st g1]. cbn [fst snd] in *.
    cbn [onCanvasAll onCanvas]. unfold bind, addQuestion, bind, ret.
    destruct (createEmptyQuestion type g1) as [nq g2]. cbn [fst snd] in *.
    pose proof (updateQuestion_ids u (mkState (questions st) (Some (q_id nq)))) as I.
    split; [exact I|]. split; [reflexivity|].
    unfold currentQuestion. cbn [currentQuestionId updateQuestion].
    apply findQuestion_not_In. rewrite I. exact F.
Qed.

Lemma X1_selection_resolves_witness :
  let hotspotQuestion := fst (createEmptyQuestion hotspot demoGen) in
  let withImage :=
    set_imageFile (Some "valve.png")
      (set_imageUrl (Some "data:image/png;base64,iVBORw0KGgo=") hotspotQuestion) in
  let st := fst (onCanvasAll [ClickAdd hotspot] initialState demoGen) in
  let late :=
    fst (onCanvasAll [ClickAdd hotspot; ClickAdd mcq; FileLoaded [hotspotQuestion] withImage]
           initialState demoGen) in
  Prompt [ClickAdd hotspot] initialState demoGen
  /\ questions st = [hotspotQuestion]
  /\ currentQuestion st = Some hotspotQuestion
  /\ questions late = [withImage]
  /\ currentQuestionId late = Some "id1"
  /\ currentQuestion late = None.
Proof.
  cbv zeta.
  assert (Prompt [ClickAdd hotspot] initialState demoGen) as P
    by (cbn; auto).
  destruct (X1_selection_resolves [ClickAdd hotspot] demoGen P) as [R L].
  split; [exact P|]. split; [reflexivity|]. split.
  - destruct (R "id0" eq_refl) as (q & C & _). reflexivity.
  - split; [reflexivity|].
    assert (~ In (q_id (fst (createEmptyQuestion mcq
                               (snd (onCanvasAll [ClickAdd hotspot] initialState demoGen)))))
              (questionIds (questions
                              (fst (onCanvasAll [ClickAdd hotspot] initialState demoGen)))))
      as F by (intros [H|[]]; discriminate H).
    destruct (L mcq
                (set_imageFile (Some "valve.png")
                   (set_imageUrl (Some "data:image/png;base64,iVBORw0KGgo=")
                      (fst (createEmptyQuestion hotspot demoGen)))) F)
      as (_ & S & N).
    split; [exact S | exact N].
Defined.

(** X2: [updateQuestion] keeps the identifiers of the collection, in order,
    and the selection; afterwards the identifier of the updated question
    resolves to the updated question if the collection had a question with
    that identifier, every other identifier resolves as before, and a
    collection without a question of that identifier is left as it was (the
    update is lost). *)
Theorem X2_updateQuestion (u : Question) (st : AssessmentState) :
  let st' := updateQuestion u st in
  questionIds (questions st') = questionIds (questions st)
  /\ currentQuestionId st' = currentQuestionId st
  /\ findQuestion (Some (q_id u)) (questions st')
     = (if existsb (fun q => String.eqb (q_id q) (q_id u)) (questions st)
        then Some u else None)
  /\ (forall c, c <> q_id u ->
        findQuestion (Some c) (questions st') = findQuestion (Some c) (questions st))
  /\ (~ In (q_id u) (questionIds (questions st)) -> questions st' = questions st).
Proof.
  intros st'. split; [apply updateQuestion_ids|]. split; [reflexivity|].
  split; [apply updateQuestion_find_same|].
  split; [intros c; apply updateQuestion_find_other | apply updateQuestion_absent].
Qed.

Lemma X2_updateQuestion_witness :
  let u := set_stem "Which colour is primary?" demoMcq in
  findQuestion (Some "q-demo") (questions (updateQuestion u demoCanvas)) = Some u
  /\ ("q-order" <> q_id u
      /\ findQuestion (Some "q-order") (questions (updateQuestion u demoCanvas))
         = findQuestion (Some "q-order") (questions demoCanvas))
  /\ (~ In (q_id demoImage_absent) (questionIds (questions demoCanvas))
      /\ questions (updateQuestion demoImage_absent demoCanvas) = questions demoCanvas).
Proof.
  cbv zeta.
  pose proof (X2_updateQuestion (set_stem "Which colour is primary?" demoMcq) demoCanvas)
    as (_ & _ & F & O & _).
  pose proof (X2_updateQuestion demoImage_absent demoCanvas) as (_ & _ & _ & _ & A).
  assert ("q-order" <> q_id (set_stem "Which colour is primary?" demoMcq)) as N
    by discriminate.
  assert (~ In (q_id demoImage_absent) (questionIds (questions demoCanvas))) as NI.
  { intros [H|[H|[]]]; discriminate H. }
  split; [exact F|]. split; [split; [exact N | exact (O _ N)]|].
  split; [exact NI | exact (A NI)].
Defined.

(** X3: after [deleteQuestion] no question of the collection has the
    deleted identifier, every other identifier resolves as before, and a
    collection without that identifier is left as it was. The selection stays
    unless the deleted identifier was selected; then the first remaining
    question is selected, or nothing when none remains. *)
Theorem X3_deleteQuestion (d : string) (st : AssessmentState) :
  let st' := deleteQuestion d st in
  findQuestion (Some d) (questions st') = None
  /\ (forall c, c <> d ->
        findQuestion (Some c) (questions st') = findQuestion (Some c) (questions st))
  /\ (~ In d (questionIds (questions st)) -> questions st' = questions st)
  /\ (currentQuestionId st <> Some d -> currentQuestionId st' = currentQuestionId st)
  /\ (currentQuestionId st = Some d ->
      currentQuestionId st' = option_map q_id (hd_error (questions st'))).
Proof.
  intros st'. split; [apply deleteQuestion_find_same|].
  split; [intros c; apply deleteQuestion_find_other|].
  split; [apply deleteQuestion_absent|]. unfold st', deleteQuestion.
  cbn [currentQuestionId questions]. split.
  - intros N. destruct (currentQuestionId st) as [c|]; simpl; [|reflexivity].
    destruct (String.eqb_spec c d); [congruence | reflexivity].
  - intros ->. simpl. rewrite String.eqb_refl.
    now destruct (filter _ (questions st)).
Qed.

Lemma X3_deleteQuestion_witness :
  currentQuestionId demoCanvas = Some "q-demo"
  /\ currentQuestionId (deleteQuestion "q-demo" demoCanvas) = Some "q-order"
  /\ (currentQuestionId demoCanvas <> Some "q-order"
      /\ currentQuestionId (deleteQuestion "q-order" demoCanvas) = Some "q-demo")
  /\ ("q-order" <> "q-demo"
      /\ findQuestion (Some "q-order") (questions (deleteQuestion "q-demo" demoCanvas))
         = findQuestion (Some "q-order") (questions demoCanvas)).
Proof.
  pose proof (X3_deleteQuestion "q-demo" demoCanvas) as (_ & O & _ & _ & C).
  pose proof (X3_deleteQuestion "q-order" demoCanvas) as (_ & _ & _ & K & _).
  assert (currentQuestionId demoCanvas <> Some "q-order") as N1 by discriminate.
  assert ("q-order" <> "q-demo") as N2 by discriminate.
  split; [reflexivity|]. split; [exact (C eq_refl)|].
  split; [split; [exact N1 | exact (K N1)]|].
  split; [exact N2 | exact (O _ N2)].
Defined.

Section CanvasMore.

Lemma delete_appended (l : list Question) (n : Question) :
  ~ In (q_id n) (questionIds l) ->
  deleteQuestion (q_id n) (mkState (l ++ [n]) (Some (q_id n)))
  = mkState l (option_map q_id (hd_error l)).
Proof.
  intros N. unfold deleteQuestion. cbn [questions currentQuestionId isCurrent].
  rewrite String.eqb_refl, filter_app, (deleteQuestion_absent _ _ N).
  cbn [filter]. rewrite String.eqb_refl. cbn [negb]. rewrite app_nil_r.
  now destruct l.
Qed.

Lemma created_errors (type : QuestionType) (g : IdGen) :
  validateQuestion (fst (createEmptyQuestion type g))
  = mkResult false
      match type with
      | mcq => [E_STEM; E_OPTION_TEXT; E_FEEDBACK]
      | ordering => [E_STEM; E_ITEM_TEXT]
      | hotspot => [E_STEM; E_ZONE]
      end.
Proof. destruct type; reflexivity. Qed.

Lemma addQuestion_state (type : QuestionType) (st : AssessmentState) (g : IdGen) :
  fst (addQuestion type st g)
  = mkState (questions st ++ [fst (createEmptyQuestion type g)])
            (Some (q_id (fst (createEmptyQuestion type g)))).
Proof.
  unfold addQuestion, bind, ret. now destruct (createEmptyQuestion type g).
Qed.

Lemma appended_current (l : list Question) (n : Question) :
  currentQuestion (mkState (l ++ [n]) (Some (q_id n)))
  = match findQuestion (Some (q_id n)) l with
    | Some old => Some old
    | None => Some n
    end.
Proof.
  unfold currentQuestion. cbn [questions currentQuestionId].
  rewrite findQuestion_app.
  destruct (findQuestion _ l); [reflexivity|].
  unfold findQuestion. cbn. now rewrite String.eqb_refl.
Qed.

End CanvasMore.

(** X4: [addQuestion] appends the question [createEmptyQuestion] makes and
    selects its identifier. The editor then shows the new question, unless a
    question of the collection has that identifier already: then it shows
    that one, the first with the identifier. *)
Theorem X4_addQuestion (type : QuestionType) (st : AssessmentState) (g : IdGen) :
  let newQuestion := fst (createEmptyQuestion type g) in
  let st' := fst (addQuestion type st g) in
  questions st' = questions st ++ [newQuestion]
  /\ currentQuestionId st' = Some (q_id newQuestion)
  /\ currentQuestion st'
     = match findQuestion (Some (q_id newQuestion)) (questions st) with
       | Some old => Some old
       | None => Some newQuestion
       end
  /\ (~ In (q_id newQuestion) (questionIds (questions st)) ->
      currentQuestion st' = Some newQuestion).
Proof.
  intros newQuestion st'.
  assert (st' = mkState (questions st ++ [newQuestion]) (Some (q_id newQuestion))) as E
    by apply addQuestion_state.
  rewrite E. split; [reflexivity|]. split; [reflexivity|].
  split; [apply appended_current|].
  intros N. rewrite appended_current. now rewrite (findQuestion_not_In _ _ N).
Qed.

Lemma X4_addQuestion_witness :
  ~ In (q_id (fst (createEmptyQuestion hotspot demoGen))) (questionIds (questions demoCanvas))
  /\ currentQuestion (fst (addQuestion hotspot demoCanvas demoGen))
     = Some (fst (createEmptyQuestion hotspot demoGen)).
Proof.
  assert (~ In (q_id (fst (createEmptyQuestion hotspot demoGen)))
            (questionIds (questions demoCanvas))) as N.
  { intros [H|[H|[]]]; discriminate H. }
  split; [exact N|].
  exact (proj2 (proj2 (proj2 (X4_addQuestion hotspot demoCanvas demoGen))) N).
Defined.

(** X5: deleting the question that [duplicateQuestion] or [addQuestion] has
    just appended gives back the collection as it was, provided no question
    of the collection has the new identifier (else those are deleted with
    it). The selection does not come back: the first question is selected. *)
Theorem X5_append_then_delete
        (q : Question) (type : QuestionType) (st : AssessmentState) (g : IdGen) :
  let back := mkState (questions st) (option_map q_id (hd_error (questions st))) in
  (~ In (fst (generateId g)) (questionIds (questions st)) ->
   deleteQuestion (fst (generateId g)) (fst (duplicateQuestion q st g)) = back)
  /\ (~ In (q_id (fst (createEmptyQuestion type g))) (questionIds (questions st)) ->
      deleteQuestion (q_id (fst (createEmptyQuestion type g)))
        (fst (addQuestion type st g)) = back).
Proof.
  intros back. split; intros N.
  - unfold duplicateQuestion, bind, ret.
    destruct (duplicated q g) as [d g'] eqn:D. cbn [fst].
    assert (q_id d = fst (generateId g)) as E
      by (apply (f_equal fst) in D; cbn in D; now subst d).
    rewrite <- E in *. now apply delete_appended.
  - unfold addQuestion, bind, ret in *.
    destruct (createEmptyQuestion type g) as [n g']. cbn [fst] in *.
    now apply delete_appended.
Qed.

Lemma X5_append_then_delete_witness :
  ~ In (fst (generateId demoGen)) (questionIds (questions demoCanvas))
  /\ deleteQuestion (fst (generateId demoGen))
       (fst (duplicateQuestion demoMcq demoCanvas demoGen)) = demoCanvas.
Proof.
  assert (~ In (fst (generateId demoGen)) (questionIds (questions demoCanvas))) as N.
  { intros [H|[H|[]]]; discriminate H. }
  split; [exact N|].
  exact (proj1 (X5_append_then_delete demoMcq mcq demoCanvas demoGen) N).
Defined.

(** X6: the Save button does nothing when there is no current question or
    when the current question fails the validation. Otherwise [saveQuestion]
    sends the question nowhere: it keeps the collection as it is, appends an
    empty MCQ question and selects it; and as that question fails the
    validation, a second click on Save does nothing, provided its identifier
    is new to the collection. *)
Theorem X6_save (st : AssessmentState) (g : IdGen) (q : Question) :
  currentQuestion st = Some q ->
  let newQuestion := fst (createEmptyQuestion mcq g) in
  let after := onCanvas EditorSave st g in
  (isValid (validateQuestion q) = false -> after = (st, g))
  /\ (isValid (validateQuestion q) = true ->
      fst after = mkState (questions st ++ [newQuestion]) (Some (q_id newQuestion))
      /\ fst (saveQuestion st g)
         = ("Question saved successfully!", fst after)
      /\ (~ In (q_id newQuestion) (questionIds (questions st)) ->
          onCanvas EditorSave (fst after) (snd after) = after)).
Proof.
  intros C newQuestion after. unfold after. cbn [onCanvas]. rewrite C. split.
  - intros ->. reflexivity.
  - intros ->.
    pose proof (addQuestion_state mcq st g) as E. fold newQuestion in E.
    unfold saveQuestion, bind, ret.
    destruct (addQuestion mcq st g) as [st1 g1]. cbn [fst snd] in *.
    split; [exact E|]. split; [reflexivity|]. intros F.
    rewrite E, appended_current, (findQuestion_not_In _ _ F).
    unfold newQuestion. rewrite created_errors. reflexivity.
Qed.

Lemma X6_save_witness :
  currentQuestion demoCanvas = Some demoMcq
  /\ isValid (validateQuestion demoMcq) = true
  /\ questionIds (questions (fst (onCanvas EditorSave demoCanvas demoGen)))
     = ["q-demo"; "q-order"; "id0"]
  /\ onCanvasAll [EditorSave; EditorSave] demoCanvas demoGen
     = onCanvas EditorSave demoCanvas demoGen.
Proof.
  assert (currentQuestion demoCanvas = Some demoMcq) as C by reflexivity.
  assert (isValid (validateQuestion demoMcq) = true) as V by reflexivity.
  destruct (proj2 (X6_save demoCanvas demoGen demoMcq C) V) as (E & _ & T).
  split; [exact C|]. split; [exact V|]. split.
  - rewrite E. reflexivity.
  - cbn [onCanvasAll]. unfold bind at 1.
    destruct (onCanvas EditorSave demoCanvas demoGen) as [st1 g1] eqn:S.
    cbn [fst snd] in *. unfold bind, ret.
    assert (~ In (q_id (fst (createEmptyQuestion mcq demoGen)))
              (questionIds (questions demoCanvas))) as N.
    { intros [H|[H|[]]]; discriminate H. }
    rewrite (T N). reflexivity.
Defined.

(** X7: the question [createEmptyQuestion] makes fails the client-side
    validation, with the missing stem and, by type, the empty texts and
    missing feedback of the options, the empty texts of the items, or the
    missing zone; the schema side refuses it at the field level, for its
    stem and for its author. *)
Theorem X7_created_is_invalid (type : QuestionType) (g : IdGen) :
  let q := fst (createEmptyQuestion type g) in
  validateQuestion q
  = mkResult false
      match type with
      | mcq => [E_STEM; E_OPTION_TEXT; E_FEEDBACK]
      | ordering => [E_STEM; E_ITEM_TEXT]
      | hotspot => [E_STEM; E_ZONE]
      end
  /\ save q = ValidationFailed (validate (cast q))
  /\ In (mkError (PField "stem") Required) (validate (cast q))
  /\ In (mkError (PField "createdBy") Required) (validate (cast q)).
Proof.
  intros q. split; [apply created_errors|].
  assert (In (mkError (PField "stem") Required) (validate (cast q))) as S
    by (unfold q; destruct type; now left).
  split; [exact (failed_of_error _ _ S)|]. split; [exact S|].
  unfold q; destruct type; cbn; tauto.
Qed.

(** ** The two validators: what exactly the schema side adds *)

Section Gap.

Lemma options_ok_of_not_blank (parent : Question) (l : list MCQOption) :
  existsb (fun opt => blank (o_text opt)) l = false ->
  (feedback_required parent = true ->
   existsb (fun opt => blankOpt (o_feedback opt)) l = false) ->
  forallb (optionOk parent) (map cast_option l) = true.
Proof.
  induction l as [|opt l IH]; simpl; [reflexivity|].
  intros H1 H2. apply orb_false_iff in H1 as [T1 T2].
  unfold optionOk at 1. simpl. rewrite truthy_trim, truthyOpt_trimOpt, T1. simpl.
  destruct (feedback_required parent) eqn:R; simpl.
  - specialize (H2 eq_refl). apply orb_false_iff in H2 as [B1 B2].
    rewrite B1. simpl. apply IH; auto.
  - apply IH; auto. discriminate.
Qed.

Lemma items_ok_of_not_blank (l : list OrderingItem) :
  existsb (fun item => blank (i_text item)) l = false ->
  forallb itemOk (map cast_item l) = true.
Proof.
  induction l as [|item l IH]; simpl; [reflexivity|].
  intros H. apply orb_false_iff in H as [T1 T2].
  unfold itemOk at 1. simpl. rewrite truthy_trim, T1. simpl. auto.
Qed.

Lemma cond_false (b : bool) (msg : string) : cond b msg = [] -> b = false.
Proof. destruct b; [discriminate | reflexivity]. Qed.

Lemma pre_save_hotspot (this : Question) : q_type this = hotspot -> pre_save this = None.
Proof. intros T. unfold pre_save, pre_save_mcq, pre_save_ordering. now rewrite T. Qed.

(** The checks of the client side, when they pass. *)
Lemma valid_checks (q : Question) :
  isValid (validateQuestion q) = true ->
  blank (q_stem q) = false
  /\ isSummative q && blankOpt (q_learningObjective q) = false
  /\ isSummative q && negb (truthyOpt (q_bloomsLevel q)) = false
  /\ typeErrors q = [].
Proof.
  intros V. apply isValid_iff in V. rewrite validateErrors_checks in V.
  apply app_nil_iff in V as [V1 V]. apply app_nil_iff in V as [V2 V].
  apply app_nil_iff in V as [V3 V].
  apply cond_false in V1. apply cond_false in V2. apply cond_false in V3.
  auto.
Qed.

Lemma FieldsOk_of_valid (q : Question) :
  Conforms q -> isValid (validateQuestion q) = true -> SchemaOnly q ->
  FieldsOk (cast q).
Proof.
  intros C V (A & E & U & X). destruct (valid_checks q V) as (S & O & B & T).
  unfold Conforms in C. unfold typeErrors in T. unfold isSummative in O, B.
  constructor; unfold summative_required;
    cbn [cast q_stem q_purpose q_learningObjective q_bloomsLevel
         q_createdBy q_type q_options q_items q_zones].
  - now rewrite truthy_trim, S.
  - rewrite truthyOpt_trimOpt.
    destruct (Purpose_eqb (q_purpose q) summative), (blankOpt (q_learningObjective q));
      simpl in *; congruence.
  - destruct (Purpose_eqb (q_purpose q) summative), (truthyOpt (q_bloomsLevel q));
      simpl in *; congruence.
  - exact E.
  - exact A.
  - destruct (q_type q).
    + apply app_nil_iff in T as [_ T]. apply app_nil_iff in T as [T1 T2].
      apply cond_false in T1. apply cond_false in T2.
      apply options_ok_of_not_blank; [exact T1|].
      unfold feedback_required. cbn [cast q_purpose]. unfold isFormative in T2.
      intros R. now rewrite R in T2.
    + destruct C as [-> _]. reflexivity.
    + destruct C as [-> _]. reflexivity.
  - destruct (q_type q).
    + destruct C as [-> _]. reflexivity.
    + apply app_nil_iff in T as [T1 _]. apply cond_false in T1.
      now apply items_ok_of_not_blank.
    + destruct C as [_ ->]. reflexivity.
  - exact U.
Qed.

Lemma saved_has_more (q : Question) : save q = Saved -> SchemaOnly q.
Proof.
  intros S. apply save_Saved_iff in S as [F P]. unfold SchemaOnly.
  split; [exact (ok_createdBy _ F)|]. split; [exact (ok_blooms_enum _ F)|].
  split; [exact (ok_imageUrl _ F)|].
  destruct (q_type q) eqn:T.
  - destruct (Nat.eq_dec (correctCount q) 1) as [E|E]; [exact E|].
    rewrite <- correctCount_cast in E.
    apply (pre_save_H_CORRECT (cast q) T) in E. congruence.
  - apply (pre_save_ordering_None (cast q) T) in P. unfold sortedOrders in P.
    rewrite orderValues_cast in P. cbn [cast q_items] in P.
    now rewrite length_map in P.
  - exact I.
Qed.

Lemma valid_has_more (q : Question) : isValid (validateQuestion q) = true -> ClientOnly q.
Proof.
  intros V. destruct (valid_checks q V) as (_ & _ & _ & T).
  unfold typeErrors in T. unfold ClientOnly. destruct (q_type q).
  - exact I.
  - apply app_nil_iff in T as [_ T]. apply cond_false, Nat.ltb_ge in T. exact T.
  - apply cond_false, Nat.eqb_neq in T. lia.
Qed.

Lemma valid_and_more_saved (q : Question) :
  Conforms q -> isValid (validateQuestion q) = true -> SchemaOnly q -> save q = Saved.
Proof.
  intros C V X. pose proof (FieldsOk_of_valid q C V X) as F.
  apply save_Saved_iff. split; [exact F|].
  destruct X as (_ & _ & _ & X). destruct (q_type q) eqn:T.
  - assert (q_type (cast q) = mcq) as Tc by exact T.
    rewrite (pre_save_mcq_FieldsOk _ Tc F), correctCount_cast.
    now rewrite X.
  - assert (q_type (cast q) = ordering) as Tc by exact T.
    apply (pre_save_ordering_None _ Tc). unfold sortedOrders.
    rewrite orderValues_cast. cbn [cast q_items]. now rewrite length_map.
  - now apply pre_save_hotspot.
Qed.

End Gap.

(** X8: on a document that has the payload of its type only, the two
    validators agree up to what only one of them asks. The schema side
    persists the document and the document has the items or zones the client
    side asks for (2 items of an ordering question, 1 zone of a hotspot
    question, which the schema declares and does not check) exactly when the
    client side finds it valid and the document has what the schema side
    asks for beyond that: an author that casts to an [ObjectId], a Bloom's
    level of the [enum] if any, an acceptable image URL, exactly one correct
    option (mcq), order values that sorted are 0 .. n-1 (ordering). Neither
    validator accepts all the other accepts. *)
Theorem X8_schema_is_client_and_more (q : Question) :
  Conforms q ->
  (save q = Saved /\ ClientOnly q
   <-> isValid (validateQuestion q) = true /\ SchemaOnly q)
  /\ (save q = Saved -> SchemaOnly q)
  /\ (isValid (validateQuestion q) = true -> ClientOnly q).
Proof.
  intros C. split; [split|split].
  - intros [S O]. split; [exact (saved_is_valid q S O) | exact (saved_has_more q S)].
  - intros [V X]. split; [exact (valid_and_more_saved q C V X) | exact (valid_has_more q V)].
  - exact (saved_has_more q).
  - exact (valid_has_more q).
Qed.

Lemma X8_schema_is_client_and_more_witness :
  Conforms demoMcq
  /\ (save demoMcq = Saved /\ isValid (validateQuestion demoMcq) = true
      /\ SchemaOnly demoMcq /\ ClientOnly demoMcq)
  /\ (Conforms demoMcqTwoCorrect
      /\ isValid (validateQuestion demoMcqTwoCorrect) = true
      /\ ~ SchemaOnly demoMcqTwoCorrect)
  /\ (Conforms demoZoneless
      /\ save demoZoneless = Saved
      /\ ~ ClientOnly demoZoneless).
Proof.
  assert (Conforms demoMcq) as C by (split; reflexivity).
  assert (Conforms demoMcqTwoCorrect) as C' by (split; reflexivity).
  assert (Conforms demoZoneless) as C'' by (split; reflexivity).
  assert (save demoMcq = Saved) as S by (vm_compute; reflexivity).
  assert (ClientOnly demoMcq) as O by exact I.
  destruct (proj1 (proj1 (X8_schema_is_client_and_more demoMcq C)) (conj S O))
    as [V X].
  split; [exact C|]. split; [auto|]. split; [|split; [exact C''|split]].
  - split; [exact C'|]. split; [reflexivity|].
    intros X'.
    destruct (proj2 (proj1 (X8_schema_is_client_and_more demoMcqTwoCorrect C'))
                (conj eq_refl X')) as [S' _].
    vm_compute in S'. discriminate S'.
  - vm_compute. reflexivity.
  - unfold ClientOnly. cbn. lia.
Defined.

(** ** Identifiers that do not collide *)

Section Fresh.

Lemma Extends_refl (g : IdGen) : Extends g g.
Proof. split; [reflexivity | apply Nat.le_refl]. Qed.

Lemma Extends_trans (g g' g'' : IdGen) : Extends g g' -> Extends g' g'' -> Extends g g''.
Proof. intros [D L] [D' L']. split; [congruence | lia]. Qed.

Lemma Extends_generateId (g : IdGen) : Extends g (snd (generateId g)).
Proof. split; cbn; [reflexivity | lia]. Qed.

Lemma Drawn_Extends (g g' : IdGen) (l : list string) :
  Extends g g' -> Drawn g l -> Drawn g' l.
Proof.
  intros [D L] H i I. destruct (H i I) as (k & K & E).
  exists k. rewrite D. split; [lia | exact E].
Qed.

Lemma CollisionFree_Extends (g g' : IdGen) :
  Extends g g' -> CollisionFree g -> CollisionFree g'.
Proof. intros [D _] C i j. rewrite D. apply C. Qed.

Lemma fresh_not_In (g : IdGen) (l : list string) :
  CollisionFree g -> Drawn g l -> ~ In (draws g (next g)) l.
Proof.
  intros C D I. destruct (D _ I) as (k & K & E). apply C in E. lia.
Qed.

Lemma Drawn_snoc (g : IdGen) (l : list string) :
  Drawn g l -> Drawn (snd (generateId g)) (l ++ [fst (generateId g)]).
Proof.
  intros D i I. apply in_app_iff in I as [I|[<-|[]]]; cbn.
  - destruct (D i I) as (k & K & E). exists k. split; [lia | exact E].
  - exists (next g). split; [lia | reflexivity].
Qed.

Lemma NoDup_snoc (l : list string) (x : string) :
  NoDup l -> ~ In x l -> NoDup (l ++ [x]).
Proof.
  intros N I. apply NoDup_rev in N. rewrite <- (rev_involutive (l ++ [x])).
  apply NoDup_rev. rewrite rev_app_distr. cbn. constructor; [|exact N].
  now rewrite <- in_rev.
Qed.

Lemma idOr_cases (o : option string) (g : IdGen) :
  (exists i, o = Some i /\ idOr o g = (i, g))
  \/ idOr o g = generateId g.
Proof.
  destruct o as [i|]; cbn; [|now right].
  destruct (truthy i); [left; now exists i | now right].
Qed.

Lemma In_somes (i : string) (l : list (option string)) : In i (somes l) <-> In (Some i) l.
Proof.
  induction l as [|[a|] l IH]; cbn; [tauto| |].
  - rewrite IH. split; intros [H|H]; auto; left; congruence.
  - rewrite IH. split; [auto | intros [H|H]; [discriminate | exact H]].
Qed.

(** Identifiers kept or generated one after the other do not collide. *)
Lemma fillIds_fresh (olds : list (option string)) (g : IdGen) :
  CollisionFree g -> NoDup (somes olds) -> Drawn g (somes olds) ->
  NoDup (fst (fillIds olds g))
  /\ Drawn (snd (fillIds olds g)) (fst (fillIds olds g))
  /\ Extends g (snd (fillIds olds g))
  /\ length (fst (fillIds olds g)) = length olds
  /\ (forall i, In i (fst (fillIds olds g)) ->
        In i (somes olds)
        \/ exists k, next g <= k < next (snd (fillIds olds g)) /\ i = draws g k).
Proof.
  revert g. induction olds as [|o rest IH]; intros g C N D.
  - cbn. split; [constructor|]. split; [intros i []|]. split; [apply Extends_refl|].
    split; [reflexivity | intros i []].
  - cbn [fillIds]. unfold bind.
    destruct (idOr_cases o g) as [(i & -> & E)|E]; rewrite E.
    + cbn [somes] in N, D. apply NoDup_cons_iff in N as [Ni N].
      assert (Drawn g (somes rest)) as D' by (intros x X; apply D; now right).
      destruct (IH g C N D') as (N1 & D1 & X1 & L1 & O1).
      destruct (fillIds rest g) as [l g']. cbn [fst snd ret] in *.
      split; [|split; [|split; [|split]]].
      * constructor; [|exact N1]. intros I. destruct (O1 _ I) as [S|(k & K & Ek)].
        -- contradiction.
        -- destruct (D i (or_introl eq_refl)) as (m & M & Em).
           rewrite Em in Ek. apply C in Ek. lia.
      * intros x [<-|X]; [|now apply D1].
        apply (Drawn_Extends g g' [i] X1); [|now left].
        intros y [<-|[]]. apply D. now left.
      * exact X1.
      * cbn. now rewrite L1.
      * intros x [<-|X]; [left; now left|].
        destruct (O1 _ X) as [S|K]; [left; now right | now right].
    + assert (NoDup (somes rest) /\ Drawn g (somes rest)) as [N' D'].
      { destruct o as [a|]; cbn [somes] in N, D.
        - apply NoDup_cons_iff in N as [_ N]. split; [exact N|].
          intros x X. apply D. now right.
        - now split. }
      pose proof (Extends_generateId g) as X0.
      destruct (generateId g) as [d g1] eqn:G.
      assert (d = draws g (next g) /\ next g1 = S (next g)) as [Ed En]
        by (unfold generateId in G; injection G as <- <-; split; reflexivity).
      cbn [fst snd] in X0.
      destruct (IH g1 (CollisionFree_Extends _ _ X0 C) N' (Drawn_Extends _ _ _ X0 D'))
        as (N1 & D1 & X1 & L1 & O1).
      destruct (fillIds rest g1) as [l g']. cbn [fst snd ret] in *.
      destruct X0 as [Dr0 Le0]. destruct X1 as [Dr1 Le1].
      split; [|split; [|split; [|split]]].
      * constructor; [|exact N1]. intros I. destruct (O1 _ I) as [S|(k & K & Ek)].
        -- destruct (D' _ S) as (m & M & Em). rewrite Ed in Em. apply C in Em. lia.
        -- rewrite Dr0, Ed in Ek. apply C in Ek. lia.
      * intros x [<-|X]; [|now apply D1].
        exists (next g). rewrite Dr1, Dr0. split; [lia | exact Ed].
      * split; [congruence | lia].
      * cbn. now rewrite L1.
      * intros x [<-|X].
        -- right. exists (next g). split; [lia | exact Ed].
        -- destruct (O1 _ X) as [S|(k & K & Ek)].
           ++ left. destruct o; cbn [somes]; [now right | exact S].
           ++ right. exists k. rewrite Dr0 in Ek. split; [lia | exact Ek].
Qed.

Lemma somes_firstFour (ids : list string) : somes (firstFour ids) = firstn 4 ids.
Proof. destruct ids as [|a [|b [|c [|d l]]]]; reflexivity. Qed.

Lemma NoDup_firstn {A} (n : nat) (l : list A) : NoDup l -> NoDup (firstn n l).
Proof.
  intros N. rewrite <- (firstn_skipn n l) in N. now apply NoDup_app_remove_r in N.
Qed.

Lemma In_firstn {A} (n : nat) (l : list A) (x : A) : In x (firstn n l) -> In x l.
Proof.
  intros I. rewrite <- (firstn_skipn n l). apply in_or_app. now left.
Qed.

(** The identifiers of the suggested sub-items: those of the first four
    sub-items, filled up with new ones. *)
Lemma firstFour_fresh (ids : list string) (g : IdGen) :
  CollisionFree g -> NoDup ids -> Drawn g ids ->
  NoDup (fst (fillIds (firstFour ids) g))
  /\ Drawn (snd (fillIds (firstFour ids) g)) (fst (fillIds (firstFour ids) g))
  /\ Extends g (snd (fillIds (firstFour ids) g))
  /\ length (fst (fillIds (firstFour ids) g)) = 4.
Proof.
  intros C N D.
  destruct (fillIds_fresh (firstFour ids) g C) as (N1 & D1 & X1 & L1 & _).
  - rewrite somes_firstFour. now apply NoDup_firstn.
  - rewrite somes_firstFour. intros i I. apply D. eapply In_firstn. exact I.
  - auto.
Qed.

Lemma suggestedOptions_ids (topic : string) (q : Question) (g : IdGen) :
  map o_id (fst (suggestedOptions topic q g))
  = fst (fillIds (firstFour (map o_id (q_options q))) g)
  /\ snd (suggestedOptions topic q g)
     = snd (fillIds (firstFour (map o_id (q_options q))) g)
  /\ map o_isCorrect (fst (suggestedOptions topic q g)) = [true; false; false; false].
Proof.
  unfold suggestedOptions, firstFour. rewrite !nth_error_map.
  cbn [fillIds]. unfold bind.
  destruct (idOr _ g) as [a g1]. destruct (idOr _ g1) as [b g2].
  destruct (idOr _ g2) as [c g3]. destruct (idOr _ g3) as [d g4].
  repeat split.
Qed.

Lemma suggestedItems_ids (topic : string) (q : Question) (g : IdGen) :
  map i_id (fst (suggestedItems topic q g))
  = fst (fillIds (firstFour (map i_id (q_items q))) g)
  /\ snd (suggestedItems topic q g)
     = snd (fillIds (firstFour (map i_id (q_items q))) g)
  /\ map i_order (fst (suggestedItems topic q g)) = [0; 1; 2; 3]%Z.
Proof.
  unfold suggestedItems, firstFour. rewrite !nth_error_map.
  cbn [fillIds]. unfold bind.
  destruct (idOr _ g) as [a g1]. destruct (idOr _ g1) as [b g2].
  destruct (idOr _ g2) as [c g3]. destruct (idOr _ g3) as [d g4].
  repeat split.
Qed.

End Fresh.

(** ** [MCQQuestion]: the options under the editor's actions *)

Section Keyed.

Context {A : Type} (key : A -> string).

Lemma In_key_filter (p : A -> bool) (l : list A) (i : string) :
  In i (map key (filter p l)) -> In i (map key l).
Proof.
  intros I. apply in_map_iff in I as (a & E & I). apply filter_In in I as [I _].
  apply in_map_iff. eauto.
Qed.

Lemma NoDup_key_filter (p : A -> bool) (l : list A) :
  NoDup (map key l) -> NoDup (map key (filter p l)).
Proof.
  induction l as [|a l IH]; cbn; [auto|].
  intros N. apply NoDup_cons_iff in N as [Na N].
  destruct (p a); cbn; [|auto].
  constructor; [|auto]. intros I. apply Na. eapply In_key_filter. exact I.
Qed.

Lemma filter_other_keys (x : string) (l : list A) :
  ~ In x (map key l) ->
  filter (fun a => negb (String.eqb (key a) x)) l = l.
Proof.
  induction l as [|a l IH]; cbn; [reflexivity|].
  intros N. destruct (String.eqb_spec (key a) x) as [E|E]; [tauto|].
  cbn. f_equal. apply IH. tauto.
Qed.

(** Taking out a key that occurs once takes out one element. *)
Lemma filter_out_length (x : string) (l : list A) :
  NoDup (map key l) ->
  length l <= S (length (filter (fun a => negb (String.eqb (key a) x)) l)).
Proof.
  induction l as [|a l IH]; cbn; [lia|].
  intros N. apply NoDup_cons_iff in N as [Na N].
  destruct (String.eqb_spec (key a) x) as [E|E]; cbn.
  - subst x. rewrite (filter_other_keys _ l Na). lia.
  - specialize (IH N). lia.
Qed.

Lemma filter_no_key (x : string) (l : list A) :
  ~ In x (map key l) -> filter (fun a => String.eqb (key a) x) l = [].
Proof.
  induction l as [|a l IH]; cbn; [reflexivity|].
  intros N. destruct (String.eqb_spec (key a) x) as [E|E]; [tauto|].
  apply IH. tauto.
Qed.

(** A key that occurs once is the key of one element. *)
Lemma key_count (x : string) (l : list A) :
  NoDup (map key l) ->
  length (filter (fun a => String.eqb (key a) x) l) <= 1
  /\ (In x (map key l) -> length (filter (fun a => String.eqb (key a) x) l) = 1).
Proof.
  induction l as [|a l IH]; cbn; [split; [lia | tauto]|].
  intros N. apply NoDup_cons_iff in N as [Na N]. specialize (IH N).
  destruct (String.eqb_spec (key a) x) as [E|E]; cbn.
  - subst x. rewrite (filter_no_key _ l Na). cbn. split; [lia | reflexivity].
  - destruct IH as [IH1 IH2]. split; [exact IH1|]. intros [F|I]; [contradiction | auto].
Qed.

Lemma filter_filter_length (p r : A -> bool) (l : list A) :
  length (filter p (filter r l)) <= length (filter p l).
Proof.
  induction l as [|a l IH]; cbn; [lia|].
  destruct (r a), (p a) eqn:P; cbn; rewrite ?P; cbn; lia.
Qed.

End Keyed.

Section McqEditor.

Lemma setCorrectOption_count (q q' : Question) (optionId : string) :
  setCorrectOption q optionId = Some q' ->
  map o_id (q_options q') = map o_id (q_options q)
  /\ correctCount q'
     = length (filter (fun opt => String.eqb (o_id opt) optionId) (q_options q)).
Proof.
  intros H. injection H as <-. unfold correctCount. cbn [set_options q_options].
  split.
  - rewrite map_map. reflexivity.
  - induction (q_options q) as [|opt l IH]; cbn; [reflexivity|].
    destruct (String.eqb (o_id opt) optionId); cbn; now rewrite IH.
Qed.

Lemma withField_keeps (optionId : string) (field : OptionField) (l : list MCQOption) :
  (forall v, field <> IsCorrectField v) ->
  let l' := map (fun opt => if String.eqb (o_id opt) optionId
                            then withField opt field else opt) l in
  map o_id l' = map o_id l
  /\ length (filter o_isCorrect l') = length (filter o_isCorrect l).
Proof.
  intros F l'. unfold l'. split.
  - rewrite map_map. apply map_ext. intros opt.
    now destruct (String.eqb _ _), field.
  - induction l as [|opt l IH]; cbn; [reflexivity|].
    assert (o_isCorrect (if String.eqb (o_id opt) optionId
                         then withField opt field else opt) = o_isCorrect opt) as ->.
    { destruct (String.eqb _ _); [|reflexivity].
      destruct field; try reflexivity. now destruct (F value). }
    destruct (o_isCorrect opt); cbn; now rewrite IH.
Qed.

Lemma correct_snoc (l : list MCQOption) (i : string) :
  length (filter o_isCorrect (l ++ [mkOption i "" false (Some "")]))
  = length (filter o_isCorrect l).
Proof. rewrite filter_app, length_app. cbn. lia. Qed.

Lemma McqOk_options (q : Question) (g g' : IdGen) (l : list MCQOption) :
  McqOk q g -> Extends g g' ->
  NoDup (map o_id l) -> Drawn g' (map o_id l) -> 2 <= length l ->
  length (filter o_isCorrect l) <= 1 ->
  McqOk (set_options l q) g'.
Proof.
  intros [T _ _ _ _ O] X N D L C. constructor; auto.
Qed.

Lemma McqOk_same (q q' : Question) (g : IdGen) :
  McqOk q g -> q_type q' = q_type q -> q_options q' = q_options q ->
  q_items q' = q_items q -> q_zones q' = q_zones q -> q_imageUrl q' = q_imageUrl q ->
  McqOk q' g.
Proof.
  intros [T N D L C O] ET EO EI EZ EU. unfold correctCount in *.
  constructor; unfold correctCount; rewrite ?ET, ?EO, ?EI, ?EZ, ?EU; auto.
Qed.

Lemma handleAISuggest_McqOk (q q' : Question) (g : IdGen) :
  CollisionFree g -> McqOk q g -> fst (handleAISuggest q g) = Some q' ->
  McqOk q' (snd (handleAISuggest q g)) /\ Extends g (snd (handleAISuggest q g))
  /\ correctCount q' = 1.
Proof.
  intros C M. pose proof M as [T N D L K O]. unfold handleAISuggest. rewrite T.
  unfold bind, ret.
  set (topic := match q_topic q with
                | Some t => if truthy t then t else "the topic"
                | None => "the topic"
                end).
  destruct (suggestedOptions_ids topic q g) as (Ei & Eg & Ec).
  destruct (firstFour_fresh (map o_id (q_options q)) g C N D) as (N1 & D1 & X1 & L1).
  destruct (suggestedOptions topic q g) as [options g1]. cbn [fst snd] in *.
  intros H. injection H as <-. subst g1. rewrite <- Ei in N1, D1, L1.
  rewrite length_map in L1.
  assert (length (filter o_isCorrect options) = 1) as One.
  { destruct options as [|a [|b [|c [|d [|e l]]]]]; try discriminate L1.
    cbn in Ec. injection Ec as Ea Eb Ecc Ed. cbn. now rewrite Ea, Eb, Ecc, Ed. }
  split; [|split; [exact X1 | exact One]].
  constructor; cbn; auto; try lia.
Qed.

Lemma performMcq_ok (a : McqAction) (q : Question) (g : IdGen) :
  CollisionFree g -> McqOk q g ->
  McqOk (fst (performMcq a q g)) (snd (performMcq a q g))
  /\ Extends g (snd (performMcq a q g)).
Proof.
  intros C M. pose proof M as [T N D L K O]. unfold performMcq, bind, ret.
  destruct a; cbn [handleMcq ret fst snd updateStem updateOption setCorrectOption
                   updatePurpose updateMetadata].
  - split; [|apply Extends_refl]. now apply (McqOk_same q).
  - split; [|apply Extends_refl].
    destruct (withField_keeps optionId (TextField value) (q_options q)) as [Ei Ec];
      [discriminate|].
    apply (McqOk_options q g); auto using Extends_refl.
    + now rewrite Ei.
    + now rewrite Ei.
    + now rewrite length_map.
    + now rewrite Ec.
  - split; [|apply Extends_refl].
    destruct (withField_keeps optionId (FeedbackField value) (q_options q)) as [Ei Ec];
      [discriminate|].
    apply (McqOk_options q g); auto using Extends_refl.
    + now rewrite Ei.
    + now rewrite Ei.
    + now rewrite length_map.
    + now rewrite Ec.
  - unfold addOption, bind, ret.
    pose proof (Extends_generateId g) as X. pose proof (Drawn_snoc g _ D) as D'.
    pose proof (fresh_not_In g _ C D) as F.
    destruct (generateId g) as [i g'] eqn:G. cbn [fst snd] in *.
    assert (i = draws g (next g)) as Ei
      by (unfold generateId in G; now injection G as <- _).
    split; [|exact X]. apply (McqOk_options q g); auto.
    + rewrite map_app. cbn. apply NoDup_snoc; [exact N | now rewrite Ei].
    + now rewrite map_app.
    + rewrite length_app. lia.
    + now rewrite correct_snoc.
  - split; [|apply Extends_refl]. unfold removeOption.
    destruct (Nat.ltb_spec 2 (length (q_options q))) as [G|G]; [|exact M].
    apply (McqOk_options q g); auto using Extends_refl.
    + now apply NoDup_key_filter.
    + intros i I. apply D. eapply In_key_filter. exact I.
    + pose proof (filter_out_length o_id optionId (q_options q) N). lia.
    + pose proof (filter_filter_length o_isCorrect
                    (fun opt => negb (String.eqb (o_id opt) optionId)) (q_options q)).
      unfold correctCount in K. lia.
  - split; [|apply Extends_refl].
    destruct (setCorrectOption_count q _ optionId eq_refl) as [Ei Ec].
    cbn [setCorrectOption set_options q_options] in Ei.
    unfold correctCount in Ec. cbn [setCorrectOption set_options q_options] in Ec.
    apply (McqOk_options q g); auto using Extends_refl.
    + now rewrite Ei.
    + now rewrite Ei.
    + now rewrite length_map.
    + rewrite Ec. apply (key_count o_id optionId _ N).
  - split; [|apply Extends_refl]. now apply (McqOk_same q).
  - split; [|apply Extends_refl]. destruct m; now apply (McqOk_same q).
  - destruct (handleAISuggest q g) as [[q'|] g'] eqn:H; cbn [fst snd].
    + destruct (handleAISuggest_McqOk q q' g C M) as (M' & X & _).
      * now rewrite H.
      * rewrite H in M', X. auto.
    + exfalso. unfold handleAISuggest in H. rewrite T in H. unfold bind, ret in H.
      destruct (suggestedOptions _ q g). discriminate H.
Qed.

Lemma performAllMcq_ok (l : list McqAction) (q : Question) (g : IdGen) :
  CollisionFree g -> McqOk q g ->
  McqOk (fst (performAllMcq l q g)) (snd (performAllMcq l q g)).
Proof.
  revert q g. induction l as [|a l IH]; intros q g C M; cbn [performAllMcq].
  - exact M.
  - unfold bind. destruct (performMcq_ok a q g C M) as [M' X].
    destruct (performMcq a q g) as [q' g']. cbn [fst snd] in *.
    apply IH; [exact (CollisionFree_Extends _ _ X C) | exact M'].
Qed.

Lemma createEmptyQuestion_McqOk (g : IdGen) :
  CollisionFree g ->
  McqOk (fst (createEmptyQuestion mcq g)) (snd (createEmptyQuestion mcq g))
  /\ Extends g (snd (createEmptyQuestion mcq g)).
Proof.
  intros C. split; [|split; cbn; [reflexivity | lia]].
  assert (forall i j, i <> j -> draws g i <> draws g j) as F
    by (intros i j N E; apply N, C, E).
  constructor; cbn; auto.
  - repeat constructor; cbn; intros H;
      repeat match goal with
             | H : _ \/ _ |- _ => destruct H as [H|H]
             | H : False |- _ => destruct H
             | H : draws g _ = draws g _ |- _ => apply C in H; lia
             end.
  - intros i [<-|[<-|[<-|[<-|[]]]]]; eexists; (split; [|reflexivity]); cbn; lia.
Qed.

End McqEditor.

Section McqEndToEnd.

Lemma validateQuestion_set_createdBy (q : Question) (author : option string) :
  validateQuestion (set_createdBy author q) = validateQuestion q.
Proof. unfold validateQuestion. now rewrite !validateErrors_checks. Qed.

Lemma correct_of_valid (q : Question) :
  q_type q = mcq -> isValid (validateQuestion q) = true -> 1 <= correctCount q.
Proof.
  intros T V. destruct (valid_checks q V) as (_ & _ & _ & E).
  unfold typeErrors in E. rewrite T in E. apply app_nil_iff in E as [E _].
  apply cond_false, negb_false_iff in E. unfold correctCount.
  induction (q_options q) as [|opt l IH]; cbn in *; [discriminate|].
  destruct (o_isCorrect opt); cbn; [lia | auto].
Qed.

Lemma no_correct_left (x : string) (l : list MCQOption) :
  (forall opt, In opt l -> o_isCorrect opt = true -> o_id opt = x) ->
  filter o_isCorrect (filter (fun opt => negb (String.eqb (o_id opt) x)) l) = [].
Proof.
  induction l as [|opt l IH]; cbn; [reflexivity|]. intros A.
  destruct (String.eqb_spec (o_id opt) x) as [E|E]; cbn.
  - apply IH. intros o I. apply A. now right.
  - destruct (o_isCorrect opt) eqn:K.
    + exfalso. apply E, A; [now left | exact K].
    + apply IH. intros o I. apply A. now right.
Qed.

Lemma no_correct_existsb (l : list MCQOption) :
  filter o_isCorrect l = [] -> existsb o_isCorrect l = false.
Proof.
  induction l as [|opt l IH]; cbn; [reflexivity|].
  destruct (o_isCorrect opt); [discriminate | auto].
Qed.

(** The hook has nothing against an MCQ question that the client side
    finds valid and that has one correct option. *)
Lemma valid_hook_mcq (q : Question) :
  q_type q = mcq -> isValid (validateQuestion q) = true -> correctCount q = 1 ->
  pre_save (cast q) = None.
Proof.
  intros T V One. destruct (valid_checks q V) as (_ & _ & _ & E).
  unfold typeErrors in E. rewrite T in E.
  apply app_nil_iff in E as [_ E]. apply app_nil_iff in E as [_ E].
  apply cond_false in E. unfold isFormative in E.
  assert (q_type (cast q) = mcq) as Tc by exact T.
  rewrite (pre_save_of_mcq _ Tc). unfold pre_save_mcq. rewrite Tc.
  cbn [QuestionType_eqb].
  change (length (filter o_isCorrect (q_options (cast q)))) with (correctCount (cast q)).
  rewrite correctCount_cast, One. cbn [Nat.eqb negb].
  cbn [cast q_purpose q_options].
  destruct (Purpose_eqb (q_purpose q) formative); [|reflexivity].
  cbn [andb] in E. rewrite existsb_map.
  assert (existsb (fun a => negb (truthyOpt (o_feedback (cast_option a)))) (q_options q)
          = existsb (fun opt => blankOpt (o_feedback opt)) (q_options q)) as ->.
  { apply existsb_ext. intros a. cbn [cast_option o_feedback].
    rewrite truthyOpt_trimOpt. apply negb_involutive. }
  now rewrite E.
Qed.

(** A question the client side finds valid, with an author that casts to
    an [ObjectId]: what stands between it and persistence. *)
Lemma authored_saved_iff (q : Question) (author : string) :
  Conforms q -> isValid (validateQuestion q) = true -> isObjectId author = true ->
  (save (set_createdBy (Some author) q) = Saved
   <-> bloomsOk q = true
       /\ imageUrlOk (cast q) = true
       /\ match q_type q with
          | mcq => correctCount q = 1
          | ordering => sortedOrders q = indices (length (q_items q))
          | hotspot => True
          end).
Proof.
  intros C V A. split.
  - intros S. destruct (saved_has_more _ S) as (_ & B & U & X). auto.
  - intros (B & U & X). apply valid_and_more_saved.
    + exact C.
    + now rewrite validateQuestion_set_createdBy.
    + unfold SchemaOnly, createdByOk. cbn [set_createdBy q_createdBy]. auto.
Qed.

End McqEndToEnd.

(** X9: with a generator that never yields the same identifier twice, an
    MCQ question made by [createEmptyQuestion] and changed by any actions of
    its editor (texts, feedback, adding and removing options, choosing the
    correct option, purpose, metadata, suggestions) keeps options with
    different identifiers, at least two of them, and at most one correct. *)
Theorem X9_mcq_editor_keeps (actions : list McqAction) (g : IdGen) :
  CollisionFree g ->
  let created := createEmptyQuestion mcq g in
  let q := fst (performAllMcq actions (fst created) (snd created)) in
  q_type q = mcq
  /\ NoDup (map o_id (q_options q))
  /\ 2 <= length (q_options q)
  /\ correctCount q <= 1.
Proof.
  intros C created q.
  destruct (createEmptyQuestion_McqOk g C) as [M X].
  pose proof (performAllMcq_ok actions _ _ (CollisionFree_Extends _ _ X C) M)
    as [T N _ L K _].
  auto.
Qed.

(** X10: such a question, once the client-side validator finds it valid,
    has exactly one correct option and passes the hook of the schema. With
    an author that casts to an [ObjectId] it is persisted, unless its
    Bloom's level is a string that is no level: the empty choice of the
    select, which the editor stores as the empty string and the [enum] of
    the schema refuses. *)
Theorem X10_mcq_editor_valid_is_saved
        (actions : list McqAction) (g : IdGen) (author : string) :
  CollisionFree g ->
  let created := createEmptyQuestion mcq g in
  let q := fst (performAllMcq actions (fst created) (snd created)) in
  isValid (validateQuestion q) = true ->
  isObjectId author = true ->
  correctCount q = 1
  /\ pre_save (cast q) = None
  /\ (save (set_createdBy (Some author) q) = Saved <-> bloomsOk q = true).
Proof.
  intros C created q V A.
  destruct (createEmptyQuestion_McqOk g C) as [M X].
  pose proof (performAllMcq_ok actions _ _ (CollisionFree_Extends _ _ X C) M)
    as [T N _ L K (Oi & Oz & Ou)].
  fold created in T, N, L, K, Oi, Oz, Ou. fold q in T, N, L, K, Oi, Oz, Ou.
  assert (correctCount q = 1) as One
    by (pose proof (correct_of_valid q T V); lia).
  split; [exact One|]. split; [exact (valid_hook_mcq q T V One)|].
  assert (Conforms q) as Cq by (unfold Conforms; rewrite T; auto).
  rewrite (authored_saved_iff q author Cq V A), T.
  assert (imageUrlOk (cast q) = true) as U
    by (unfold imageUrlOk; cbn [cast q_imageUrl]; now rewrite Ou).
  tauto.
Qed.

(** X11: [setCorrectOption] leaves the identifiers, texts and feedback of
    the options as they are and marks as correct exactly the options with
    the given identifier: one option when the identifiers differ and the
    identifier is that of an option, none when no option has it. Choosing the
    same option again changes nothing. *)
Theorem X11_setCorrectOption (q : Question) (optionId : string) :
  exists q',
    setCorrectOption q optionId = Some q'
    /\ map withoutCorrect (q_options q') = map withoutCorrect (q_options q)
    /\ map o_isCorrect (q_options q')
       = map (fun opt => String.eqb (o_id opt) optionId) (q_options q)
    /\ (NoDup (map o_id (q_options q)) -> In optionId (map o_id (q_options q)) ->
        correctCount q' = 1)
    /\ (~ In optionId (map o_id (q_options q)) -> correctCount q' = 0)
    /\ setCorrectOption q' optionId = Some q'.
Proof.
  eexists. split; [reflexivity|].
  destruct (setCorrectOption_count q _ optionId eq_refl) as [Ei Ec].
  cbn [set_options q_options]. rewrite !map_map.
  split; [reflexivity|]. split; [reflexivity|]. split; [|split].
  - intros N I. rewrite Ec. now apply (key_count o_id optionId _ N).
  - intros N. rewrite Ec. now rewrite (filter_no_key o_id optionId _ N).
  - unfold setCorrectOption. cbn [set_options q_options]. rewrite map_map. cbn.
    destruct q; reflexivity.
Qed.

Lemma X11_setCorrectOption_witness :
  NoDup (map o_id (q_options demoMcq))
  /\ In "o3" (map o_id (q_options demoMcq))
  /\ ~ In "o9" (map o_id (q_options demoMcq))
  /\ (exists q', setCorrectOption demoMcq "o3" = Some q'
                 /\ map o_isCorrect (q_options q') = [false; false; true]
                 /\ correctCount q' = 1)
  /\ (exists q', setCorrectOption demoMcq "o9" = Some q' /\ correctCount q' = 0).
Proof.
  assert (NoDup (map o_id (q_options demoMcq))) as N.
  { repeat constructor; cbn; intros H;
      repeat match goal with
             | H : _ \/ _ |- _ => destruct H as [H|H]
             | H : False |- _ => destruct H
             end; discriminate H. }
  assert (In "o3" (map o_id (q_options demoMcq))) as I by (cbn; tauto).
  assert (~ In "o9" (map o_id (q_options demoMcq))) as NI.
  { cbn. intros [H|[H|[H|[]]]]; discriminate H. }
  split; [exact N|]. split; [exact I|]. split; [exact NI|]. split.
  - destruct (X11_setCorrectOption demoMcq "o3") as (q' & E & _ & F & One & _).
    exists q'. split; [exact E|]. split; [exact F | exact (One N I)].
  - destruct (X11_setCorrectOption demoMcq "o9") as (q' & E & _ & _ & _ & Z & _).
    exists q'. split; [exact E | exact (Z NI)].
Defined.

(** X12: [removeOption] does nothing on a question with 2 options or fewer.
    On more options it takes out the options with the given identifier and
    keeps the others as they are, in order: one option less when the
    identifiers differ and an option has the identifier. The correct marks
    are left alone, so that taking out the options that are correct leaves a
    question without a correct option, which the validator reports. *)
Theorem X12_removeOption (q : Question) (optionId : string) :
  (length (q_options q) <= 2 -> removeOption q optionId = None)
  /\ (2 < length (q_options q) ->
      exists q',
        removeOption q optionId = Some q'
        /\ q_options q'
           = filter (fun opt => negb (String.eqb (o_id opt) optionId)) (q_options q)
        /\ ~ In optionId (map o_id (q_options q'))
        /\ (NoDup (map o_id (q_options q)) -> In optionId (map o_id (q_options q)) ->
            S (length (q_options q')) = length (q_options q))
        /\ (~ In optionId (map o_id (q_options q)) -> q_options q' = q_options q)
        /\ ((forall opt, In opt (q_options q) -> o_isCorrect opt = true ->
                         o_id opt = optionId) ->
            correctCount q' = 0
            /\ (q_type q = mcq -> In E_CORRECT (errors (validateQuestion q'))))).
Proof.
  unfold removeOption. split; intros L.
  - destruct (Nat.ltb_spec 2 (length (q_options q))); [lia | reflexivity].
  - destruct (Nat.ltb_spec 2 (length (q_options q))); [|lia].
    eexists. split; [reflexivity|]. cbn [set_options q_options].
    split; [reflexivity|]. split; [|split; [|split]].
    + intros I. apply in_map_iff in I as (opt & E & I).
      apply filter_In in I as [_ I]. subst. now rewrite String.eqb_refl in I.
    + intros N I.
      pose proof (filter_out_length o_id optionId _ N) as L1.
      pose proof (key_count o_id optionId _ N) as [_ One]. specialize (One I).
      pose proof (filter_length (fun opt => String.eqb (o_id opt) optionId)
                    (q_options q)) as P.
      rewrite One in P. lia.
    + apply filter_other_keys.
    + intros A. pose proof (no_correct_left optionId _ A) as Z. split.
      * unfold correctCount. cbn [set_options q_options]. now rewrite Z.
      * intros T. cbn [validateQuestion errors]. apply In_validateErrors.
        do 3 right. unfold typeErrors. cbn [set_options q_type q_options].
        rewrite T, !in_app_iff, !In_cond. left. split; [|reflexivity].
        apply negb_true_iff. now apply no_correct_existsb.
Qed.

Lemma X12_removeOption_witness :
  2 < length (q_options demoMcq)
  /\ (forall opt, In opt (q_options demoMcq) -> o_isCorrect opt = true -> o_id opt = "o1")
  /\ q_type demoMcq = mcq
  /\ exists q', removeOption demoMcq "o1" = Some q'
                /\ map o_id (q_options q') = ["o2"; "o3"]
                /\ In E_CORRECT (errors (validateQuestion q')).
Proof.
  assert (2 < length (q_options demoMcq)) as L by (cbn; lia).
  assert (forall opt, In opt (q_options demoMcq) -> o_isCorrect opt = true ->
                      o_id opt = "o1") as A.
  { intros opt [<-|[<-|[<-|[]]]]; cbn; intros H; [reflexivity | discriminate H | discriminate H]. }
  split; [exact L|]. split; [exact A|]. split; [reflexivity|].
  destruct (proj2 (X12_removeOption demoMcq "o1") L) as (q' & E & F & _ & _ & _ & Z).
  exists q'. split; [exact E|]. split; [now rewrite F|].
  exact (proj2 (Z A) eq_refl).
Defined.

(** The generator of the examples never yields the same identifier twice. *)
Lemma demoGen_CollisionFree : CollisionFree demoGen.
Proof.
  intros i j E. cbn in E. injection E as E. unfold decimal in E.
  apply (f_equal NilEmpty.uint_of_string) in E. rewrite !NilEmpty.usu in E.
  injection E as E. apply (f_equal Nat.of_uint) in E.
  now rewrite !DecimalNat.Unsigned.of_to in E.
Qed.

Lemma X9_mcq_editor_keeps_witness :
  let q := fst (performAllMcq demoMcqSession (fst (createEmptyQuestion mcq demoGen))
                  (snd (createEmptyQuestion mcq demoGen))) in
  map o_id (q_options q) = ["id1"; "id3"; "id4"; "id5"]
  /\ NoDup (map o_id (q_options q))
  /\ 2 <= length (q_options q)
  /\ correctCount q <= 1.
Proof.
  cbv zeta. split; [reflexivity|].
  exact (proj2 (X9_mcq_editor_keeps demoMcqSession demoGen demoGen_CollisionFree)).
Defined.

Lemma X10_mcq_editor_valid_is_saved_witness :
  let q := fst (performAllMcq [McqSuggest] (fst (createEmptyQuestion mcq demoGen))
                  (snd (createEmptyQuestion mcq demoGen))) in
  let q' := fst (performAllMcq
                   [McqSuggest; McqPurpose summative; McqMetadata (BloomsLevelOf "");
                    McqPurpose formative]
                   (fst (createEmptyQuestion mcq demoGen))
                   (snd (createEmptyQuestion mcq demoGen))) in
  (isValid (validateQuestion q) = true
   /\ correctCount q = 1
   /\ save (set_createdBy (Some "65ab4f2e9c1234567890abcd") q) = Saved)
  /\ (isValid (validateQuestion q') = true
      /\ q_bloomsLevel q' = Some ""
      /\ save (set_createdBy (Some "65ab4f2e9c1234567890abcd") q') <> Saved).
Proof.
  cbv zeta. split.
  - assert (isValid (validateQuestion
              (fst (performAllMcq [McqSuggest] (fst (createEmptyQuestion mcq demoGen))
                      (snd (createEmptyQuestion mcq demoGen))))) = true) as V
      by reflexivity.
    destruct (X10_mcq_editor_valid_is_saved [McqSuggest] demoGen
                "65ab4f2e9c1234567890abcd" demoGen_CollisionFree V eq_refl)
      as (One & _ & S).
    split; [exact V|]. split; [exact One | now apply S].
  - assert (isValid (validateQuestion
              (fst (performAllMcq
                      [McqSuggest; McqPurpose summative; McqMetadata (BloomsLevelOf "");
                       McqPurpose formative]
                      (fst (createEmptyQuestion mcq demoGen))
                      (snd (createEmptyQuestion mcq demoGen))))) = true) as V
      by reflexivity.
    destruct (X10_mcq_editor_valid_is_saved
                [McqSuggest; McqPurpose summative; McqMetadata (BloomsLevelOf "");
                 McqPurpose formative]
                demoGen "65ab4f2e9c1234567890abcd" demoGen_CollisionFree V eq_refl)
      as (_ & _ & S).
    split; [exact V|]. split; [reflexivity|].
    intros H. apply S in H. discriminate H.
Defined.

(** ** [OrderingQuestion]: the items under the editor's actions *)

Section Moves.

Context {A : Type}.

Lemma firstn_exact (l1 l2 : list A) : firstn (length l1) (l1 ++ l2) = l1.
Proof. induction l1 as [|a l1 IH]; cbn; [now destruct l2 | now rewrite IH]. Qed.

Lemma skipn_exact (l1 l2 : list A) : skipn (length l1) (l1 ++ l2) = l2.
Proof. induction l1 as [|a l1 IH]; cbn; [reflexivity | exact IH]. Qed.

(** The array without its element at [f], and that element. *)
Lemma take_out (l : list A) (f : nat) (x : A) :
  nth_error l f = Some x ->
  Permutation l (x :: firstn f l ++ skipn (S f) l)
  /\ S (length (firstn f l ++ skipn (S f) l)) = length l.
Proof.
  intros N. apply nth_error_split in N as (l1 & l2 & -> & <-).
  rewrite firstn_exact.
  assert (skipn (S (length l1)) (l1 ++ x :: l2) = l2) as ->.
  { replace (S (length l1)) with (length (l1 ++ [x]))
      by (rewrite length_app; cbn; lia).
    replace (l1 ++ x :: l2) with ((l1 ++ [x]) ++ l2)
      by (rewrite <- app_assoc; reflexivity).
    apply skipn_exact. }
  split.
  - apply Permutation_sym, Permutation_middle.
  - rewrite !length_app. cbn. lia.
Qed.

(** [arrayMove] rearranges when there is an element to take out: it loses
    and repeats no element, and leaves none [undefined]. *)
Lemma arrayMove_moved (l : list A) (from to : Z) (x : A) :
  nth_error l (spliceStart (length l) from) = Some x ->
  exists moved, arrayMove l from to = map Some moved /\ Permutation moved l.
Proof.
  intros N. unfold arrayMove. rewrite N.
  destruct (take_out _ _ _ N) as [P _].
  set (rest := firstn _ l ++ skipn _ l) in *.
  set (t := spliceStart (length rest) _).
  exists (firstn t rest ++ x :: skipn t rest). split.
  - now rewrite map_app.
  - eapply perm_trans; [|apply Permutation_sym; exact P].
    eapply perm_trans; [apply Permutation_sym, Permutation_middle|].
    now rewrite firstn_skipn.
Qed.

(** On the empty array there is none, and [undefined] is put in. *)
Lemma arrayMove_nil (from to : Z) : arrayMove (@nil A) from to = [None].
Proof.
  assert (forall start, spliceStart 0 start = 0) as Sp.
  { intros start. unfold spliceStart.
    destruct (Z.ltb_spec start 0); [lia | apply Nat.min_0_r]. }
  unfold arrayMove. cbn [length]. rewrite Sp. cbn [nth_error firstn skipn app length].
  now rewrite Sp.
Qed.

(** [findIndex] yields an index of the array, or -1. *)
Lemma findIndexFrom_range (p : A -> bool) (index : Z) (l : list A) :
  (findIndexFrom p index l = -1
   \/ index <= findIndexFrom p index l < index + Z.of_nat (length l))%Z.
Proof.
  revert index. induction l as [|a l IH]; intros index; cbn [findIndexFrom length].
  - now left.
  - destruct (p a); [right; lia|].
    destruct (IH (index + 1)%Z) as [E|R]; [now left | right; lia].
Qed.

(** So [splice] finds an element at it, in an array that is not empty. *)
Lemma findIndex_element (p : A -> bool) (l : list A) :
  l <> [] ->
  exists x, nth_error l (spliceStart (length l) (findIndex p l)) = Some x.
Proof.
  intros N.
  assert (0 < length l) as L by (destruct l; [congruence | cbn; lia]).
  assert (spliceStart (length l) (findIndex p l) < length l) as R.
  { unfold findIndex, spliceStart.
    destruct (findIndexFrom_range p 0 l) as [-> | R].
    - cbn. lia.
    - destruct (Z.ltb_spec (findIndexFrom p 0 l) 0); lia. }
  destruct (nth_error l _) as [x|] eqn:E; [eauto|].
  apply nth_error_None in E. lia.
Qed.

(** The element at index [i] lands at index [j]. *)
Lemma arrayMove_lands (l : list A) (i j : nat) (x : A) :
  nth_error l i = Some x -> j < length l ->
  nth_error (arrayMove l (Z.of_nat i) (Z.of_nat j)) j = Some (Some x).
Proof.
  intros N J.
  assert (i < length l) as I by (apply nth_error_Some; congruence).
  unfold arrayMove.
  assert (forall n k, k <= n -> spliceStart n (Z.of_nat k) = k) as Sp.
  { intros n k K. unfold spliceStart.
    destruct (Z.ltb_spec (Z.of_nat k) 0); [lia|]. rewrite Nat2Z.id. lia. }
  destruct (Z.ltb_spec (Z.of_nat j) 0); [lia|].
  rewrite (Sp (length l) i) by lia. rewrite N.
  destruct (take_out _ _ _ N) as [_ L].
  set (rest := firstn i l ++ skipn (S i) l) in *.
  rewrite (Sp (length rest) j) by lia.
  rewrite nth_error_app2; rewrite length_map, length_firstn; [|lia].
  replace (j - Nat.min j (length rest)) with 0 by lia. reflexivity.
Qed.

End Moves.

Section OrderingSessions.

Lemma mapIndexed_nth {A B} (f : A -> nat -> B) (index k : nat) (l : list A) (a : A) :
  nth_error l k = Some a ->
  nth_error (mapIndexed f index l) k = Some (f a (index + k)).
Proof.
  revert index k. induction l as [|b l IH]; intros index [|k]; cbn; try discriminate.
  - intros H. injection H as <-. now rewrite Nat.add_0_r.
  - intros H. rewrite (IH (S index) k H). do 2 f_equal. lia.
Qed.

Lemma mapIndexed_map {A B C} (f : A -> nat -> B) (h : B -> C) (h' : A -> C)
      (index : nat) (l : list A) :
  (forall a k, h (f a k) = h' a) -> map h (mapIndexed f index l) = map h' l.
Proof.
  intros H. revert index. induction l as [|a l IH]; intros index; cbn; [reflexivity|].
  now rewrite H, IH.
Qed.

Lemma renumber_ids (l : list OrderingItem) : map i_id (renumber l) = map i_id l.
Proof. apply mapIndexed_map. reflexivity. Qed.

Lemma renumber_texts (l : list OrderingItem) : map i_text (renumber l) = map i_text l.
Proof. apply mapIndexed_map. reflexivity. Qed.

Lemma renumber_length (l : list OrderingItem) : length (renumber l) = length l.
Proof. apply mapIndexed_length. Qed.

Lemma renumber_orders (l : list OrderingItem) :
  map i_order (renumber l) = indices (length l).
Proof. apply renumber_from. Qed.

Lemma asItems_renumberMoved_from (index : nat) (l : list OrderingItem) :
  asItems
    (mapIndexed (fun element k =>
                   match element with
                   | Some item => AnItem (mkItem (i_id item) (i_text item) (Z.of_nat k))
                   | None => OrderOnly (Z.of_nat k)
                   end) index (map Some l))
  = Some (mapIndexed (fun item k => mkItem (i_id item) (i_text item) (Z.of_nat k))
            index l).
Proof.
  revert index. induction l as [|a l IH]; intros index; cbn; [reflexivity|].
  now rewrite IH.
Qed.

(** When no element is [undefined], the objects of the renumbering are the
    items renumbered. *)
Lemma asItems_renumberMoved (l : list OrderingItem) :
  asItems (renumberMoved (map Some l)) = Some (renumber l).
Proof. apply asItems_renumberMoved_from. Qed.

(** On a question that has items, [handleDragEnd] passes them on,
    rearranged and renumbered. *)
Lemma handleDragEnd_Dropped (q : Question) (active over : string) :
  q_items q <> [] -> active <> over ->
  exists moved,
    arrayMove (q_items q)
      (findIndex (fun item => String.eqb (i_id item) active) (q_items q))
      (findIndex (fun item => String.eqb (i_id item) over) (q_items q))
    = map Some moved
    /\ Permutation moved (q_items q)
    /\ handleDragEnd q active over = Dropped (set_items (renumber moved) q).
Proof.
  intros N D. unfold handleDragEnd.
  destruct (String.eqb_spec active over) as [E|_]; [contradiction|]. cbn [negb].
  destruct (findIndex_element (fun item => String.eqb (i_id item) active) _ N)
    as [x X].
  destruct (arrayMove_moved _ _
              (findIndex (fun item => String.eqb (i_id item) over) (q_items q)) _ X)
    as (moved & E & P).
  exists moved. split; [exact E|]. split; [exact P|].
  now rewrite E, asItems_renumberMoved.
Qed.

(** And on a question without items, the one object [{ order: 0 }]. *)
Lemma handleDragEnd_undefined (q : Question) (active over : string) :
  q_items q = [] -> active <> over ->
  handleDragEnd q active over = DroppedUndefined [OrderOnly 0].
Proof.
  intros N D. unfold handleDragEnd.
  destruct (String.eqb_spec active over) as [E|_]; [contradiction|]. cbn [negb].
  rewrite N, arrayMove_nil. reflexivity.
Qed.

Lemma OrderingOk_items (q : Question) (g g' : IdGen) (l : list OrderingItem) :
  OrderingOk q g ->
  NoDup (map i_id l) -> Drawn g' (map i_id l) -> 2 <= length l ->
  map i_order l = indices (length l) ->
  OrderingOk (set_items l q) g'.
Proof. intros [T _ _ _ _ O] N D L S. constructor; auto. Qed.

Lemma OrderingOk_same (q q' : Question) (g : IdGen) :
  OrderingOk q g -> q_type q' = q_type q -> q_items q' = q_items q ->
  q_options q' = q_options q -> q_zones q' = q_zones q ->
  q_imageUrl q' = q_imageUrl q ->
  OrderingOk q' g.
Proof.
  intros [T N D L S O] ET EI EO EZ EU. unfold orderValues in *.
  constructor; unfold orderValues; rewrite ?ET, ?EI, ?EO, ?EZ, ?EU; auto.
Qed.

Lemma perform_OrderingOk (a : OrderingAction) (q : Question) (g : IdGen) :
  CollisionFree g -> OrderingOk q g ->
  OrderingOk (fst (perform a q g)) (snd (perform a q g))
  /\ Extends g (snd (perform a q g)).
Proof.
  intros C M. pose proof M as [T N D L S O]. unfold perform, bind, ret.
  destruct a; cbn [handle ret fst snd updateStem updateItem updatePurpose updateMetadata].
  - split; [|apply Extends_refl]. now apply (OrderingOk_same q).
  - split; [|apply Extends_refl].
    assert (map i_id (map (fun item => if String.eqb (i_id item) itemId
                                       then mkItem (i_id item) text (i_order item)
                                       else item) (q_items q))
            = map i_id (q_items q)) as Ei.
    { rewrite map_map. apply map_ext. intros item. now destruct (String.eqb _ _). }
    apply (OrderingOk_items q g).
    + exact M.
    + now rewrite Ei.
    + now rewrite Ei.
    + now rewrite length_map.
    + rewrite length_map, map_map. unfold orderValues in S. rewrite <- S.
      apply map_ext. intros item. now destruct (String.eqb _ _).
  - unfold addItem, bind, ret.
    pose proof (Extends_generateId g) as X. pose proof (Drawn_snoc g _ D) as D'.
    pose proof (fresh_not_In g _ C D) as F.
    destruct (generateId g) as [i g'] eqn:G. cbn [fst snd] in *.
    assert (i = draws g (next g)) as Ei
      by (unfold generateId in G; now injection G as <- _).
    split; [|exact X]. apply (OrderingOk_items q g); auto.
    + rewrite map_app. cbn. apply NoDup_snoc; [exact N | now rewrite Ei].
    + now rewrite map_app.
    + rewrite length_app. lia.
    + unfold orderValues in S. rewrite map_app, length_app, S. cbn.
      unfold indices. now rewrite upFrom_snoc.
  - split; [|apply Extends_refl]. unfold removeItem.
    destruct (Nat.ltb_spec 2 (length (q_items q))) as [G|G]; [|exact M].
    cbn [fst]. apply (OrderingOk_items q g).
    + exact M.
    + rewrite renumber_ids. now apply NoDup_key_filter.
    + rewrite renumber_ids. intros i I. apply D. eapply In_key_filter. exact I.
    + rewrite renumber_length.
      pose proof (filter_out_length i_id itemId (q_items q) N). lia.
    + now rewrite renumber_orders, renumber_length.
  - split; [|apply Extends_refl].
    destruct (String.eqb_spec active over) as [E|E].
    { unfold handleDragEnd. rewrite (proj2 (String.eqb_eq active over) E). exact M. }
    assert (q_items q <> []) as Ne by (destruct (q_items q); [cbn in L; lia | congruence]).
    destruct (handleDragEnd_Dropped q active over Ne E) as (moved & _ & P0 & ->).
    cbn [fst].
    assert (Permutation (map i_id moved) (map i_id (q_items q))) as P
      by now apply Permutation_map.
    apply (OrderingOk_items q g).
    + exact M.
    + rewrite renumber_ids. eapply Permutation_NoDup; [apply Permutation_sym, P | exact N].
    + rewrite renumber_ids. intros i I. apply D. eapply Permutation_in; [exact P | exact I].
    + rewrite renumber_length.
      rewrite <- (length_map i_id), (Permutation_length P), length_map. exact L.
    + now rewrite renumber_orders, renumber_length.
  - split; [|apply Extends_refl]. now apply (OrderingOk_same q).
  - split; [|apply Extends_refl]. destruct m; now apply (OrderingOk_same q).
  - unfold handleAISuggest. rewrite T. unfold bind, ret.
    set (topic := match q_topic q with
                  | Some t => if truthy t then t else "the topic"
                  | None => "the topic"
                  end).
    destruct (suggestedItems_ids topic q g) as (Ei & Eg & Eo).
    destruct (firstFour_fresh (map i_id (q_items q)) g C N D) as (N1 & D1 & X1 & L1).
    destruct (suggestedItems topic q g) as [items g1]. cbn [fst snd] in *.
    subst g1. rewrite <- Ei in N1, D1, L1. rewrite length_map in L1.
    split; [|exact X1]. constructor; cbn; auto; try lia.
    unfold orderValues. cbn. now rewrite Eo, L1.
Qed.

Lemma performAll_OrderingOk (l : list OrderingAction) (q : Question) (g : IdGen) :
  CollisionFree g -> OrderingOk q g ->
  OrderingOk (fst (performAll l q g)) (snd (performAll l q g)).
Proof.
  revert q g. induction l as [|a l IH]; intros q g C M; cbn [performAll].
  - exact M.
  - unfold bind. destruct (perform_OrderingOk a q g C M) as [M' X].
    destruct (perform a q g) as [q' g']. cbn [fst snd] in *.
    apply IH; [exact (CollisionFree_Extends _ _ X C) | exact M'].
Qed.

Lemma createEmptyQuestion_OrderingOk (g : IdGen) :
  CollisionFree g ->
  OrderingOk (fst (createEmptyQuestion ordering g)) (snd (createEmptyQuestion ordering g))
  /\ Extends g (snd (createEmptyQuestion ordering g)).
Proof.
  intros C. split; [|split; cbn; [reflexivity | lia]].
  constructor; cbn; auto.
  - repeat constructor; cbn; intros H;
      repeat match goal with
             | H : _ \/ _ |- _ => destruct H as [H|H]
             | H : False |- _ => destruct H
             | H : draws g _ = draws g _ |- _ => apply C in H; lia
             end.
  - intros i [<-|[<-|[<-|[]]]]; eexists; (split; [|reflexivity]); cbn; lia.
Qed.

End OrderingSessions.

(** X13: with a generator that never yields the same identifier twice, an
    ordering question made by [createEmptyQuestion] and changed by any
    actions of its editor keeps items with different identifiers, at least
    two of them, and passes the hook of the schema. Once the client-side
    validator finds it valid, with an author that casts to an [ObjectId] it
    is persisted, unless its Bloom's level is a string that is no level (the
    empty choice of the select, stored as the empty string). *)
Theorem X13_ordering_editor
        (actions : list OrderingAction) (g : IdGen) (author : string) :
  CollisionFree g ->
  let created := createEmptyQuestion ordering g in
  let q := fst (performAll actions (fst created) (snd created)) in
  NoDup (map i_id (q_items q))
  /\ 2 <= length (q_items q)
  /\ ~ In E_ITEMS (errors (validateQuestion q))
  /\ pre_save (cast q) = None
  /\ (isValid (validateQuestion q) = true -> isObjectId author = true ->
      (save (set_createdBy (Some author) q) = Saved <-> bloomsOk q = true)).
Proof.
  intros C created q.
  destruct (createEmptyQuestion_OrderingOk g C) as [M X].
  pose proof (performAll_OrderingOk actions _ _ (CollisionFree_Extends _ _ X C) M)
    as [T N _ L S (Oo & Oz & Ou)].
  fold created in T, N, L, S, Oo, Oz, Ou. fold q in T, N, L, S, Oo, Oz, Ou.
  split; [exact N|]. split; [exact L|]. split; [|split].
  - cbn [validateQuestion errors]. rewrite In_validateErrors. unfold typeErrors.
    rewrite T, in_app_iff, !In_cond.
    intros [[_ H]|[[_ H]|[[_ H]|[[_ H]|[H _]]]]]; try discriminate H.
    apply Nat.ltb_lt in H. lia.
  - exact (Sequential_passes q T S).
  - intros V A.
    assert (Conforms q) as Cq by (unfold Conforms; rewrite T; auto).
    rewrite (authored_saved_iff q author Cq V A), T.
    assert (imageUrlOk (cast q) = true) as U
      by (unfold imageUrlOk; cbn [cast q_imageUrl]; now rewrite Ou).
    assert (sortedOrders q = indices (length (q_items q))) as O
      by (apply sortedOrders_iff; rewrite S; apply Permutation_refl).
    tauto.
Qed.

Lemma X13_ordering_editor_witness :
  let q := fst (performAll [AISuggest; AddItem; RemoveItem "id2"; UpdateItem "id5" "Ship"]
                  (fst (createEmptyQuestion ordering demoGen))
                  (snd (createEmptyQuestion ordering demoGen))) in
  let q' := fst (performAll
                   [AISuggest; UpdatePurpose summative;
                    UpdateMetadata (BloomsLevelOf ""); UpdatePurpose formative]
                   (fst (createEmptyQuestion ordering demoGen))
                   (snd (createEmptyQuestion ordering demoGen))) in
  (map i_id (q_items q) = ["id1"; "id3"; "id4"; "id5"]
   /\ NoDup (map i_id (q_items q))
   /\ isValid (validateQuestion q) = true
   /\ save (set_createdBy (Some "65ab4f2e9c1234567890abcd") q) = Saved)
  /\ (isValid (validateQuestion q') = true
      /\ q_bloomsLevel q' = Some ""
      /\ save (set_createdBy (Some "65ab4f2e9c1234567890abcd") q') <> Saved).
Proof.
  cbv zeta. split.
  - destruct (X13_ordering_editor
                [AISuggest; AddItem; RemoveItem "id2"; UpdateItem "id5" "Ship"] demoGen
                "65ab4f2e9c1234567890abcd" demoGen_CollisionFree) as (N & _ & _ & _ & S).
    split; [reflexivity|]. split; [exact N|]. split; [reflexivity|].
    now apply (S eq_refl eq_refl).
  - destruct (X13_ordering_editor
                [AISuggest; UpdatePurpose summative;
                 UpdateMetadata (BloomsLevelOf ""); UpdatePurpose formative] demoGen
                "65ab4f2e9c1234567890abcd" demoGen_CollisionFree) as (_ & _ & _ & _ & S).
    split; [reflexivity|]. split; [reflexivity|].
    intros H. apply (S eq_refl eq_refl) in H. discriminate H.
Defined.

Section DragAndRemove.

Lemma findIndexFrom_In {A} (key : A -> string) (x : string) (index : Z) (l : list A) :
  In x (map key l) ->
  exists i a,
    findIndexFrom (fun a => String.eqb (key a) x) index l = (index + Z.of_nat i)%Z
    /\ nth_error l i = Some a /\ key a = x.
Proof.
  revert index. induction l as [|b l IH]; intros index; cbn; [tauto|].
  intros I. destruct (String.eqb_spec (key b) x) as [E|E].
  - exists 0, b. split; [lia | auto].
  - destruct I as [I|I]; [contradiction|].
    destruct (IH (index + 1)%Z I) as (i & a & F & N & K).
    exists (S i), a. split; [rewrite F; lia | auto].
Qed.

Lemma renumber_content (l : list OrderingItem) :
  map itemContent (renumber l) = map itemContent l.
Proof. apply mapIndexed_map. reflexivity. Qed.

Lemma renumber_nth (l : list OrderingItem) (k : nat) (item : OrderingItem) :
  nth_error l k = Some item ->
  nth_error (renumber l) k = Some (mkItem (i_id item) (i_text item) (Z.of_nat k)).
Proof. intros N. unfold renumber. now rewrite (mapIndexed_nth _ 0 k l item N). Qed.

(** Items that carry their indices as orders are renumbered to themselves. *)
Lemma renumber_same_from (index : nat) (l : list OrderingItem) :
  map i_order l = upFrom (Z.of_nat index) (length l) ->
  mapIndexed (fun item k => mkItem (i_id item) (i_text item) (Z.of_nat k)) index l = l.
Proof.
  revert index. induction l as [|a l IH]; intros index; cbn; [reflexivity|].
  intros H. injection H as Ha H. f_equal.
  - destruct a; cbn in *. now subst.
  - apply IH. rewrite H. f_equal. lia.
Qed.

Lemma set_items_same (q : Question) : set_items (q_items q) q = q.
Proof. now destruct q. Qed.

Lemma set_options_same (q : Question) : set_options (q_options q) q = q.
Proof. now destruct q. Qed.

Lemma set_zones_same (q : Question) : set_zones (q_zones q) q = q.
Proof. now destruct q. Qed.

Lemma filter_snoc_fresh {A} (key : A -> string) (l : list A) (n : A) :
  ~ In (key n) (map key l) ->
  filter (fun a => negb (String.eqb (key a) (key n))) (l ++ [n]) = l.
Proof.
  intros F. rewrite filter_app, (filter_other_keys key _ l F). cbn.
  rewrite String.eqb_refl. cbn. apply app_nil_r.
Qed.

End DragAndRemove.

(** X14: dropping an item on itself changes nothing. Dropping it on another
    item rearranges the items of a question that has items: their
    identifiers and texts are those of before, none lost and none repeated,
    and their orders are renumbered 0 .. n-1; the dragged item (the first
    with the identifier [active]) takes the place of the item it is dropped
    on (the first with the identifier [over]), with that index as its order.
    On a question without items, [onChange] gets one object, [{ order: 0 }],
    for its items, which is no item. *)
Theorem X14_handleDragEnd (q : Question) (active over : string) :
  (active = over -> handleDragEnd q active over = NotMoved)
  /\ (active <> over -> q_items q <> [] ->
      exists q',
        handleDragEnd q active over = Dropped q'
        /\ Permutation (map itemContent (q_items q')) (map itemContent (q_items q))
        /\ Sequential q'
        /\ (In active (map i_id (q_items q)) -> In over (map i_id (q_items q)) ->
            exists j item,
              findIndex (fun item => String.eqb (i_id item) over) (q_items q)
              = Z.of_nat j
              /\ nth_error (q_items q') j = Some item
              /\ i_id item = active
              /\ i_order item = Z.of_nat j))
  /\ (active <> over -> q_items q = [] ->
      handleDragEnd q active over = DroppedUndefined [OrderOnly 0]).
Proof.
  split; [|split].
  - intros ->. unfold handleDragEnd. now rewrite String.eqb_refl.
  - intros N Ne.
    destruct (handleDragEnd_Dropped q active over Ne N) as (moved & E & P & H).
    eexists. split; [exact H|]. cbn [set_items q_items].
    split; [|split].
    + rewrite renumber_content. now apply Permutation_map.
    + apply renumber_Sequential.
    + intros Ia Io.
      destruct (findIndexFrom_In i_id active 0 _ Ia) as (i & a & Fi & Ni & Ka).
      destruct (findIndexFrom_In i_id over 0 _ Io) as (j & b & Fj & Nj & Kb).
      unfold findIndex in *. rewrite Fi, Fj in E. rewrite Fj. cbn [Z.add] in *.
      assert (j < length (q_items q)) as J by (apply nth_error_Some; congruence).
      pose proof (arrayMove_lands _ _ _ _ Ni J) as L.
      rewrite E, nth_error_map in L.
      destruct (nth_error moved j) as [x|] eqn:Nx; [|discriminate L].
      injection L as ->.
      exists j. eexists. split; [reflexivity|].
      split; [exact (renumber_nth _ _ _ Nx)|]. cbn. split; [exact Ka | reflexivity].
  - intros N E. now apply handleDragEnd_undefined.
Qed.

Lemma X14_handleDragEnd_witness :
  ("id1" <> "id3"
   /\ q_items (fst (createEmptyQuestion ordering demoGen)) <> []
   /\ exists q',
        handleDragEnd (fst (createEmptyQuestion ordering demoGen)) "id1" "id3"
        = Dropped q'
        /\ map i_id (q_items q') = ["id2"; "id3"; "id1"]
        /\ orderValues q' = [0; 1; 2]%Z)
  /\ (q_items demoNoItems = []
      /\ handleDragEnd demoNoItems "id1" "id3" = DroppedUndefined [OrderOnly 0]).
Proof.
  assert ("id1" <> "id3") as N by discriminate.
  assert (q_items (fst (createEmptyQuestion ordering demoGen)) <> []) as Ne
    by discriminate.
  split.
  - split; [exact N|]. split; [exact Ne|].
    destruct (proj1 (proj2 (X14_handleDragEnd (fst (createEmptyQuestion ordering demoGen))
                              "id1" "id3")) N Ne) as (q' & E & _ & S & _).
    exists q'. split; [exact E|].
    assert (handleDragEnd (fst (createEmptyQuestion ordering demoGen)) "id1" "id3"
            = Dropped (set_items [mkItem "id2" "" 0; mkItem "id3" "" 1; mkItem "id1" "" 2]
                         (fst (createEmptyQuestion ordering demoGen)))) as E'
      by reflexivity.
    rewrite E' in E. injection E as <-. split; reflexivity.
  - split; [reflexivity|].
    exact (proj2 (proj2 (X14_handleDragEnd demoNoItems "id1" "id3")) N eq_refl).
Defined.

(** X15: [removeItem] does nothing on a question with 2 items or fewer. On
    more items it takes out the items with the given identifier, keeps the
    identifiers and texts of the others, in order, and renumbers them
    0 .. n-1: one item less when the identifiers differ and an item has the
    identifier. *)
Theorem X15_removeItem (q : Question) (itemId : string) :
  (length (q_items q) <= 2 -> removeItem q itemId = None)
  /\ (2 < length (q_items q) ->
      exists q',
        removeItem q itemId = Some q'
        /\ map itemContent (q_items q')
           = map itemContent
               (filter (fun item => negb (String.eqb (i_id item) itemId)) (q_items q))
        /\ Sequential q'
        /\ ~ In itemId (map i_id (q_items q'))
        /\ (NoDup (map i_id (q_items q)) -> In itemId (map i_id (q_items q)) ->
            S (length (q_items q')) = length (q_items q))).
Proof.
  unfold removeItem. split; intros L.
  - destruct (Nat.ltb_spec 2 (length (q_items q))); [lia | reflexivity].
  - destruct (Nat.ltb_spec 2 (length (q_items q))); [|lia].
    eexists. split; [reflexivity|]. cbn [set_items q_items].
    split; [apply renumber_content|]. split; [apply renumber_Sequential|]. split.
    + rewrite renumber_ids. intros I. apply in_map_iff in I as (item & E & I).
      apply filter_In in I as [_ I]. subst. now rewrite String.eqb_refl in I.
    + intros N I. rewrite renumber_length.
      pose proof (key_count i_id itemId _ N) as [_ One]. specialize (One I).
      pose proof (filter_length (fun item => String.eqb (i_id item) itemId)
                    (q_items q)) as P.
      rewrite One in P. lia.
Qed.

Lemma X15_removeItem_witness :
  2 < length (q_items (fst (createEmptyQuestion ordering demoGen)))
  /\ exists q',
       removeItem (fst (createEmptyQuestion ordering demoGen)) "id1" = Some q'
       /\ map i_id (q_items q') = ["id2"; "id3"]
       /\ Sequential q'.
Proof.
  assert (2 < length (q_items (fst (createEmptyQuestion ordering demoGen)))) as L
    by (cbn; lia).
  split; [exact L|].
  destruct (proj2 (X15_removeItem (fst (createEmptyQuestion ordering demoGen)) "id1") L)
    as (q' & E & C & S & _).
  exists q'. split; [exact E|]. split; [|exact S].
  apply (f_equal (map fst)) in C. rewrite !map_map in C. exact C.
Defined.

(** X16: removing the sub-item just added gives back the question as it
    was, when the new identifier is not that of an older sub-item: an item
    ([addItem], [removeItem]) of a question with at least 2 items whose
    orders are 0 .. n-1, an option ([addOption], [removeOption]) of a question
    with at least 2 options, a zone ([finishZone], [removeZone]) drawn with
    at least 3 points. *)
Theorem X16_add_then_remove (q : Question) (d : Drawing) (g : IdGen) :
  let newId := fst (generateId g) in
  (Sequential q -> 2 <= length (q_items q) -> ~ In newId (map i_id (q_items q)) ->
   exists q1, fst (addItem q g) = Some q1 /\ removeItem q1 newId = Some q)
  /\ (2 <= length (q_options q) -> ~ In newId (map o_id (q_options q)) ->
      exists q1, fst (addOption q g) = Some q1 /\ removeOption q1 newId = Some q)
  /\ (3 <= length (currentZone d) -> ~ In newId (map z_id (q_zones q)) ->
      exists q1, fst (fst (finishZone q d g)) = Some q1 /\ removeZone q1 newId = Some q).
Proof.
  intros newId. split; [|split].
  - intros S L F. eexists. split; [reflexivity|].
    unfold removeItem. cbn [set_items q_items]. rewrite length_app. cbn [length].
    destruct (Nat.ltb_spec 2 (length (q_items q) + 1)); [|lia].
    rewrite (filter_snoc_fresh i_id (q_items q) (mkItem _ _ _) F).
    unfold renumber. rewrite (renumber_same_from 0 _ S).
    f_equal. now destruct q.
  - intros L F. eexists. split; [reflexivity|].
    unfold removeOption. cbn [set_options q_options]. rewrite length_app. cbn [length].
    destruct (Nat.ltb_spec 2 (length (q_options q) + 1)); [|lia].
    rewrite (filter_snoc_fresh o_id (q_options q) (mkOption _ _ _ _) F).
    f_equal. now destruct q.
  - intros L F. unfold finishZone, bind, ret.
    destruct (Nat.leb_spec 3 (length (currentZone d))); [|lia].
    eexists. split; [reflexivity|].
    unfold removeZone. cbn [set_zones q_zones].
    rewrite (filter_snoc_fresh z_id (q_zones q) (mkZone _ _ _) F).
    f_equal. now destruct q.
Qed.

Lemma X16_add_then_remove_witness :
  let q := fst (createEmptyQuestion ordering demoGen) in
  let g := snd (createEmptyQuestion ordering demoGen) in
  Sequential q /\ 2 <= length (q_items q)
  /\ ~ In (fst (generateId g)) (map i_id (q_items q))
  /\ exists q1, fst (addItem q g) = Some q1 /\ removeItem q1 "id4" = Some q.
Proof.
  cbv zeta.
  assert (Sequential (fst (createEmptyQuestion ordering demoGen))) as S by reflexivity.
  assert (2 <= length (q_items (fst (createEmptyQuestion ordering demoGen)))) as L
    by (cbn; lia).
  assert (~ In (fst (generateId (snd (createEmptyQuestion ordering demoGen))))
            (map i_id (q_items (fst (createEmptyQuestion ordering demoGen))))) as F.
  { cbn. intros [H|[H|[H|[]]]]; discriminate H. }
  split; [exact S|]. split; [exact L|]. split; [exact F|].
  exact (proj1 (X16_add_then_remove (fst (createEmptyQuestion ordering demoGen))
                  (mkDrawing false []) (snd (createEmptyQuestion ordering demoGen)))
           S L F).
Defined.

(** ** [HotspotQuestion]: zones, drawing and image *)

Section HotspotEditor.

Lemma HotspotOk_same (q q' : Question) (d : Drawing) :
  HotspotOk (q, d) -> q_type q' = q_type q -> q_zones q' = q_zones q ->
  q_options q' = q_options q -> q_items q' = q_items q ->
  HotspotOk (q', d).
Proof.
  intros [T Z O D] ET EZ EO EI. cbn [fst snd] in *.
  constructor; unfold ZonesOk; cbn [fst snd]; rewrite ?ET, ?EZ, ?EO, ?EI; auto.
Qed.

Lemma HotspotOk_zones (q : Question) (d d' : Drawing) (l : list HotspotZone) :
  HotspotOk (q, d) -> Forall (fun zone => 3 <= length (z_coordinates zone)) l ->
  DrawingOk d' -> HotspotOk (set_zones l q, d').
Proof. intros [T Z O D] F D'. constructor; auto. Qed.

Lemma performHotspot_ok (a : HotspotAction) (s : Question * Drawing) (g : IdGen) :
  HotspotOk s -> HotspotOk (fst (performHotspot a s g)).
Proof.
  destruct s as [q d]. intros M. pose proof M as [T Z O D]. cbn [fst snd] in *.
  destruct a; cbn [performHotspot ret fst snd orSame updateStem updateImageUrl
                   clearImage removeZone updateZoneLabel updatePurpose updateMetadata].
  - now apply (HotspotOk_same q).
  - now apply (HotspotOk_same q).
  - unfold handleFileUpload. destruct files as [|file files]; [exact M|].
    destruct (negb _); [exact M|]. destruct (_ <? _)%N; [exact M|].
    now apply (HotspotOk_same q).
  - now apply (HotspotOk_same q).
  - constructor; auto. cbn [snd]. unfold handleImageClick, DrawingOk in *.
    destruct (isDrawing d) eqn:E; cbn; [|reflexivity].
    now destruct (currentZone d).
  - unfold finishZone, bind, ret.
    destruct (Nat.leb_spec 3 (length (currentZone d))) as [L|L]; cbn.
    + apply (HotspotOk_zones q d); [exact M | | reflexivity].
      apply Forall_app. split; [exact Z|]. constructor; [exact L | constructor].
    + constructor; auto. reflexivity.
  - constructor; auto. reflexivity.
  - apply (HotspotOk_zones q d); [exact M | | exact D].
    apply Forall_forall. intros zone I. apply filter_In in I as [I _].
    unfold ZonesOk in Z. rewrite Forall_forall in Z. now apply Z.
  - apply (HotspotOk_zones q d); [exact M | | exact D].
    apply Forall_forall. intros zone I. apply in_map_iff in I as (z & E & I).
    unfold ZonesOk in Z. rewrite Forall_forall in Z. specialize (Z z I).
    destruct (String.eqb _ _); subst; exact Z.
  - now apply (HotspotOk_same q).
  - destruct m; now apply (HotspotOk_same q).
  - unfold handleAISuggest, bind, ret. rewrite T. cbn.
    constructor; cbn; auto. unfold ZonesOk. cbn. repeat constructor.
Qed.

Lemma performAllHotspot_ok (l : list HotspotAction) (s : Question * Drawing) (g : IdGen) :
  HotspotOk s -> HotspotOk (fst (performAllHotspot l s g)).
Proof.
  revert s g. induction l as [|a l IH]; intros s g M; cbn [performAllHotspot].
  - exact M.
  - unfold bind. pose proof (performHotspot_ok a s g M) as M'.
    destruct (performHotspot a s g) as [s' g']. apply IH. exact M'.
Qed.

Lemma dropWhile_snoc {A} (p : A -> bool) (l : list A) (a : A) :
  p a = false -> dropWhile p (l ++ [a]) = dropWhile p l ++ [a].
Proof.
  intros H. induction l as [|b l IH]; cbn; [now rewrite H|].
  destruct (p b); [exact IH | reflexivity].
Qed.

(** Trimming leaves a first code unit that is not white space where it is. *)
Lemma trimEndL_cons (a : ascii) (l : list ascii) :
  isWhiteSpace a = false -> trimEndL (a :: l) = a :: trimEndL l.
Proof.
  intros H. unfold trimEndL. cbn [rev].
  now rewrite (dropWhile_snoc _ _ _ H), rev_app_distr.
Qed.

Lemma trim_cons (c : ascii) (s : string) :
  isWhiteSpace c = false -> exists s', trim (String c s) = String c s'.
Proof.
  intros H. unfold trim, trimStartL. cbn [list_ascii_of_string dropWhile].
  rewrite H, (trimEndL_cons _ _ H). cbn. eauto.
Qed.

(** A data URL does not pass for an HTTP or HTTPS URL. *)
Lemma data_url_refused (url : string) :
  String.prefix "data:" url = true -> imageUrl_validator (trim url) = false.
Proof.
  intros P. destruct url as [|c s]; [discriminate P|].
  change (String.prefix "data:" (String c s))
    with (if ascii_dec "d" c then String.prefix "ata:" s else false) in P.
  destruct (ascii_dec "d" c) as [<-|]; [|discriminate P].
  destruct (trim_cons "d" s eq_refl) as [s' ->].
  unfold imageUrl_validator, imageUrl_pattern. rewrite test_Seq_Chr. reflexivity.
Qed.

Lemma validateQuestion_set_image (q : Question) (url file : option string) :
  validateQuestion (set_imageFile file (set_imageUrl url q)) = validateQuestion q.
Proof. unfold validateQuestion. now rewrite !validateErrors_checks. Qed.

End HotspotEditor.

(** X17: a hotspot question made by [createEmptyQuestion] and changed by any
    actions of its editor (clicks on the image, finishing and cancelling a
    zone, removing and labelling zones, image, purpose, metadata,
    suggestions) has only zones of at least 3 points, and a drawing is going
    on exactly when points have been put. Once the client-side validator
    finds the question valid, with an author that casts to an [ObjectId] it
    is persisted exactly when its image URL is one the schema accepts and
    its Bloom's level, if any, is a level (not the empty choice of the
    select, stored as the empty string). *)
Theorem X17_hotspot_editor (actions : list HotspotAction) (g : IdGen) (author : string) :
  let created := createEmptyQuestion hotspot g in
  let s := fst (performAllHotspot actions (fst created, mkDrawing false []) (snd created)) in
  q_type (fst s) = hotspot
  /\ (forall zone, In zone (q_zones (fst s)) -> 3 <= length (z_coordinates zone))
  /\ (isDrawing (snd s) = true <-> currentZone (snd s) <> [])
  /\ (isValid (validateQuestion (fst s)) = true -> isObjectId author = true ->
      (save (set_createdBy (Some author) (fst s)) = Saved
       <-> bloomsOk (fst s) = true /\ imageUrlOk (cast (fst s)) = true)).
Proof.
  intros created s.
  assert (HotspotOk (fst created, mkDrawing false [])) as M0
    by (constructor; cbn; auto; [constructor | reflexivity]).
  pose proof (performAllHotspot_ok actions _ (snd created) M0) as [T Z (Oo & Oi) D].
  fold s in T, Z, Oo, Oi, D.
  split; [exact T|]. split; [apply Forall_forall; exact Z|]. split.
  - unfold DrawingOk in D. rewrite D. destruct (currentZone (snd s)); split;
      congruence.
  - intros V A.
    assert (Conforms (fst s)) as Cq by (unfold Conforms; rewrite T; auto).
    rewrite (authored_saved_iff (fst s) author Cq V A), T. tauto.
Qed.

Lemma X17_hotspot_editor_witness :
  let drawn := [ HsStem "Where is the valve?"; HsClick 10 10; HsClick 50 10;
                 HsFinish; HsClick 10 10; HsClick 50 10; HsClick 50 40; HsFinish ] in
  let s := fst (performAllHotspot drawn
                  (fst (createEmptyQuestion hotspot demoGen), mkDrawing false [])
                  (snd (createEmptyQuestion hotspot demoGen))) in
  let s' := fst (performAllHotspot
                   (drawn ++ [HsUpload [mkFile "valve.png" "image/png" 20480]
                                "data:image/png;base64,iVBORw0KGgo="])
                   (fst (createEmptyQuestion hotspot demoGen), mkDrawing false [])
                   (snd (createEmptyQuestion hotspot demoGen))) in
  (map (fun zone => length (z_coordinates zone)) (q_zones (fst s)) = [3]
   /\ isValid (validateQuestion (fst s)) = true
   /\ save (set_createdBy (Some "65ab4f2e9c1234567890abcd") (fst s)) = Saved)
  /\ (isValid (validateQuestion (fst s')) = true
      /\ save (set_createdBy (Some "65ab4f2e9c1234567890abcd") (fst s')) <> Saved).
Proof.
  cbv zeta. split.
  - split; [reflexivity|]. split; [reflexivity|].
    apply (proj2 (proj2 (proj2 (X17_hotspot_editor
             [ HsStem "Where is the valve?"; HsClick 10 10; HsClick 50 10;
               HsFinish; HsClick 10 10; HsClick 50 10; HsClick 50 40; HsFinish ]
             demoGen "65ab4f2e9c1234567890abcd"))) eq_refl eq_refl).
    split; reflexivity.
  - split; [reflexivity|]. intros H.
    apply (proj2 (proj2 (proj2 (X17_hotspot_editor
             ([ HsStem "Where is the valve?"; HsClick 10 10; HsClick 50 10;
                HsFinish; HsClick 10 10; HsClick 50 10; HsClick 50 40; HsFinish ]
              ++ [HsUpload [mkFile "valve.png" "image/png" 20480]
                    "data:image/png;base64,iVBORw0KGgo="])
             demoGen "65ab4f2e9c1234567890abcd"))) eq_refl eq_refl) in H.
    destruct H as [_ H]. vm_compute in H. discriminate H.
Defined.

(** X18: [handleFileUpload] does nothing without a file, alerts on a file
    whose type does not start with [image/] and on a file of more than 5 MB
    (5242880 bytes), and otherwise puts the data URL of the file as
    [imageUrl]. The client-side validator reports on that question what it
    reported before, and the schema side, for which a data URL is no HTTP or
    HTTPS URL, refuses it with its error about the image URL. *)
Theorem X18_handleFileUpload (q q' : Question) (files : list File) (dataUrl : string) :
  (handleFileUpload q files dataUrl = Loaded q' <->
   exists file rest,
     files = file :: rest
     /\ String.prefix "image/" (file_type file) = true
     /\ (file_size file <= 5242880)%N
     /\ q' = set_imageFile (Some (file_name file)) (set_imageUrl (Some dataUrl) q))
  /\ (handleFileUpload q files dataUrl = NoFile <-> files = [])
  /\ (handleFileUpload q files dataUrl = Loaded q' ->
      String.prefix "data:" dataUrl = true ->
      validateQuestion q' = validateQuestion q
      /\ In (mkError (PField "imageUrl") (UserDefined M_IMAGE_URL)) (validate (cast q'))
      /\ save q' = ValidationFailed (validate (cast q'))).
Proof.
  assert (handleFileUpload q files dataUrl = Loaded q' ->
          exists file rest,
            files = file :: rest
            /\ String.prefix "image/" (file_type file) = true
            /\ (file_size file <= 5242880)%N
            /\ q' = set_imageFile (Some (file_name file))
                      (set_imageUrl (Some dataUrl) q)) as L.
  { unfold handleFileUpload. destruct files as [|file rest]; [discriminate|].
    destruct (String.prefix "image/" (file_type file)) eqn:P; cbn [negb]; [|discriminate].
    destruct (N.ltb_spec (5 * 1024 * 1024) (file_size file)) as [S|S]; [discriminate|].
    intros H. exists file, rest. repeat split; auto. congruence. }
  split; [split; [exact L|]|split].
  - intros (file & rest & -> & P & S & ->). unfold handleFileUpload. rewrite P. cbn [negb].
    destruct (N.ltb_spec (5 * 1024 * 1024) (file_size file)); [lia | reflexivity].
  - unfold handleFileUpload. destruct files as [|file rest]; [tauto|].
    destruct (negb _); [split; discriminate|].
    destruct (_ <? _)%N; split; discriminate.
  - intros H D. destruct (L H) as (file & rest & _ & _ & _ & ->).
    split; [apply validateQuestion_set_image|].
    assert (In (mkError (PField "imageUrl") (UserDefined M_IMAGE_URL))
               (validate (cast (set_imageFile (Some (file_name file))
                                  (set_imageUrl (Some dataUrl) q))))) as E.
    { unfold validate. rewrite !in_app_iff. do 6 right.
      unfold validate_imageUrl, checkValidator. cbn [cast set_imageFile set_imageUrl
        q_imageUrl trimOpt option_map].
      rewrite (data_url_refused _ D). now left. }
    split; [exact E | exact (failed_of_error _ _ E)].
Qed.

Lemma X18_handleFileUpload_witness :
  let file := mkFile "valve.png" "image/png" 20480 in
  let url := "data:image/png;base64,iVBORw0KGgo=" in
  let q' := set_imageFile (Some "valve.png") (set_imageUrl (Some url) (demoImage None)) in
  handleFileUpload (demoImage None) [file] url = Loaded q'
  /\ String.prefix "data:" url = true
  /\ save (demoImage None) = Saved
  /\ isValid (validateQuestion q') = true
  /\ save q' = ValidationFailed [mkError (PField "imageUrl") (UserDefined M_IMAGE_URL)].
Proof.
  cbv zeta.
  assert (handleFileUpload (demoImage None) [mkFile "valve.png" "image/png" 20480]
            "data:image/png;base64,iVBORw0KGgo="
          = Loaded (set_imageFile (Some "valve.png")
                      (set_imageUrl (Some "data:image/png;base64,iVBORw0KGgo=")
                         (demoImage None)))) as H by reflexivity.
  destruct (proj2 (proj2 (X18_handleFileUpload (demoImage None) _ _ _)) H eq_refl)
    as (_ & _ & S).
  split; [exact H|]. split; [reflexivity|]. split; [reflexivity|].
  split; [reflexivity|]. rewrite S. reflexivity.
Defined.

(** ** [QuestionEditor]: changing the type, taking the suggestions *)

Section TypeAndSuggestions.

Lemma blank_append_l (s t : string) : blank s = false -> blank (s ++ t) = false.
Proof. intros H. now rewrite blank_append, H. Qed.

Lemma blank_append_r (s t : string) : blank t = false -> blank (s ++ t) = false.
Proof. intros H. rewrite blank_append, H. apply andb_false_r. Qed.

Lemma valid_of_no_errors (q : Question) :
  validateErrors q = [] -> isValid (validateQuestion q) = true.
Proof. intros E. unfold validateQuestion. now rewrite E. Qed.

Lemma updateQuestionType_base (q p : Question) (t : QuestionType) :
  baseFields p = baseFields q -> updateQuestionType p t = updateQuestionType q t.
Proof.
  unfold baseFields. intros E. injection E as E1 E2 E3 E4 E5 E6.
  unfold updateQuestionType. now rewrite E1, E2, E3, E4, E5, E6.
Qed.

Lemma updateQuestionType_fields (q q' : Question) (t : QuestionType) :
  updateQuestionType q t = Some q' -> q_type q' = t /\ baseFields q' = baseFields q.
Proof. destruct t; intros E; injection E as <-; split; reflexivity. Qed.

Ltac not_blank :=
  repeat match goal with
         | |- context [blank (?s ++ ?t)] =>
             first [ change (blank (s ++ t)) with false
                   | rewrite (blank_append_r s t eq_refl) ]
         end.

(** What [handleAISuggest] gives, whatever identifiers it takes over or
    draws. *)
Lemma handleAISuggest_result (q : Question) (g : IdGen) :
  exists q',
    fst (handleAISuggest q g) = Some q'
    /\ q_type q' = q_type q /\ q_purpose q' = q_purpose q
    /\ q_learningObjective q' = q_learningObjective q
    /\ q_bloomsLevel q' = q_bloomsLevel q
    /\ q_imageUrl q' = q_imageUrl q
    /\ (Conforms q -> Conforms q')
    /\ blank (q_stem q') = false
    /\ typeErrors q' = []
    /\ match q_type q with
       | mcq => correctCount q' = 1 /\ length (q_options q') = 4
       | ordering => orderValues q' = indices (length (q_items q'))
       | hotspot => True
       end.
Proof.
  unfold handleAISuggest.
  match goal with |- context [set_topic (Some ?t)] => generalize t end. intros topic.
  unfold Conforms, typeErrors, correctCount, orderValues, isFormative.
  destruct (q_type q) eqn:T; unfold bind, ret.
  - unfold suggestedOptions, bind, ret.
    destruct (idOr _ g) as [a g1]. destruct (idOr _ g1) as [b g2].
    destruct (idOr _ g2) as [c g3]. destruct (idOr _ g3) as [d g4].
    eexists. split; [reflexivity|].
    cbn [set_options set_topic set_stem q_type q_purpose q_stem q_learningObjective
         q_bloomsLevel q_imageUrl q_options q_items q_zones existsb o_isCorrect o_text
         o_feedback blankOpt filter length negb orb].
    rewrite T. not_blank.
    rewrite andb_false_r. repeat split; auto; tauto.
  - unfold suggestedItems, bind, ret.
    destruct (idOr _ g) as [a g1]. destruct (idOr _ g1) as [b g2].
    destruct (idOr _ g2) as [c g3]. destruct (idOr _ g3) as [d g4].
    eexists. split; [reflexivity|].
    cbn [set_items set_topic set_stem q_type q_purpose q_stem q_learningObjective
         q_bloomsLevel q_imageUrl q_options q_items q_zones existsb i_text i_order
         map length orb].
    rewrite T. not_blank.
    repeat split; auto; tauto.
  - unfold suggestedZones, bind, ret.
    destruct (generateId g) as [a g1]. destruct (generateId g1) as [b g2].
    eexists. split; [reflexivity|].
    cbn [set_zones set_topic set_stem q_type q_purpose q_stem q_learningObjective
         q_bloomsLevel q_imageUrl q_options q_items q_zones length].
    rewrite T. not_blank.
    repeat split; auto; tauto.
Qed.

Lemma dropWhile_idem {A} (p : A -> bool) (l : list A) :
  dropWhile p (dropWhile p l) = dropWhile p l.
Proof.
  induction l as [|a l IH]; cbn; [reflexivity|].
  destruct (p a) eqn:E; [exact IH | cbn; now rewrite E].
Qed.

Lemma dropWhile_head {A} (p : A -> bool) (l : list A) (a : A) (r : list A) :
  dropWhile p l = a :: r -> p a = false.
Proof.
  induction l as [|b l IH]; cbn; [discriminate|].
  destruct (p b) eqn:E; [exact IH | congruence].
Qed.

Lemma trimL_idem (l : list ascii) :
  trimEndL (trimStartL (trimEndL (trimStartL l))) = trimEndL (trimStartL l).
Proof.
  assert (trimStartL (trimEndL (trimStartL l)) = trimEndL (trimStartL l)) as ->.
  { destruct (trimStartL l) as [|a r] eqn:E; [reflexivity|].
    pose proof (dropWhile_head _ _ _ _ E) as H.
    rewrite (trimEndL_cons _ _ H). unfold trimStartL. cbn. now rewrite H. }
  unfold trimEndL. now rewrite rev_involutive, dropWhile_idem.
Qed.

(** [s.trim().trim()] is [s.trim()]. *)
Lemma trim_idem (s : string) : trim (trim s) = trim s.
Proof.
  unfold trim. now rewrite list_ascii_of_string_of_list_ascii, trimL_idem.
Qed.

Lemma trimOpt_idem (s : option string) : trimOpt (trimOpt s) = trimOpt s.
Proof. destruct s; cbn; [now rewrite trim_idem | reflexivity]. Qed.

Lemma blank_trim (s : string) : blank (trim s) = blank s.
Proof.
  rewrite <- (negb_involutive (blank (trim s))), <- (negb_involutive (blank s)).
  rewrite <- !truthy_trim. now rewrite trim_idem.
Qed.

Lemma blankOpt_trimOpt (s : option string) : blankOpt (trimOpt s) = blankOpt s.
Proof. destruct s; cbn; [apply blank_trim | reflexivity]. Qed.

Lemma map_idem {A} (h : A -> A) (l : list A) :
  (forall a, h (h a) = h a) -> map h (map h l) = map h l.
Proof. intros H. rewrite map_map. apply map_ext. exact H. Qed.

Lemma cast_idem (q : Question) : cast (cast q) = cast q.
Proof.
  unfold cast. cbn [q_id q_type q_purpose q_stem q_topic q_learningObjective
                    q_bloomsLevel q_createdBy q_tags q_options q_items q_zones
                    q_imageUrl q_imageFile].
  rewrite trim_idem, !trimOpt_idem.
  rewrite (map_idem trim _ trim_idem).
  rewrite (map_idem cast_option), (map_idem cast_item), (map_idem cast_zone);
    first [ reflexivity
          | first [intros [a1 a2 a3 a4] | intros [a1 a2 a3]];
            unfold cast_zone, cast_item, cast_option;
            cbn [z_id z_coordinates z_label i_id i_text i_order o_id o_text
                 o_isCorrect o_feedback];
            now rewrite ?trim_idem, ?trimOpt_idem ].
Qed.

Lemma validateErrors_cast (q : Question) : validateErrors (cast q) = validateErrors q.
Proof.
  rewrite !validateErrors_checks.
  unfold typeErrors, isSummative, isFormative.
  cbn [cast q_type q_purpose q_stem q_learningObjective q_bloomsLevel q_options
       q_items q_zones].
  rewrite blank_trim, blankOpt_trimOpt, !existsb_map, !length_map.
  cbn [cast_option cast_item o_isCorrect o_text o_feedback i_text].
  assert (forall l, existsb (fun a => blank (trim (o_text a))) l
                    = existsb (fun a => blank (o_text a)) l) as E1
    by (intros l; apply existsb_ext; intros a; apply blank_trim).
  assert (forall l, existsb (fun a => blankOpt (trimOpt (o_feedback a))) l
                    = existsb (fun a => blankOpt (o_feedback a)) l) as E2
    by (intros l; apply existsb_ext; intros a; apply blankOpt_trimOpt).
  assert (forall l, existsb (fun a => blank (trim (i_text a))) l
                    = existsb (fun a => blank (i_text a)) l) as E3
    by (intros l; apply existsb_ext; intros a; apply blank_trim).
  now rewrite E1, E2, E3.
Qed.

End TypeAndSuggestions.

(** X19: [updateQuestionType] keeps the identifier, purpose, stem, topic,
    learning objective and Bloom's level of the question, sets the type, and
    replaces the payload by that of the type: the result depends on nothing
    else of the question (so a type changed and changed back has lost its
    options, items, zones and image, and of two changes the last one
    counts). The result has the payload of its type only, one correct option
    of 4 or 3 items in sequential order or no zone, and never passes the
    client-side validator, which reports empty texts or the missing zone. *)
Theorem X19_updateQuestionType (q : Question) (t : QuestionType) :
  exists q',
    updateQuestionType q t = Some q'
    /\ q_type q' = t /\ baseFields q' = baseFields q
    /\ (forall p, baseFields p = baseFields q -> updateQuestionType p t = Some q')
    /\ (forall t0 q0, updateQuestionType q t0 = Some q0 -> updateQuestionType q0 t = Some q')
    /\ Conforms q'
    /\ match t with
       | mcq => length (q_options q') = 4 /\ correctCount q' = 1
                /\ In E_OPTION_TEXT (errors (validateQuestion q'))
       | ordering => length (q_items q') = 3 /\ Sequential q'
                     /\ In E_ITEM_TEXT (errors (validateQuestion q'))
       | hotspot => q_zones q' = [] /\ q_imageUrl q' = Some ""
                    /\ In E_ZONE (errors (validateQuestion q'))
       end
    /\ isValid (validateQuestion q') = false.
Proof.
  assert (exists q', updateQuestionType q t = Some q') as [q' E]
    by (destruct t; eexists; reflexivity).
  exists q'. split; [exact E|].
  destruct (updateQuestionType_fields _ _ _ E) as [T B].
  split; [exact T|]. split; [exact B|]. split; [|split].
  - intros p Bp. now rewrite (updateQuestionType_base q p t Bp).
  - intros t0 q0 E0. destruct (updateQuestionType_fields _ _ _ E0) as [_ B0].
    now rewrite (updateQuestionType_base q q0 t B0).
  - assert (match t with
            | mcq => In E_OPTION_TEXT (errors (validateQuestion q'))
            | ordering => In E_ITEM_TEXT (errors (validateQuestion q'))
            | hotspot => In E_ZONE (errors (validateQuestion q'))
            end) as I.
    { destruct t; injection E as <-; cbn [errors validateQuestion];
        apply In_validateErrors; do 3 right; unfold typeErrors; cbn; auto. }
    split; [destruct t; injection E as <-; cbn; auto|]. split.
    + destruct t; injection E as <-; repeat split; auto.
    + destruct t; exact (invalid_of_error _ _ I).
Qed.

Lemma X19_updateQuestionType_witness :
  exists q',
    updateQuestionType demoMcq mcq = Some q'
    /\ (exists q0, updateQuestionType demoMcq ordering = Some q0
                   /\ updateQuestionType q0 mcq = Some q')
    /\ map o_text (q_options q') = [ EmptyString; EmptyString; EmptyString; EmptyString ]
    /\ map o_text (q_options demoMcq) = [ "Red"; "Yellow"; "Black" ].
Proof.
  destruct (X19_updateQuestionType demoMcq mcq) as (q' & E & _ & _ & _ & L & _).
  exists q'. split; [exact E|]. split.
  - eexists. split; [reflexivity|]. apply (L ordering). reflexivity.
  - cbv in E. injection E as <-. split; reflexivity.
Defined.

(** X20: after [handleAISuggest] the client-side validator reports nothing
    about the stem or the payload: what it reports is what it reported on
    the metadata of a summative question before. So a formative question is
    valid after the suggestions; and a question that had the payload of its
    type only and is valid after them is persisted, with an author that
    casts to an [ObjectId], exactly when its image URL is one the schema
    accepts and its Bloom's level, if any, is a level. *)
Theorem X20_handleAISuggest (q : Question) (g : IdGen) :
  exists q',
    fst (handleAISuggest q g) = Some q'
    /\ validateErrors q' = summativeErrors q
    /\ (q_purpose q = formative -> isValid (validateQuestion q') = true)
    /\ (Conforms q -> isValid (validateQuestion q') = true ->
        forall author, isObjectId author = true ->
        (save (set_createdBy (Some author) q') = Saved
         <-> bloomsOk q = true /\ imageUrlOk (cast q) = true)).
Proof.
  destruct (handleAISuggest_result q g)
    as (q' & E & T & P & L & B & U & C & S & TE & M).
  exists q'. split; [exact E|].
  assert (validateErrors q' = summativeErrors q) as V.
  { rewrite validateErrors_checks, S, TE. unfold summativeErrors, isSummative.
    rewrite P, L, B. cbn [cond app]. now rewrite app_nil_r. }
  split; [exact V|]. split.
  - intros F. apply valid_of_no_errors. rewrite V. unfold summativeErrors, isSummative.
    now rewrite F.
  - intros Cq Vq author A.
    rewrite (authored_saved_iff q' author (C Cq) Vq A).
    assert (bloomsOk q' = bloomsOk q) as -> by (unfold bloomsOk; now rewrite B).
    assert (imageUrlOk (cast q') = imageUrlOk (cast q)) as ->
      by (unfold imageUrlOk; cbn [cast q_imageUrl]; now rewrite U).
    rewrite T. destruct (q_type q).
    + destruct M as [M _]. tauto.
    + assert (sortedOrders q' = indices (length (q_items q'))) as O
        by (apply sortedOrders_iff; rewrite M; apply Permutation_refl).
      tauto.
    + tauto.
Qed.

Lemma X20_handleAISuggest_witness :
  exists q',
    fst (handleAISuggest (fst (createEmptyQuestion ordering demoGen))
           (snd (createEmptyQuestion ordering demoGen))) = Some q'
    /\ map i_text (q_items q')
       = [ "Initialize the topic environment"; "Configure the topic settings";
           "Implement the topic functionality"; "Test the topic implementation" ]
    /\ save (set_createdBy (Some "65ab4f2e9c1234567890abcd") q') = Saved
    /\ save (set_createdBy (Some "the author") q') <> Saved.
Proof.
  destruct (X20_handleAISuggest (fst (createEmptyQuestion ordering demoGen))
              (snd (createEmptyQuestion ordering demoGen)))
    as (q' & E & _ & F & S).
  exists q'. split; [exact E|].
  assert (q' = fst (perform AISuggest (fst (createEmptyQuestion ordering demoGen))
                      (snd (createEmptyQuestion ordering demoGen)))) as Eq.
  { unfold perform, bind, ret. cbn [handle].
    destruct (handleAISuggest _ _) as [changed g']. cbn [fst] in *. now subst changed. }
  split; [rewrite Eq; reflexivity|]. split.
  - apply (S (conj eq_refl eq_refl) (F eq_refl) "65ab4f2e9c1234567890abcd" eq_refl).
    split; reflexivity.
  - rewrite Eq. vm_compute. discriminate.
Defined.

(** X21: the trim setters of the schema are idempotent, so a stored
    document is stored again as it is, and neither validator tells a
    question from its trimmed form: [validateQuestion] reports the same on
    both, and both are persisted or refused alike. *)
Theorem X21_trimmed_alike (q : Question) :
  cast (cast q) = cast q
  /\ validateQuestion (cast q) = validateQuestion q
  /\ save (cast q) = save q.
Proof.
  split; [apply cast_idem|]. split.
  - unfold validateQuestion. now rewrite validateErrors_cast.
  - unfold save. now rewrite cast_idem.
Qed.

(** ** [HotspotQuestion]: a zone is addressed by its identifier *)

Section ZoneIds.

Lemma key_filter_one {A} (key : A -> string) (a : A) (l : list A) :
  NoDup (map key l) -> In a l ->
  filter (fun b => String.eqb (key b) (key a)) l = [a].
Proof.
  induction l as [|b l IH]; cbn; [tauto|].
  intros N I. apply NoDup_cons_iff in N as [Nb N]. destruct I as [->|I].
  - rewrite String.eqb_refl. f_equal. now apply filter_no_key.
  - destruct (String.eqb_spec (key b) (key a)) as [E|E]; [|now apply IH].
    exfalso. apply Nb. rewrite E. now apply in_map.
Qed.

Lemma ZoneIdsOk_same (q q' : Question) (g : IdGen) :
  ZoneIdsOk q g -> q_type q' = q_type q -> q_zones q' = q_zones q -> ZoneIdsOk q' g.
Proof. intros [T N D] ET EZ. constructor; rewrite ?ET, ?EZ; auto. Qed.

Lemma performHotspot_ZoneIdsOk (a : HotspotAction) (s : Question * Drawing) (g : IdGen) :
  CollisionFree g -> ZoneIdsOk (fst s) g ->
  ZoneIdsOk (fst (fst (performHotspot a s g))) (snd (performHotspot a s g))
  /\ Extends g (snd (performHotspot a s g)).
Proof.
  destruct s as [q d]. cbn [fst]. intros C M. pose proof M as [T N D].
  destruct a; cbn [performHotspot ret fst snd orSame updateStem updateImageUrl
                   clearImage removeZone updateZoneLabel updatePurpose updateMetadata].
  - split; [|apply Extends_refl]. now apply (ZoneIdsOk_same q).
  - split; [|apply Extends_refl]. now apply (ZoneIdsOk_same q).
  - split; [|apply Extends_refl]. unfold handleFileUpload.
    destruct files as [|file files]; [exact M|].
    destruct (negb _); [exact M|]. destruct (_ <? _)%N; [exact M|].
    now apply (ZoneIdsOk_same q).
  - split; [|apply Extends_refl]. now apply (ZoneIdsOk_same q).
  - split; [exact M | apply Extends_refl].
  - unfold finishZone, bind, ret.
    destruct (3 <=? length (currentZone d))%nat; cbn [fst snd orSame].
    + pose proof (Extends_generateId g) as X. pose proof (Drawn_snoc g _ D) as D'.
      pose proof (fresh_not_In g _ C D) as F.
      unfold generateId in *. cbn [fst snd orSame] in *.
      split; [|exact X]. constructor; cbn [set_zones q_type q_zones]; [exact T | |].
      * rewrite map_app. cbn. now apply NoDup_snoc.
      * now rewrite map_app.
    + split; [exact M | apply Extends_refl].
  - split; [exact M | apply Extends_refl].
  - split; [|apply Extends_refl]. constructor; cbn [set_zones q_type q_zones].
    + exact T.
    + now apply NoDup_key_filter.
    + intros i I. apply D. eapply In_key_filter. exact I.
  - split; [|apply Extends_refl].
    assert (map z_id (map (fun zone => if String.eqb (z_id zone) zoneId
                                       then mkZone (z_id zone) (z_coordinates zone)
                                              (Some label)
                                       else zone) (q_zones q))
            = map z_id (q_zones q)) as Ei.
    { rewrite map_map. apply map_ext. intros zone. now destruct (String.eqb _ _). }
    constructor; cbn [set_zones q_type q_zones]; [exact T | |]; now rewrite Ei.
  - split; [|apply Extends_refl]. now apply (ZoneIdsOk_same q).
  - split; [|apply Extends_refl]. destruct m; now apply (ZoneIdsOk_same q).
  - unfold handleAISuggest. rewrite T. unfold bind, ret, suggestedZones, bind, ret.
    cbn [generateId fst snd orSame next draws]. split.
    + constructor; cbn [set_zones set_topic set_stem q_type q_zones map z_id].
      * exact T.
      * constructor; [|constructor; [tauto | constructor]].
        intros [E|[]]. apply C in E. lia.
      * intros i [<-|[<-|[]]]; [exists (next g) | exists (S (next g))];
          cbn; split; (lia || reflexivity).
    + split; cbn; [reflexivity | lia].
Qed.

Lemma performAllHotspot_ZoneIdsOk (l : list HotspotAction) (s : Question * Drawing)
      (g : IdGen) :
  CollisionFree g -> ZoneIdsOk (fst s) g ->
  ZoneIdsOk (fst (fst (performAllHotspot l s g))) (snd (performAllHotspot l s g)).
Proof.
  revert s g. induction l as [|a l IH]; intros s g C M; cbn [performAllHotspot].
  - exact M.
  - unfold bind. destruct (performHotspot_ZoneIdsOk a s g C M) as [M' X].
    pose proof (CollisionFree_Extends _ _ X C) as C'.
    destruct (performHotspot a s g) as [s' g']. apply IH; assumption.
Qed.

End ZoneIds.

(** X22: when the generator of identifiers never yields the same identifier
    twice, the zones of a hotspot question made by [createEmptyQuestion] and
    changed by any actions of its editor have identifiers that differ. So an
    identifier the editor passes to [removeZone] or [updateZoneLabel] is that
    of one zone: [removeZone] takes out that zone and no other. *)
Theorem X22_hotspot_zone_ids (actions : list HotspotAction) (g : IdGen) :
  CollisionFree g ->
  let created := createEmptyQuestion hotspot g in
  let s := fst (performAllHotspot actions (fst created, mkDrawing false []) (snd created)) in
  NoDup (map z_id (q_zones (fst s)))
  /\ (forall zone, In zone (q_zones (fst s)) ->
      filter (fun other => String.eqb (z_id other) (z_id zone)) (q_zones (fst s)) = [zone]
      /\ exists q',
           removeZone (fst s) (z_id zone) = Some q'
           /\ S (length (q_zones q')) = length (q_zones (fst s))
           /\ ~ In zone (q_zones q')
           /\ (forall other, In other (q_zones (fst s)) -> other <> zone ->
               In other (q_zones q'))).
Proof.
  intros C created s.
  assert (ZoneIdsOk (fst (fst created, mkDrawing false [])) (snd created)) as M0
    by (constructor; cbn; [reflexivity | constructor | intros i []]).
  assert (CollisionFree (snd created)) as C0
    by (apply (CollisionFree_Extends g); [apply Extends_generateId | exact C]).
  pose proof (performAllHotspot_ZoneIdsOk actions _ _ C0 M0) as [_ N _]. fold s in N.
  split; [exact N|]. intros zone I.
  pose proof (key_filter_one z_id zone _ N I) as One.
  split; [exact One|]. eexists. split; [reflexivity|]. cbn [set_zones q_zones].
  split; [|split].
  - pose proof (filter_length (fun other => String.eqb (z_id other) (z_id zone))
                  (q_zones (fst s))) as P.
    rewrite One in P. cbn in P. lia.
  - intros F. apply filter_In in F as [_ F]. now rewrite String.eqb_refl in F.
  - intros other Io D. apply filter_In. split; [exact Io|].
    destruct (String.eqb_spec (z_id other) (z_id zone)) as [E|E]; [|reflexivity].
    exfalso. apply D.
    assert (In other [zone]) as [H|[]]
      by (rewrite <- One; apply filter_In; split; [exact Io | now apply String.eqb_eq]).
    now symmetry.
Qed.

Lemma X22_hotspot_zone_ids_witness :
  CollisionFree demoGen
  /\ let s := fst (performAllHotspot
                     [ HsClick 10 10; HsClick 50 10; HsClick 50 40; HsFinish;
                       HsClick 60 60; HsClick 90 60; HsClick 90 90; HsFinish ]
                     (fst (createEmptyQuestion hotspot demoGen), mkDrawing false [])
                     (snd (createEmptyQuestion hotspot demoGen))) in
     map z_id (q_zones (fst s)) = [ "id1"; "id2" ]
     /\ NoDup (map z_id (q_zones (fst s))).
Proof.
  split; [exact demoGen_CollisionFree|]. cbv zeta. split; [reflexivity|].
  exact (proj1 (X22_hotspot_zone_ids
                  [ HsClick 10 10; HsClick 50 10; HsClick 50 40; HsFinish;
                    HsClick 60 60; HsClick 90 60; HsClick 90 90; HsFinish ]
                  demoGen demoGen_CollisionFree)).
Defined.
